(** * Order matching and settlement core: SimpleOrderbookService

    A shallow embedding of [SimpleOrderbookService]
    (orderbook/simple-orderbook.service.ts of the backend, carried in
    packages/backend/seed.ts) together with the entities it reads and
    writes ([Order], [Trade], [Position], [Portfolio]) and the part of the
    TypeORM repositories it relies on.

    Modelling conventions.
    - A JavaScript [number] is an exact rational ([Q]) or [NaN]: rounding
      of doubles is not modelled, so a product stands for the double only
      where the double is exact (integers up to 2^53).  [NaN] also stands
      for the two infinities, which can only arise from the division in
      [updatePositions] and are never compared afterwards.  Results of
      arithmetic are kept in lowest terms, so that a number has one
      representation; statements about arbitrary numbers use [==].
    - Unit quantities are integers ([Z]), as the integer columns hold them.
      A quantity that is [undefined] on an object that was never saved
      ([qtyFilledUnits]) is held as the [0] its column defaults to; see
      [Scenario.newOrder] for where the two differ.
    - A nullable or optional field ([priceLimit]) is a [jsval]: a number,
      [null] or [undefined].
    - A decimal column comes back from the driver as text.  Every use the
      service makes of such a value converts it to a number, with two
      exceptions, both on [cashBalance]: the [+=] of [updatePortfolios]
      and the [reduce] of [getPortfolio] append text.  The model keeps the
      value of the column and writes these two operations out on its
      digits ([appendAmount], [PortfolioView.totalValue]).  [cashBalance]
      is stored with the two decimals of its column; the other decimal
      columns are held unrounded.
    - The database is a record of four tables; a table is the list of its
      rows in insertion order.  The constraints that the order of the
      statements can violate are modelled: the primary keys, and the NOT
      NULL columns [buyOrderId], [sellOrderId] and [pricePerUnit] of a
      trade with the foreign keys to the orders table.  A statement they
      reject throws [QueryFailedError].  Values are taken to fit the range
      of their column, and the user and the bond of an order to exist, so
      the save of an order succeeds.  There are no transactions: the
      service opens none, so every [save] is visible at once and survives
      a later exception.
    - An [async] method is a function from the database to the new database
      and a result; a thrown exception is the result [Err].
    - The order objects handed to [executeTrade] are mutated in place; the
      model returns the mutated objects next to the database. *)

From Stdlib Require Import ZArith QArith Qreduction Qabs Qround.
From Stdlib Require Import List Bool Lia Lqa.
From Stdlib Require Import Sorted Permutation.
From Stdlib Require String.
Import ListNotations.
Open Scope Z_scope.

(** ** JavaScript numbers *)

Module JS.

Inductive jsnum : Type :=
| Num (q : Q)
| NaN.

Inductive jsval : Type :=
| VNum (q : Q)
| VNull
| VUndefined.

(** ToNumber: [null] is [0], [undefined] is [NaN]. *)
Definition toNumber (v : jsval) : jsnum :=
  match v with
  | VNum q => Num q
  | VNull => Num 0
  | VUndefined => NaN
  end.

Definition ofZ (z : Z) : jsnum := Num (inject_Z z).

Definition add (a b : jsnum) : jsnum :=
  match a, b with
  | Num x, Num y => Num (Qred (x + y))
  | _, _ => NaN
  end.

Definition sub (a b : jsnum) : jsnum :=
  match a, b with
  | Num x, Num y => Num (Qred (x - y))
  | _, _ => NaN
  end.

(** The product is exact.  It is the product of the two doubles where
    that one is exact, as for whole numbers up to 2^53. *)
Definition mul (a b : jsnum) : jsnum :=
  match a, b with
  | Num x, Num y => Num (Qred (x * y))
  | _, _ => NaN
  end.

Definition div (a b : jsnum) : jsnum :=
  match a, b with
  | Num x, Num y => if Qeq_bool y 0 then NaN else Num (Qred (x / y))
  | _, _ => NaN
  end.

(** Relational operators: any comparison with [NaN] is false. *)
Definition lt (a b : jsnum) : bool :=
  match a, b with
  | Num x, Num y => negb (Qle_bool y x)
  | _, _ => false
  end.

Definition le (a b : jsnum) : bool :=
  match a, b with
  | Num x, Num y => Qle_bool x y
  | _, _ => false
  end.

Definition ge (a b : jsnum) : bool := le b a.

Definition gt (a b : jsnum) : bool := lt b a.

(** [v || 0] on a numeric field: every falsy value yields [0]. *)
Definition orZero (v : jsval) : jsnum :=
  match v with
  | VNum q => if Qeq_bool q 0 then Num 0 else Num q
  | VNull | VUndefined => Num 0
  end.

(** [a <= b] on two [Date] fields; a field not yet assigned by the
    database is [undefined] and compares false. *)
Definition date_le (a b : option Z) : bool :=
  match a, b with
  | Some x, Some y => x <=? y
  | _, _ => false
  end.

(** A value of a column [decimal(_, 2)]: rounded to two decimals, half
    away from zero. *)
Definition round2 (q : Q) : Q :=
  let n := Qfloor (Qabs q * 100 + (1 # 2)) in
  Qred (inject_Z (if Qle_bool 0 q then n else - n) / 100).

Definition toDecimal (a : jsnum) : jsnum :=
  match a with
  | Num q => Num (round2 q)
  | NaN => NaN
  end.

Definition isInteger (q : Q) : bool := Qeq_bool (inject_Z (Qfloor q)) q.

(** The number of digits [String(n)] prints for an integer [0 <= n]. *)
Definition digitsOf (n : Z) : Z :=
  match n with
  | Zpos p => Z.of_nat (Decimal.nb_digits (Pos.to_uint p))
  | _ => 1
  end.

(** [String(q)] of a number [0 < q < 1e-6] is in exponent form; it has no
    decimal point when [q] is [d] times [10^-m] for one digit [d]. *)
Fixpoint exponentForm (fuel : nat) (q : Q) (m : Z) : option (Z * Z) :=
  if Qle_bool 1 q
  then if isInteger q && Qle_bool q 9 then Some (Qfloor q, m) else None
  else match fuel with
       | O => None
       | S fuel => exponentForm fuel (q * 10) (m + 1)
       end.

(** [cash + amount] where [cash] is the text of a column [decimal(_, 2)]
    and [amount] a number: the text of [amount] is appended to the text of
    [cash], and the column the result is written to parses it.
    - A non-negative integer below [10^21] prints as its [k] digits: they
      follow the two decimals of [cash] as its decimals 3 to [k + 2].
    - A number below [1e-6] with one digit prints as [de-m]: the digit is
      the third decimal and the exponent scales the whole.
    - Any other text (a sign, a second decimal point, [NaN], an exponent
      of 21 or more) gives no number the column accepts. *)
Definition appendAmount (cash : Q) (amount : jsnum) : option Q :=
  let c := round2 cash in
  let signed (v : Q) := if Qle_bool 0 c then v else (- v)%Q in
  match amount with
  | NaN => None
  | Num a =>
      if isInteger a && Qle_bool 0 a
         && negb (Qle_bool (inject_Z (10 ^ 21)) a)
      then Some (Qred (signed
             (Qabs c + a / inject_Z (10 ^ (2 + digitsOf (Qfloor a))))%Q))
      else if negb (Qle_bool a 0) && negb (Qle_bool (1 # 1000000) a)
      then match exponentForm (Pos.size_nat (Qden a)) a 0 with
           | Some (d, m) =>
               Some (Qred (signed
                 ((Qabs c + inject_Z d / 1000) / inject_Z (10 ^ m))%Q))
           | None => None
           end
      else None
  end.

(** SameValueZero on the keys of a [Map<number, _>]. *)
Definition sameValueZero (a b : jsval) : bool :=
  match a, b with
  | VNum x, VNum y => Qeq_bool x y
  | VNull, VNull => true
  | VUndefined, VUndefined => true
  | _, _ => false
  end.

End JS.

Import JS.

(** ** Entities *)

Inductive Side : Type := BUY | SELL.
Inductive OrderType : Type := MARKET | LIMIT.
Inductive Status : Type := OPEN | EXECUTED | CANCELLED | EXPIRED | PARTIAL.

Definition Side_eqb (a b : Side) : bool :=
  match a, b with
  | BUY, BUY | SELL, SELL => true
  | _, _ => false
  end.

Definition Status_eqb (a b : Status) : bool :=
  match a, b with
  | OPEN, OPEN | EXECUTED, EXECUTED | CANCELLED, CANCELLED
  | EXPIRED, EXPIRED | PARTIAL, PARTIAL => true
  | _, _ => false
  end.

(** [id] and [createdAt] are generated columns: they are absent on an
    object that was never saved.  [createdAt] counts milliseconds. *)
Module Order.
Record t : Type := mk {
  id : option nat;
  userId : nat;
  bondId : nat;
  side : Side;
  orderType : OrderType;
  priceLimit : jsval;
  qtyUnits : Z;
  qtyFilledUnits : Z;
  status : Status;
  createdAt : option Z
}.

Definition set_id (v : option nat) (o : t) : t :=
  mk v (userId o) (bondId o) (side o) (orderType o) (priceLimit o)
     (qtyUnits o) (qtyFilledUnits o) (status o) (createdAt o).

Definition set_priceLimit (v : jsval) (o : t) : t :=
  mk (id o) (userId o) (bondId o) (side o) (orderType o) v
     (qtyUnits o) (qtyFilledUnits o) (status o) (createdAt o).

Definition set_qtyFilledUnits (v : Z) (o : t) : t :=
  mk (id o) (userId o) (bondId o) (side o) (orderType o) (priceLimit o)
     (qtyUnits o) v (status o) (createdAt o).

Definition set_status (v : Status) (o : t) : t :=
  mk (id o) (userId o) (bondId o) (side o) (orderType o) (priceLimit o)
     (qtyUnits o) (qtyFilledUnits o) v (createdAt o).

Definition set_createdAt (v : option Z) (o : t) : t :=
  mk (id o) (userId o) (bondId o) (side o) (orderType o) (priceLimit o)
     (qtyUnits o) (qtyFilledUnits o) (status o) v.
End Order.

(** The receipt ([tradeReceiptJson]) and [executedAt] are left out: the
    service never reads them back. *)
Module Trade.
Record t : Type := mk {
  id : option nat;
  buyOrderId : option nat;
  sellOrderId : option nat;
  bondId : nat;
  pricePerUnit : jsval;
  qtyUnits : Z
}.

Definition set_id (v : option nat) (x : t) : t :=
  mk v (buyOrderId x) (sellOrderId x) (bondId x) (pricePerUnit x) (qtyUnits x).
End Trade.

Module Position.
Record t : Type := mk {
  id : option nat;
  portfolioId : nat;
  bondId : nat;
  qtyUnits : Z;
  avgPricePerUnit : jsnum
}.

Definition set_id (v : option nat) (x : t) : t :=
  mk v (portfolioId x) (bondId x) (qtyUnits x) (avgPricePerUnit x).

Definition set_qtyUnits (v : Z) (x : t) : t :=
  mk (id x) (portfolioId x) (bondId x) v (avgPricePerUnit x).

Definition set_avgPricePerUnit (v : jsnum) (x : t) : t :=
  mk (id x) (portfolioId x) (bondId x) (qtyUnits x) v.
End Position.

Module Portfolio.
Record t : Type := mk {
  id : nat;
  userId : nat;
  cashBalance : jsnum
}.

Definition set_cashBalance (v : jsnum) (x : t) : t :=
  mk (id x) (userId x) v.
End Portfolio.

(** ** Repositories *)

Section Repository.
Variable T : Type.
Variable getId : T -> option nat.
Variable setId : option nat -> T -> T.

Definition hasId (i : nat) (r : T) : bool :=
  match getId r with
  | Some j => Nat.eqb i j
  | None => false
  end.

(** The next value of the serial primary key. *)
Definition nextId (rows : list T) : nat :=
  S (fold_right
       (fun r m => match getId r with Some j => Nat.max j m | None => m end)
       0%nat rows).

Definition update (i : nat) (r : T) (rows : list T) : list T :=
  map (fun x => if hasId i x then r else x) rows.

(** [repository.save]: update the row with the entity's primary key when
    there is one, insert otherwise; the entity comes back with its key. *)
Definition save (r : T) (rows : list T) : T * list T :=
  match getId r with
  | Some i =>
      if existsb (hasId i) rows then (r, update i r rows)
      else (r, rows ++ [r])
  | None =>
      let r' := setId (Some (nextId rows)) r in
      (r', rows ++ [r'])
  end.

(** [repository.remove]. *)
Definition remove (r : T) (rows : list T) : list T :=
  match getId r with
  | Some i => filter (fun x => negb (hasId i x)) rows
  | None => rows
  end.

(** [repository.findOne({ where })]. *)
Definition findOne (where_ : T -> bool) (rows : list T) : option T :=
  find where_ rows.

(** Stable insertion sort, for [order: { ... }] and [Array.prototype.sort]. *)
Fixpoint insertBy (leb : T -> T -> bool) (x : T) (l : list T) : list T :=
  match l with
  | [] => [x]
  | y :: r => if leb x y then x :: l else y :: insertBy leb x r
  end.

Definition sortBy (leb : T -> T -> bool) (l : list T) : list T :=
  fold_right (insertBy leb) [] l.
End Repository.

Arguments hasId {T} getId i r.
Arguments nextId {T} getId rows.
Arguments update {T} getId i r rows.
Arguments save {T} getId setId r rows.
Arguments remove {T} getId r rows.
Arguments findOne {T} where_ rows.
Arguments insertBy {T} leb x l.
Arguments sortBy {T} leb l.

Record DB : Type := mkDB {
  orders : list Order.t;
  trades : list Trade.t;
  positions : list Position.t;
  portfolios : list Portfolio.t
}.

Definition set_orders (v : list Order.t) (d : DB) : DB :=
  mkDB v (trades d) (positions d) (portfolios d).
Definition set_trades (v : list Trade.t) (d : DB) : DB :=
  mkDB (orders d) v (positions d) (portfolios d).
Definition set_positions (v : list Position.t) (d : DB) : DB :=
  mkDB (orders d) (trades d) v (portfolios d).
Definition set_portfolios (v : list Portfolio.t) (d : DB) : DB :=
  mkDB (orders d) (trades d) (positions d) v.

(** ** Exceptions and the database monad *)

Inductive error : Type :=
| InsufficientCash      (* Error('Insufficient cash balance') *)
| InsufficientPosition  (* Error('Insufficient bond position') *)
| TypeError             (* property access on null *)
| QueryFailedError.     (* a statement that the database rejects *)

Inductive result (A : Type) : Type :=
| Ok (a : A)
| Err (e : error).
Arguments Ok {A} a.
Arguments Err {A} e.

Definition M (A : Type) : Type := DB -> DB * result A.

Definition ret {A} (a : A) : M A := fun d => (d, Ok a).
Definition throw {A} (e : error) : M A := fun d => (d, Err e).
Definition bind {A B} (m : M A) (k : A -> M B) : M B :=
  fun d =>
    match m d with
    | (d', Ok a) => k a d'
    | (d', Err e) => (d', Err e)
    end.
Definition gets {A} (f : DB -> A) : M A := fun d => (d, Ok (f d)).
Definition modify (f : DB -> DB) : M unit := fun d => (f d, Ok tt).

(** Dereferencing the result of [findOne]: [null.x] throws. *)
Definition deref {A} (o : option A) : M A :=
  match o with
  | Some a => ret a
  | None => throw TypeError
  end.

Declare Scope db_scope.
Delimit Scope db_scope with db.
Notation "x <- c ;; k" := (bind c (fun x => k))
  (at level 61, c at next level, right associativity) : db_scope.
Notation "c ;;; k" := (bind c (fun _ => k))
  (at level 61, right associativity) : db_scope.
Open Scope db_scope.

(** ** Repository instances *)

(** An [undefined] property is written to its column as NULL. *)
Definition toRow (o : Order.t) : Order.t :=
  match Order.priceLimit o with
  | VUndefined => Order.set_priceLimit VNull o
  | _ => o
  end.

(** [@CreateDateColumn]: filled in on insert when the entity has none. *)
Definition stamp (now : Z) (o : Order.t) : Order.t :=
  match Order.createdAt o with
  | Some _ => o
  | None => Order.set_createdAt (Some now) o
  end.

Definition isStored (o : Order.t) (rows : list Order.t) : bool :=
  match Order.id o with
  | Some i => existsb (hasId Order.id i) rows
  | None => false
  end.

(** [orderRepository.save(order)] at time [now]; the result is the order
    object as the call leaves it, the row written is [toRow] of it.  An
    update writes every field of the object. *)
Definition saveOrder (now : Z) (o : Order.t) : M Order.t :=
  fun d =>
    let o1 := if isStored o (orders d) then o else stamp now o in
    let o2 := match Order.id o1 with
              | Some _ => o1
              | None => Order.set_id (Some (nextId Order.id (orders d))) o1
              end in
    (set_orders (snd (save Order.id Order.set_id (toRow o2) (orders d))) d,
     Ok o2).

(** A foreign key to the orders table in a NOT NULL column. *)
Definition references (i : option nat) (rows : list Order.t) : bool :=
  match i with
  | Some i => existsb (hasId Order.id i) rows
  | None => false
  end.

(** The constraints of the trades table: [buyOrderId], [sellOrderId] and
    [pricePerUnit] are NOT NULL, and the two ids reference stored orders. *)
Definition tradeAccepted (x : Trade.t) (d : DB) : bool :=
  references (Trade.buyOrderId x) (orders d)
  && references (Trade.sellOrderId x) (orders d)
  && match Trade.pricePerUnit x with
     | VNum _ => true
     | VNull | VUndefined => false
     end.

(** [tradeRepository.save(trade)]: the insert is rejected, and nothing is
    stored, when the trade violates a constraint of its table. *)
Definition saveTrade (x : Trade.t) : M Trade.t :=
  fun d =>
    if tradeAccepted x d
    then let '(x', rows) := save Trade.id Trade.set_id x (trades d) in
         (set_trades rows d, Ok x')
    else (d, Err QueryFailedError).

Definition savePosition (x : Position.t) : M Position.t :=
  fun d =>
    let '(x', rows) := save Position.id Position.set_id x (positions d) in
    (set_positions rows d, Ok x').

Definition removePosition (x : Position.t) : M unit :=
  modify (fun d => set_positions (remove Position.id x (positions d)) d).

Definition portfolioKey (p : Portfolio.t) : option nat := Some (Portfolio.id p).

Definition portfolioSetKey (v : option nat) (p : Portfolio.t) : Portfolio.t :=
  match v with
  | Some i => Portfolio.mk i (Portfolio.userId p) (Portfolio.cashBalance p)
  | None => p
  end.

(** [portfolioRepository.save(portfolio)] of a portfolio whose
    [cashBalance] is a number; the column keeps two decimals. *)
Definition savePortfolio (x : Portfolio.t) : M Portfolio.t :=
  fun d =>
    let row := Portfolio.set_cashBalance (toDecimal (Portfolio.cashBalance x)) x in
    let '(x', rows) := save portfolioKey portfolioSetKey row (portfolios d) in
    (set_portfolios rows d, Ok x').

(** The value of the text that [cashBalance += amount] leaves on a
    portfolio read from the database, if it is a number. *)
Definition creditedCash (cash amount : jsnum) : option Q :=
  match cash with
  | Num c => appendAmount c amount
  | NaN => None
  end.

(** [portfolio.cashBalance += amount] on a portfolio read from the
    database, followed by [portfolioRepository.save(portfolio)]: the text
    that [+=] leaves is written to the column, which rejects it when it is
    no number. *)
Definition creditPortfolio (x : Portfolio.t) (amount : jsnum) : M Portfolio.t :=
  match creditedCash (Portfolio.cashBalance x) amount with
  | Some v => savePortfolio (Portfolio.set_cashBalance (Num v) x)
  | None => throw QueryFailedError
  end.

(** [portfolioRepository.findOne({ where: { userId } })]. *)
Definition findPortfolio (user : nat) : M (option Portfolio.t) :=
  gets (fun d =>
    findOne (fun p => Nat.eqb (Portfolio.userId p) user) (portfolios d)).

(** [positionRepository.findOne({ where: { portfolioId, bondId } })]. *)
Definition findPosition (pid bond : nat) : M (option Position.t) :=
  gets (fun d =>
    findOne (fun x => Nat.eqb (Position.portfolioId x) pid
                      && Nat.eqb (Position.bondId x) bond) (positions d)).

(** [positionRepository.findOne({ where: { portfolio: { userId }, bondId } })]:
    the position is joined with its portfolio. *)
Definition findPositionOfUser (user bond : nat) : M (option Position.t) :=
  gets (fun d =>
    findOne (fun x =>
               existsb (fun p => Nat.eqb (Portfolio.id p) (Position.portfolioId x)
                                 && Nat.eqb (Portfolio.userId p) user)
                       (portfolios d)
               && Nat.eqb (Position.bondId x) bond) (positions d)).

(** Ordering of [orderRepository.find]: NULL sorts as the largest value,
    so it comes last ascending and first descending. *)
Definition price_cmp (a b : jsval) : comparison :=
  match a, b with
  | VNum x, VNum y => (x ?= y)%Q
  | VNum _, _ => Lt
  | _, VNum _ => Gt
  | _, _ => Eq
  end.

Definition created_cmp (a b : option Z) : comparison :=
  match a, b with
  | Some x, Some y => (x ?= y)%Z
  | Some _, None => Lt
  | None, Some _ => Gt
  | None, None => Eq
  end.

(** [order: { priceLimit: 'DESC' | 'ASC', createdAt: 'ASC' }]. *)
Definition order_leb (desc : bool) (a b : Order.t) : bool :=
  let c := price_cmp (Order.priceLimit a) (Order.priceLimit b) in
  match (if desc then CompOpp c else c) with
  | Lt => true
  | Gt => false
  | Eq =>
      match created_cmp (Order.createdAt a) (Order.createdAt b) with
      | Gt => false
      | _ => true
      end
  end.

(** [orderRepository.find({ where: { bondId, side, status: 'OPEN' },
    order: { priceLimit: side === 'BUY' ? 'DESC' : 'ASC', createdAt: 'ASC' } })]. *)
Definition findOpenOrders (bond : nat) (sd : Side) (d : DB) : list Order.t :=
  sortBy (order_leb (Side_eqb sd BUY))
    (filter (fun o => Nat.eqb (Order.bondId o) bond
                      && Side_eqb (Order.side o) sd
                      && Status_eqb (Order.status o) OPEN) (orders d)).

(** ** SimpleOrderbookService

    Logging and the event emitter have no effect on the state and are left
    out. *)

Definition validateOrder (order : Order.t) : M unit :=
  match Order.side order with
  | BUY =>
      portfolio <- findPortfolio (Order.userId order) ;;
      let requiredAmount :=
        mul (orZero (Order.priceLimit order)) (ofZ (Order.qtyUnits order)) in
      portfolio <- deref portfolio ;;
      if lt (Portfolio.cashBalance portfolio) requiredAmount
      then throw InsufficientCash
      else ret tt
  | SELL =>
      position <- findPositionOfUser (Order.userId order) (Order.bondId order) ;;
      match position with
      | None => throw InsufficientPosition
      | Some position =>
          if Position.qtyUnits position <? Order.qtyUnits order
          then throw InsufficientPosition
          else ret tt
      end
  end.

Definition canMatch (order oppositeOrder : Order.t) : bool :=
  match Order.orderType order with
  | MARKET => true
  | LIMIT =>
      match Order.side order with
      | BUY => ge (toNumber (Order.priceLimit order))
                  (toNumber (Order.priceLimit oppositeOrder))
      | SELL => le (toNumber (Order.priceLimit order))
                   (toNumber (Order.priceLimit oppositeOrder))
      end
  end.

Definition updatePositions (buyOrder sellOrder : Order.t)
    (price : jsval) (qty : Z) : M unit :=
  buyerPortfolio <- findPortfolio (Order.userId buyOrder) ;;
  buyerPortfolio <- deref buyerPortfolio ;;
  found <- findPosition (Portfolio.id buyerPortfolio) (Order.bondId buyOrder) ;;
  let buyerPosition :=
    match found with
    | Some x => x
    | None => Position.mk None (Portfolio.id buyerPortfolio)
                (Order.bondId buyOrder) 0 (Num 0)
    end in
  let totalCost :=
    add (mul (Position.avgPricePerUnit buyerPosition)
             (ofZ (Position.qtyUnits buyerPosition)))
        (mul (toNumber price) (ofZ qty)) in
  let totalQty := Position.qtyUnits buyerPosition + qty in
  let buyerPosition :=
    Position.set_qtyUnits totalQty
      (Position.set_avgPricePerUnit (div totalCost (ofZ totalQty))
         buyerPosition) in
  savePosition buyerPosition ;;;
  sellerPortfolio <- findPortfolio (Order.userId sellOrder) ;;
  sellerPortfolio <- deref sellerPortfolio ;;
  sellerPosition <-
    findPosition (Portfolio.id sellerPortfolio) (Order.bondId sellOrder) ;;
  match sellerPosition with
  | Some sellerPosition =>
      let sellerPosition :=
        Position.set_qtyUnits (Position.qtyUnits sellerPosition - qty)
          sellerPosition in
      if Position.qtyUnits sellerPosition <=? 0
      then removePosition sellerPosition
      else savePosition sellerPosition ;;; ret tt
  | None => ret tt
  end.

Definition updatePortfolios (buyOrder sellOrder : Order.t)
    (price : jsval) (qty : Z) : M unit :=
  let tradeAmount := mul (toNumber price) (ofZ qty) in
  buyerPortfolio <- findPortfolio (Order.userId buyOrder) ;;
  buyerPortfolio <- deref buyerPortfolio ;;
  savePortfolio
    (Portfolio.set_cashBalance
       (sub (Portfolio.cashBalance buyerPortfolio) tradeAmount)
       buyerPortfolio) ;;;
  sellerPortfolio <- findPortfolio (Order.userId sellOrder) ;;
  sellerPortfolio <- deref sellerPortfolio ;;
  creditPortfolio sellerPortfolio tradeAmount ;;;
  ret tt.

(** The price rule of [executeTrade]: the limit price of the order that
    was placed first. *)
Definition tradePriceOf (buyOrder sellOrder : Order.t) : jsval :=
  if date_le (Order.createdAt buyOrder) (Order.createdAt sellOrder)
  then Order.priceLimit buyOrder
  else Order.priceLimit sellOrder.

(** The trade record that [executeTrade] creates,
    [tradeRepository.create({ buyOrderId: buyOrder.id, ... })]. *)
Definition createTrade (buyOrder sellOrder : Order.t) : Trade.t :=
  let remainingBuyQty := Order.qtyUnits buyOrder - Order.qtyFilledUnits buyOrder in
  let remainingSellQty := Order.qtyUnits sellOrder - Order.qtyFilledUnits sellOrder in
  let tradeQty := Z.min remainingBuyQty remainingSellQty in
  let tradePrice := tradePriceOf buyOrder sellOrder in
  Trade.mk None (Order.id buyOrder) (Order.id sellOrder)
    (Order.bondId buyOrder) tradePrice tradeQty.

(** [executeTrade(buyOrder, sellOrder)].  The trade is saved first; then
    both order objects are mutated ([qtyFilledUnits += tradeQty]), and
    neither is saved here; the second component of the result is the pair
    of objects after the call. *)
Definition executeTrade (buyOrder sellOrder : Order.t) (d : DB)
    : DB * (Order.t * Order.t) * result Trade.t :=
  let remainingBuyQty := Order.qtyUnits buyOrder - Order.qtyFilledUnits buyOrder in
  let remainingSellQty := Order.qtyUnits sellOrder - Order.qtyFilledUnits sellOrder in
  let tradeQty := Z.min remainingBuyQty remainingSellQty in
  let tradePrice := tradePriceOf buyOrder sellOrder in
  let trade := createTrade buyOrder sellOrder in
  match saveTrade trade d with
  | (d1, Err e) => (d1, (buyOrder, sellOrder), Err e)
  | (d1, Ok trade) =>
      let buyOrder :=
        Order.set_qtyFilledUnits (Order.qtyFilledUnits buyOrder + tradeQty)
          buyOrder in
      let sellOrder :=
        Order.set_qtyFilledUnits (Order.qtyFilledUnits sellOrder + tradeQty)
          sellOrder in
      match (updatePositions buyOrder sellOrder tradePrice tradeQty ;;;
             updatePortfolios buyOrder sellOrder tradePrice tradeQty) d1 with
      | (d2, Ok _) => (d2, (buyOrder, sellOrder), Ok trade)
      | (d2, Err e) => (d2, (buyOrder, sellOrder), Err e)
      end
  end.

(** The loop of [matchOrder] over the orders fetched from the database.
    The incoming [order] is always the first argument of [executeTrade];
    the mutated resting order is dropped at the end of its iteration. *)
Fixpoint matchLoop (order : Order.t) (oppositeOrders : list Order.t)
    (trades : list Trade.t) (d : DB)
    : DB * Order.t * result (list Trade.t) :=
  match oppositeOrders with
  | [] => (d, order, Ok trades)
  | oppositeOrder :: rest =>
      if Order.qtyFilledUnits order >=? Order.qtyUnits order
      then (d, order, Ok trades)                               (* break *)
      else if Order.qtyFilledUnits oppositeOrder >=? Order.qtyUnits oppositeOrder
      then matchLoop order rest trades d                       (* continue *)
      else if canMatch order oppositeOrder
      then
        match executeTrade order oppositeOrder d with
        | (d1, (order1, _), Ok trade) =>
            matchLoop order1 rest (trades ++ [trade]) d1
        | (d1, (order1, _), Err e) => (d1, order1, Err e)
        end
      else matchLoop order rest trades d
  end.

Definition oppositeOf (s : Side) : Side :=
  match s with
  | BUY => SELL
  | SELL => BUY
  end.

Definition matchOrder (order : Order.t) (d : DB)
    : DB * Order.t * result (list Trade.t) :=
  let oppositeSide := oppositeOf (Order.side order) in
  let oppositeOrders := findOpenOrders (Order.bondId order) oppositeSide d in
  matchLoop order oppositeOrders [] d.

(** The status [addOrder] gives the order after matching. *)
Definition statusAfterMatch (order : Order.t) : Status :=
  if Order.qtyFilledUnits order =? Order.qtyUnits order then EXECUTED
  else if Order.qtyFilledUnits order >? 0 then PARTIAL
  else match Order.orderType order with
       | MARKET => CANCELLED
       | LIMIT => OPEN
       end.

(** [addOrder(order)], called at time [now].  The [catch] block saves the
    order object, as the [try] block left it, with status CANCELLED and
    rethrows. *)
Definition addOrder (now : Z) (order : Order.t)
    : M (Order.t * list Trade.t) :=
  fun d =>
    let '(d1, order1, r) :=
      match validateOrder order d with
      | (d1, Err e) => (d1, order, Err e)
      | (d1, Ok _) =>
          match matchOrder order d1 with
          | (d2, order2, Err e) => (d2, order2, Err e)
          | (d2, order2, Ok trades) =>
              let order3 := Order.set_status (statusAfterMatch order2) order2 in
              match saveOrder now order3 d2 with
              | (d3, Ok order4) => (d3, order4, Ok (order4, trades))
              | (d3, Err e) => (d3, order3, Err e)
              end
          end
      end in
    match r with
    | Ok v => (d1, Ok v)
    | Err e =>
        (fst (saveOrder now (Order.set_status CANCELLED order1) d1), Err e)
    end.

Definition cancelOrder (now : Z) (orderId userId : nat) : M bool :=
  order <- gets (fun d =>
             findOne (fun o => hasId Order.id orderId o
                               && Nat.eqb (Order.userId o) userId) (orders d)) ;;
  match order with
  | None => ret false
  | Some order =>
      if negb (Status_eqb (Order.status order) OPEN) then ret false
      else
        saveOrder now (Order.set_status CANCELLED order) ;;;
        ret true
  end.

(** ** The order book view *)

Record OrderBookLevel : Type := mkLevel {
  price : jsval;
  quantity : Z;
  levelOrders : list Order.t
}.

Record OrderBook : Type := mkBook {
  bids : list OrderBookLevel;
  asks : list OrderBookLevel;
  lastPrice : jsval
}.

(** One iteration of the grouping loop on the insertion-ordered
    [Map<number, OrderBookLevel>]. *)
Fixpoint addToLevels (order : Order.t) (levels : list OrderBookLevel)
    : list OrderBookLevel :=
  let remaining := Order.qtyUnits order - Order.qtyFilledUnits order in
  match levels with
  | [] => [mkLevel (Order.priceLimit order) (0 + remaining) [order]]
  | level :: rest =>
      if sameValueZero (price level) (Order.priceLimit order)
      then mkLevel (price level) (quantity level + remaining)
             (levelOrders level ++ [order]) :: rest
      else level :: addToLevels order rest
  end.

(** The comparator of the final sort; a [NaN] difference leaves the pair
    in place. *)
Definition level_leb (sd : Side) (a b : OrderBookLevel) : bool :=
  let diff :=
    match sd with
    | BUY => sub (toNumber (price b)) (toNumber (price a))
    | SELL => sub (toNumber (price a)) (toNumber (price b))
    end in
  negb (gt diff (Num 0)).

Definition getOrderBookSide (bond : nat) (sd : Side) (d : DB)
    : list OrderBookLevel :=
  let orders := findOpenOrders bond sd d in
  let levels := fold_left (fun acc o => addToLevels o acc) orders [] in
  sortBy (level_leb sd) levels.

(** [tradeRepository.findOne({ where: { bondId }, order: { executedAt: 'DESC' } })]:
    the most recently inserted trade of the bond. *)
Definition lastTradeOf (bond : nat) (d : DB) : option Trade.t :=
  findOne (fun x => Nat.eqb (Trade.bondId x) bond) (rev (trades d)).

Definition getOrderBook (bond : nat) (d : DB) : OrderBook :=
  let bids := getOrderBookSide bond BUY d in
  let asks := getOrderBookSide bond SELL d in
  mkBook (firstn 10 bids) (firstn 10 asks)
    (match lastTradeOf bond d with
     | Some x => Trade.pricePerUnit x
     | None => VUndefined
     end).

(** ** Observations used in the statements *)


(** The stored order with a given primary key. *)
Definition orderById (i : nat) (d : DB) : option Order.t :=
  findOne (hasId Order.id i) (orders d).

(** The first portfolio of a user, and the position it holds in a bond. *)
Definition portfolioOf (user : nat) (d : DB) : option Portfolio.t :=
  findOne (fun p => Nat.eqb (Portfolio.userId p) user) (portfolios d).

Definition positionOf (pid bond : nat) (d : DB) : option Position.t :=
  findOne (fun x => Nat.eqb (Position.portfolioId x) pid
                    && Nat.eqb (Position.bondId x) bond) (positions d).

Definition cashOf (user : nat) (d : DB) : option jsnum :=
  option_map Portfolio.cashBalance (portfolioOf user d).

(** All orders shown on one side of the book. *)
Definition bookOrders (bond : nat) (sd : Side) (d : DB) : list Order.t :=
  flat_map levelOrders (getOrderBookSide bond sd d).

(** [n] successive calls of [cancelOrder] with the same arguments. *)
Fixpoint cancelRepeatedly (n : nat) (now : Z) (orderId userId : nat) (d : DB)
    : DB * list (result bool) :=
  match n with
  | O => (d, [])
  | S k =>
      let '(d1, r) := cancelOrder now orderId userId d in
      let '(d2, rs) := cancelRepeatedly k now orderId userId d1 in
      (d2, r :: rs)
  end.

(** ** Auxiliary definitions for the statements and proofs *)

(** The quantity [executeTrade] trades between two orders. *)
Definition tradeQtyOf (buyOrder sellOrder : Order.t) : Z :=
  Z.min (Order.qtyUnits buyOrder - Order.qtyFilledUnits buyOrder)
        (Order.qtyUnits sellOrder - Order.qtyFilledUnits sellOrder).

(** An order object differs from [o] in its filled quantity at most. *)
Definition filledFrom (o o' : Order.t) : Prop :=
  o' = Order.set_qtyFilledUnits (Order.qtyFilledUnits o') o.

(** The buyer's position after the purchase is booked. *)
Definition boughtPosition (pid bond : nat) (found : option Position.t)
    (price : jsval) (qty : Z) : Position.t :=
  let x := match found with
           | Some x => x
           | None => Position.mk None pid bond 0 (Num 0)
           end in
  Position.set_qtyUnits (Position.qtyUnits x + qty)
    (Position.set_avgPricePerUnit
       (div (add (mul (Position.avgPricePerUnit x) (ofZ (Position.qtyUnits x)))
                 (mul (toNumber price) (ofZ qty)))
            (ofZ (Position.qtyUnits x + qty))) x).

(** The position table after the seller's side is booked. *)
Definition soldPositions (found : option Position.t) (qty : Z)
    (rows : list Position.t) : list Position.t :=
  match found with
  | Some x =>
      let x' := Position.set_qtyUnits (Position.qtyUnits x - qty) x in
      if Position.qtyUnits x - qty <=? 0
      then remove Position.id x' rows
      else snd (save Position.id Position.set_id x' rows)
  | None => rows
  end.

(** The order [cancelOrder] looks up: the first stored order with the
    given key and user. *)
Definition ownedOrder (orderId userId : nat) (d : DB) : option Order.t :=
  findOne (fun o => hasId Order.id orderId o
                    && Nat.eqb (Order.userId o) userId) (orders d).

(** The [where] clause of [findPosition], named. *)
Definition positionWhere (pid bond : nat) (x : Position.t) : bool :=
  Nat.eqb (Position.portfolioId x) pid && Nat.eqb (Position.bondId x) bond.

(** What a portfolio holds of a bond: no record counts as 0 units at
    average price 0, as [updatePositions] takes it. *)
Definition heldBy (pid bond : nat) (d : DB) : Z * jsnum :=
  match positionOf pid bond d with
  | Some x => (Position.qtyUnits x, Position.avgPricePerUnit x)
  | None => (0, Num 0)
  end.

(** The key constraints of the positions table: a primary key on every
    row, and one row per portfolio and bond. *)
Definition positionKeys (d : DB) : Prop :=
  (forall x, In x (positions d) -> Position.id x <> None) /\
  NoDup (map Position.id (positions d)) /\
  NoDup (map (fun x => (Position.portfolioId x, Position.bondId x))
             (positions d)).




(** The object that the first save leaves of an order without key: with
    the next key of the table and the creation date. *)
Definition inserted (now : Z) (o : Order.t) (d : DB) : Order.t :=
  Order.set_id (Some (nextId Order.id (orders d))) (stamp now o).

(** The loop of [matchOrder] reaches a call of [executeTrade]: the order
    has a remainder and one of the fetched orders is unfilled and accepted
    by [canMatch]. *)
Definition matchable (order : Order.t) (opps : list Order.t) : bool :=
  (Order.qtyFilledUnits order <? Order.qtyUnits order)
  && existsb (fun R => (Order.qtyFilledUnits R <? Order.qtyUnits R)
                       && canMatch order R) opps.


(** ** Further observations *)

(** Units traded by a list of trades. *)
Definition tradedQty (ts : list Trade.t) : Z :=
  fold_right Z.add 0 (map Trade.qtyUnits ts).

(** The unfilled remainder of an order. *)
Definition remaining (o : Order.t) : Z :=
  Order.qtyUnits o - Order.qtyFilledUnits o.

(** What the orders of a list offer to an incoming order: the remainders
    of those that are not filled and that [canMatch] accepts. *)
Definition available (order : Order.t) (opps : list Order.t) : Z :=
  fold_right Z.add 0
    (map (fun R =>
            if (Order.qtyFilledUnits R <? Order.qtyUnits R) && canMatch order R
            then remaining R else 0) opps).

(** The opposite orders that [matchOrder] fetches for an order. *)
Definition fetched (order : Order.t) (d : DB) : list Order.t :=
  findOpenOrders (Order.bondId order) (oppositeOf (Order.side order)) d.

(** [subseq l1 l2]: [l1] is [l2] with some elements left out, in the
    order of [l2]. *)
Inductive subseq {A : Type} : list A -> list A -> Prop :=
| subseq_nil : subseq [] []
| subseq_skip (x : A) (l1 l2 : list A) : subseq l1 l2 -> subseq l1 (x :: l2)
| subseq_take (x : A) (l1 l2 : list A) : subseq l1 l2 -> subseq (x :: l1) (x :: l2).

(** The trade [t] is the one that [executeTrade order R] records. *)
Definition tradeBetween (order : Order.t) (t : Trade.t) (R : Order.t) : Prop :=
  Trade.buyOrderId t = Order.id order /\
  Trade.sellOrderId t = Order.id R /\
  Trade.bondId t = Order.bondId order /\
  Trade.pricePerUnit t = tradePriceOf order R /\
  Order.qtyFilledUnits R < Order.qtyUnits R /\
  canMatch order R = true.

(** The unfilled units of a list of orders. *)
Definition levelQty (os : list Order.t) : Z :=
  fold_right Z.add 0 (map remaining os).

(** A level of the book view as [getOrderBookSide] builds it: it has
    orders, they carry the price of the level, and the quantity is the sum
    of their remainders. *)
Definition levelOk (L : OrderBookLevel) : Prop :=
  levelOrders L <> [] /\
  quantity L = levelQty (levelOrders L) /\
  Forall (fun o => sameValueZero (price L) (Order.priceLimit o) = true)
         (levelOrders L).

(** The levels that [getOrderBookSide] collects before sorting them. *)
Definition groupLevels (os : list Order.t) (acc : list OrderBookLevel)
    : list OrderBookLevel :=
  fold_left (fun acc o => addToLevels o acc) os acc.

(** The position that [validateOrder] finds for a SELL order: the first
    position of the bond whose portfolio belongs to the user. *)
Definition positionOfUser (user bond : nat) (d : DB) : option Position.t :=
  findOne
    (fun x : Position.t =>
       existsb (fun p : Portfolio.t =>
                  Nat.eqb (Portfolio.id p) (Position.portfolioId x)
                  && Nat.eqb (Portfolio.userId p) user)
               (portfolios d)
       && Nat.eqb (Position.bondId x) bond)
    (positions d).

(** ** OrdersService (orders.service.ts) *)

(** [new Error(`Order with ID ${id} not found`)]. *)
Inductive OrdersError : Type :=
| OrderNotFound (id : nat).

(** [getOrderById(id, userId)]: [findOne({ where: { id, userId } })],
    and an error when there is none. *)
Definition getOrderById (id userId : nat) (d : DB) : OrdersError + Order.t :=
  match findOne (fun o : Order.t =>
                   hasId Order.id id o && Nat.eqb (Order.userId o) userId)
                (orders d) with
  | Some order => inr order
  | None => inl (OrderNotFound id)
  end.

(** [order: { createdAt: 'DESC' }]. *)
Definition newest_leb (a b : Order.t) : bool :=
  match CompOpp (created_cmp (Order.createdAt a) (Order.createdAt b)) with
  | Gt => false
  | _ => true
  end.

(** [getUserOrders(userId)]:
    [find({ where: { userId }, order: { createdAt: 'DESC' } })]. *)
Definition getUserOrders (userId : nat) (d : DB) : list Order.t :=
  sortBy newest_leb
    (filter (fun o : Order.t => Nat.eqb (Order.userId o) userId) (orders d)).

(** ** PortfolioService (portfolio.service.ts) *)

Module Bond.
Record t : Type := mk {
  id : nat;
  name : String.string;
  lastTradedPrice : jsval
}.
End Bond.

(** An element of [positionsWithValue]. *)
Module PositionView.
Record t : Type := mk {
  bondId : nat;
  name : String.string;
  qty : Z;
  avgPrice : jsnum;
  currentPrice : jsnum;
  marketValue : jsnum;
  pnl : jsnum
}.
End PositionView.

(** The object that [getPortfolio] returns.  [totalValue] is what the
    [reduce] leaves: [(c, ms)] is the text of the cash [c] followed by the
    texts of the numbers [ms], in this order; with no [ms] it is [c]
    itself. *)
Module PortfolioView.
Record t : Type := mk {
  cash : jsnum;
  positions : list PositionView.t;
  totalValue : jsnum * list jsnum
}.
End PortfolioView.

(** [portfolioRepository.save(create({ userId, cashBalance: 0 }))]: a row
    with a generated id is inserted. *)
Definition insertPortfolio (userId : nat) : M unit :=
  modify (fun d =>
    set_portfolios
      (portfolios d ++
       [Portfolio.mk (nextId portfolioKey (portfolios d)) userId (Num 0)]) d).

(** One step of [positions.map(position => ...)]; [position.bond] is the
    joined bond, and reading [name] of a missing one is a TypeError. *)
Definition positionView (bonds : list Bond.t) (position : Position.t)
    : result PositionView.t :=
  match findOne (fun b : Bond.t => Nat.eqb (Bond.id b) (Position.bondId position))
                bonds with
  | Some bond =>
      Ok (PositionView.mk
            (Position.bondId position)
            (Bond.name bond)
            (Position.qtyUnits position)
            (Position.avgPricePerUnit position)
            (orZero (Bond.lastTradedPrice bond))
            (JS.mul (ofZ (Position.qtyUnits position))
                    (orZero (Bond.lastTradedPrice bond)))
            (JS.sub (orZero (Bond.lastTradedPrice bond))
                    (Position.avgPricePerUnit position)))
  | None => Err TypeError
  end.

Fixpoint mapResult {A B : Type} (f : A -> result B) (l : list A)
    : result (list B) :=
  match l with
  | [] => Ok []
  | x :: rest =>
      match f x with
      | Ok y =>
          match mapResult f rest with
          | Ok ys => Ok (y :: ys)
          | Err e => Err e
          end
      | Err e => Err e
      end
  end.

(** [getPortfolio(userId)], over the bonds table [bonds]. *)
Definition getPortfolio (bonds : list Bond.t) (userId : nat)
    : M PortfolioView.t :=
  portfolio <- findPortfolio userId ;;
  match portfolio with
  | None =>
      insertPortfolio userId ;;;
      ret (PortfolioView.mk (Num 0) [] (Num 0, []))
  | Some portfolio =>
      positions <- gets (fun d =>
        filter (fun x : Position.t =>
                  Nat.eqb (Position.portfolioId x) (Portfolio.id portfolio))
               (positions d)) ;;
      match mapResult (positionView bonds) positions with
      | Ok positionsWithValue =>
          let totalValue :=
            fold_left
              (fun sum pos => (fst sum, snd sum ++ [PositionView.marketValue pos]))
              positionsWithValue (Portfolio.cashBalance portfolio, []) in
          ret (PortfolioView.mk (Portfolio.cashBalance portfolio)
                                positionsWithValue totalValue)
      | Err e => throw e
      end
  end.

(** The view of a portfolio without positions and cash. *)
Definition emptyView : PortfolioView.t :=
  PortfolioView.mk (Num 0) [] (Num 0, []).

(** The key of a position under the unique constraint of the table. *)
Definition positionKey (x : Position.t) : nat * nat :=
  (Position.portfolioId x, Position.bondId x).

(** The positions of one bond. *)
Definition positionsOfBond (bond : nat) (d : DB) : list Position.t :=
  filter (fun x : Position.t => Nat.eqb (Position.bondId x) bond) (positions d).

(** The key constraints of the positions table, on rows: every row has an
    id, ids are unique, and so are the pairs of portfolio and bond. *)
Definition keysOk (rows : list Position.t) : Prop :=
  (forall x, In x rows -> Position.id x <> None) /\
  NoDup (map Position.id rows) /\
  NoDup (map positionKey rows).

(** The key constraint of the orders table: every row has an id and ids
    are unique. *)
Definition orderKeys (d : DB) : Prop :=
  (forall x, In x (orders d) -> Order.id x <> None) /\
  NoDup (map Order.id (orders d)).

(** ** Example states and orders

    Bond 1; user 1 holds 100 units, user 2 holds cash, user 3 holds 50
    units. *)

Module Scenario.

Definition db0 : DB :=
  mkDB [] []
    [ Position.mk (Some 1%nat) 1 1 100 (Num 95);
      Position.mk (Some 2%nat) 3 1 50 (Num 95) ]
    [ Portfolio.mk 1 1 (Num 0);
      Portfolio.mk 2 2 (Num 20000);
      Portfolio.mk 3 3 (Num 0) ].

(** An order for bond 1 as [OrdersService.createOrder] hands it to
    [addOrder]: [create({ ...dto, userId, status: 'OPEN' })], an object
    without key and creation date.  Its [qtyFilledUnits] is [undefined]
    and is held as [0].  The two differ only where the service computes
    with the field before the first save: the loop guard and the status
    tests of [addOrder] are false for [undefined] and, with a quantity of
    at least 1 as the DTO requires, for [0]; the quantity of a trade would
    be [NaN], in a trade that is rejected for its missing [buyOrderId]
    whatever its quantity; the save stores the column default [0]. *)
Definition newOrder (user : nat) (sd : Side) (ty : OrderType)
    (p : jsval) (qty : Z) : Order.t :=
  Order.mk None user 1 sd ty p qty 0 OPEN None.

(** S1: SELL LIMIT 100 @ 98 by user 1. *)
Definition S1 : Order.t := newOrder 1 SELL LIMIT (VNum 98) 100.
(** B1: BUY LIMIT 150 @ 99 by user 2. *)
Definition B1 : Order.t := newOrder 2 BUY LIMIT (VNum 99) 150.
(** S2: SELL MARKET 50 by user 3. *)
Definition S2 : Order.t := newOrder 3 SELL MARKET VUndefined 50.

(** The database after S1 (time 1), then after B1 (time 2). *)
Definition afterS1 : DB := fst (addOrder 1 S1 db0).
Definition afterB1 : DB := fst (addOrder 2 B1 afterS1).

(** A buy order for exactly the units of S1. *)
Definition B100 : Order.t := newOrder 2 BUY LIMIT (VNum 98) 100.
Definition afterB100 : DB := fst (addOrder 2 B100 afterS1).

(** MARKET buy orders. *)
Definition M100 : Order.t := newOrder 3 BUY MARKET VUndefined 100.


End Scenario.

(** ** Further example states *)

Module Examples.
Import Scenario.

(** The resting order S1 as it is stored. *)
Definition S1row : Order.t :=
  Order.mk (Some 1%nat) 1 1 SELL LIMIT (VNum 98) 100 0 OPEN (Some 1).

(** A bid of user 2 stored OPEN beside S1 although the two cross, as
    orders that are saved without matching (the quotes of the market
    maker are) leave the table. *)
Definition B1row : Order.t :=
  Order.mk (Some 2%nat) 2 1 BUY LIMIT (VNum 99) 150 0 OPEN (Some 2).
Definition crossed : DB :=
  mkDB [S1row; B1row] [] (positions db0) (portfolios db0).

(** [addOrder] on the order object that carries the key of that bid: it
    buys the 100 units of S1. *)
Definition afterCross : DB := fst (addOrder 3 B1row crossed).
Definition B1partial : Order.t :=
  Order.mk (Some 2%nat) 2 1 BUY LIMIT (VNum 99) 150 100 PARTIAL (Some 2).
Definition trade1 : Trade.t :=
  Trade.mk (Some 1%nat) (Some 2%nat) (Some 1%nat) 1 (VNum 98) 100.

(** The same with orders, a trade and positions of bond 2 beside. *)
Definition twoBonds : DB :=
  mkDB [ S1row; B1row;
         Order.mk (Some 3%nat) 3 2 SELL LIMIT (VNum 50) 10 0 OPEN (Some 3);
         Order.mk (Some 4%nat) 2 2 BUY LIMIT (VNum 51) 5 5 EXECUTED (Some 4) ]
       [ Trade.mk (Some 1%nat) (Some 4%nat) (Some 3%nat) 2 (VNum 51) 5 ]
       (positions db0 ++
        [ Position.mk (Some 3%nat) 3 2 10 (Num 50);
          Position.mk (Some 4%nat) 2 2 5 (Num 51) ])
       (portfolios db0).


(** A stored order that is partly filled. *)
Definition dbPartial : DB :=
  mkDB [B1partial] [] (positions db0) (portfolios db0).

(** A second, cheaper ask of user 3 beside S1. *)
Definition S97 : Order.t := newOrder 3 SELL LIMIT (VNum 97) 50.
Definition twoAsks : DB := fst (addOrder 2 S97 afterS1).

(** A SELL order of user 2, who holds nothing. *)
Definition shortSell : Order.t := newOrder 2 SELL LIMIT (VNum 98) 10.

(** An ask stored for user 9, who has no portfolio, beside a stored bid
    of user 2 that crosses it. *)
Definition orphanBid : Order.t :=
  Order.mk (Some 2%nat) 2 1 BUY LIMIT (VNum 98) 100 0 OPEN (Some 2).
Definition dbOrphan : DB :=
  mkDB [ Order.mk (Some 1%nat) 9 1 SELL LIMIT (VNum 98) 100 0 OPEN (Some 1);
         orphanBid ]
       [] [] [ Portfolio.mk 2 2 (Num 20000) ].

(** The bonds table with bond 1 last traded at 101. *)
Import Stdlib.Strings.String.
Definition bonds1 : list Bond.t :=
  [ Bond.mk 1 "GOI 2033"%string (VNum 101) ].

End Examples.

(** * General facts about the repositories *)

Section SortFacts.
Context {T : Type}.

Lemma In_insertBy (leb : T -> T -> bool) (x y : T) (l : list T) :
  In x (insertBy leb y l) <-> x = y \/ In x l.
Proof.
  induction l as [|z l IH]; simpl.
  - intuition.
  - destruct (leb y z); simpl; rewrite ?IH; intuition.
Qed.

Lemma In_sortBy (leb : T -> T -> bool) (x : T) (l : list T) :
  In x (sortBy leb l) <-> In x l.
Proof.
  induction l as [|z l IH]; simpl.
  - reflexivity.
  - unfold sortBy in *. simpl. rewrite In_insertBy, IH. intuition.
Qed.

Lemma findOne_In (p : T -> bool) (rows : list T) (x : T) :
  findOne p rows = Some x -> In x rows /\ p x = true.
Proof. apply find_some. Qed.

End SortFacts.

(** * Facts about the service *)

Lemma createTrade_eq (b s : Order.t) :
  createTrade b s =
  Trade.mk None (Order.id b) (Order.id s) (Order.bondId b)
    (tradePriceOf b s) (tradeQtyOf b s).
Proof. reflexivity. Qed.

Lemma saveTrade_eq (x : Trade.t) (d : DB) :
  saveTrade x d =
  if tradeAccepted x d
  then (set_trades (snd (save Trade.id Trade.set_id x (trades d))) d,
        Ok (fst (save Trade.id Trade.set_id x (trades d))))
  else (d, Err QueryFailedError).
Proof.
  unfold saveTrade. destruct (tradeAccepted x d); [|reflexivity].
  destruct (save Trade.id Trade.set_id x (trades d)); reflexivity.
Qed.

(** The trade of an order without a primary key is rejected. *)
Lemma tradeAccepted_new (b s : Order.t) (d : DB) :
  Order.id b = None -> tradeAccepted (createTrade b s) d = false.
Proof.
  intros H. unfold tradeAccepted. rewrite createTrade_eq. simpl.
  rewrite H. reflexivity.
Qed.

Lemma tradeAccepted_inv (x : Trade.t) (d : DB) :
  tradeAccepted x d = true ->
  (exists i, Trade.buyOrderId x = Some i /\ existsb (hasId Order.id i) (orders d) = true) /\
  (exists j, Trade.sellOrderId x = Some j /\ existsb (hasId Order.id j) (orders d) = true) /\
  (exists p, Trade.pricePerUnit x = VNum p).
Proof.
  unfold tradeAccepted, references. rewrite !andb_true_iff.
  intros [[Hb Hs] Hp].
  destruct (Trade.buyOrderId x) as [i|]; [|discriminate].
  destruct (Trade.sellOrderId x) as [j|]; [|discriminate].
  destruct (Trade.pricePerUnit x) as [p| |]; try discriminate.
  eauto 10.
Qed.

Lemma save_fields (x : Trade.t) (rows : list Trade.t) :
  let x' := fst (save Trade.id Trade.set_id x rows) in
  Trade.buyOrderId x' = Trade.buyOrderId x /\
  Trade.sellOrderId x' = Trade.sellOrderId x /\
  Trade.bondId x' = Trade.bondId x /\
  Trade.pricePerUnit x' = Trade.pricePerUnit x /\
  Trade.qtyUnits x' = Trade.qtyUnits x.
Proof.
  unfold save. destruct (Trade.id x) as [i|].
  - destruct (existsb _ rows); simpl; auto.
  - simpl; auto.
Qed.

(** [executeTrade] as the steps it performs on the database. *)
Lemma executeTrade_eq (b s : Order.t) (d : DB) :
  executeTrade b s d =
  if tradeAccepted (createTrade b s) d
  then
    let b1 := Order.set_qtyFilledUnits (Order.qtyFilledUnits b + tradeQtyOf b s) b in
    let s1 := Order.set_qtyFilledUnits (Order.qtyFilledUnits s + tradeQtyOf b s) s in
    let d1 :=
      set_trades (snd (save Trade.id Trade.set_id (createTrade b s) (trades d))) d in
    match (updatePositions b1 s1 (tradePriceOf b s) (tradeQtyOf b s) ;;;
           updatePortfolios b1 s1 (tradePriceOf b s) (tradeQtyOf b s)) d1 with
    | (d2, Ok _) =>
        (d2, (b1, s1), Ok (fst (save Trade.id Trade.set_id (createTrade b s) (trades d))))
    | (d2, Err e) => (d2, (b1, s1), Err e)
    end
  else (d, (b, s), Err QueryFailedError).
Proof.
  unfold executeTrade. cbv zeta. rewrite saveTrade_eq.
  destruct (tradeAccepted (createTrade b s) d); reflexivity.
Qed.

(** The trade of an incoming order that has no primary key yet is
    rejected: nothing is stored and neither order object is touched. *)
Lemma executeTrade_new (b s : Order.t) (d : DB) :
  Order.id b = None ->
  executeTrade b s d = (d, (b, s), Err QueryFailedError).
Proof.
  intros H. rewrite executeTrade_eq, (tradeAccepted_new b s d H). reflexivity.
Qed.

Lemma executeTrade_filled (b s : Order.t) (d d1 : DB) (b1 s1 : Order.t)
    (r : result Trade.t) :
  executeTrade b s d = (d1, (b1, s1), r) -> filledFrom b b1.
Proof.
  rewrite executeTrade_eq.
  destruct (tradeAccepted (createTrade b s) d).
  - cbv zeta.
    match goal with |- context [bind ?m ?k ?d] => destruct (bind m k d) as [d2 [u|e]] end;
      intros H; inversion H; reflexivity.
  - intros H; inversion H; subst. destruct b1; reflexivity.
Qed.

Lemma executeTrade_objects (b s : Order.t) (d d1 : DB) (b1 s1 : Order.t)
    (t : Trade.t) :
  executeTrade b s d = (d1, (b1, s1), Ok t) ->
  b1 = Order.set_qtyFilledUnits (Order.qtyFilledUnits b + tradeQtyOf b s) b.
Proof.
  rewrite executeTrade_eq.
  destruct (tradeAccepted (createTrade b s) d); [|discriminate].
  cbv zeta.
  match goal with |- context [bind ?m ?k ?d] => destruct (bind m k d) as [d2 [u|e]] end;
    intros H; inversion H; reflexivity.
Qed.

Lemma executeTrade_trade (b s : Order.t) (d d1 : DB) (b1 s1 : Order.t)
    (t : Trade.t) :
  executeTrade b s d = (d1, (b1, s1), Ok t) ->
  Trade.buyOrderId t = Order.id b /\
  Trade.sellOrderId t = Order.id s /\
  Trade.bondId t = Order.bondId b /\
  Trade.pricePerUnit t = tradePriceOf b s /\
  Trade.qtyUnits t = tradeQtyOf b s.
Proof.
  rewrite executeTrade_eq.
  destruct (tradeAccepted (createTrade b s) d); [|discriminate].
  cbv zeta.
  match goal with |- context [bind ?m ?k ?d] => destruct (bind m k d) as [d2 [u|e]] end;
    intros H; inversion H; subst.
  apply (save_fields (createTrade b s) (trades d)).
Qed.

(** A trade that was stored names two stored orders and has a price. *)
Lemma executeTrade_accepted (b s : Order.t) (d d1 : DB) (oo : Order.t * Order.t)
    (t : Trade.t) :
  executeTrade b s d = (d1, oo, Ok t) ->
  tradeAccepted (createTrade b s) d = true.
Proof.
  rewrite executeTrade_eq.
  destruct (tradeAccepted (createTrade b s) d); [reflexivity|discriminate].
Qed.

Lemma filledFrom_refl (o : Order.t) : filledFrom o o.
Proof. destruct o; reflexivity. Qed.

Lemma matchLoop_order (opps : list Order.t) :
  forall order ts d d' o' r,
    matchLoop order opps ts d = (d', o', r) -> filledFrom order o'.
Proof.
  induction opps as [|R rest IH]; simpl; intros order ts d d' o' r H.
  - inversion H; subst. apply filledFrom_refl.
  - destruct (Order.qtyFilledUnits order >=? Order.qtyUnits order).
    { inversion H; subst. apply filledFrom_refl. }
    destruct (Order.qtyFilledUnits R >=? Order.qtyUnits R).
    { eapply IH; eauto. }
    destruct (canMatch order R).
    + destruct (executeTrade order R d) as [[d1 [o1 R1]] [t|e]] eqn:E;
        apply executeTrade_filled in E.
      * apply IH in H. unfold filledFrom in *. rewrite H. rewrite E. reflexivity.
      * inversion H; subst. exact E.
    + eapply IH; eauto.
Qed.

(** Every trade the loop adds was made with one of the orders it was
    given, the incoming order in the first argument of [executeTrade]. *)
Lemma matchLoop_trades (opps : list Order.t) :
  forall order ts d d' o' ts',
    matchLoop order opps ts d = (d', o', Ok ts') ->
    exists new,
      ts' = ts ++ new /\
      forall t, In t new ->
        exists R, In R opps /\
          Trade.buyOrderId t = Order.id order /\
          Trade.sellOrderId t = Order.id R /\
          Trade.pricePerUnit t = tradePriceOf order R /\
          0 < Trade.qtyUnits t.
Proof.
  induction opps as [|R rest IH]; simpl; intros order ts d d' o' ts' H.
  - inversion H; subst. exists []. rewrite app_nil_r. split; [reflexivity|].
    intros t [].
  - destruct (Order.qtyFilledUnits order >=? Order.qtyUnits order) eqn:Efull.
    { inversion H; subst. exists []. rewrite app_nil_r. split; [reflexivity|].
      intros t []. }
    destruct (Order.qtyFilledUnits R >=? Order.qtyUnits R) eqn:ERfull.
    { apply IH in H. destruct H as [new [-> Hnew]]. exists new.
      split; [reflexivity|]. intros t Ht.
      destruct (Hnew t Ht) as [R' [? ?]]. exists R'. auto. }
    destruct (canMatch order R).
    + destruct (executeTrade order R d) as [[d1 [o1 R1]] [t0|e]] eqn:E;
        [|discriminate].
      pose proof (executeTrade_objects _ _ _ _ _ _ _ E) as Ho1.
      pose proof (executeTrade_trade _ _ _ _ _ _ _ E) as (Hb & Hs & _ & Hp & Hq).
      apply IH in H. destruct H as [new [-> Hnew]].
      exists (t0 :: new). split.
      { rewrite <- app_assoc. reflexivity. }
      intros t [<-|Ht].
      * exists R. repeat split; auto.
        rewrite Hq. unfold tradeQtyOf. lia.
      * destruct (Hnew t Ht) as [R' (HR' & Hb' & Hs' & Hp' & Hq')].
        exists R'. rewrite Ho1 in Hb', Hp'. repeat split; auto.
    + apply IH in H. destruct H as [new [-> Hnew]]. exists new.
      split; [reflexivity|]. intros t Ht.
      destruct (Hnew t Ht) as [R' [? ?]]. exists R'. auto.
Qed.

Lemma findOpenOrders_In (bond : nat) (sd : Side) (d : DB) (R : Order.t) :
  In R (findOpenOrders bond sd d) <->
  In R (orders d) /\ Order.bondId R = bond /\ Order.side R = sd
  /\ Order.status R = OPEN.
Proof.
  unfold findOpenOrders. rewrite In_sortBy, filter_In.
  rewrite !andb_true_iff, Nat.eqb_eq.
  assert (Hs : Side_eqb (Order.side R) sd = true <-> Order.side R = sd)
    by (destruct (Order.side R), sd; simpl; split; congruence).
  assert (Ht : Status_eqb (Order.status R) OPEN = true <-> Order.status R = OPEN)
    by (destruct (Order.status R); simpl; split; congruence).
  rewrite Hs, Ht. tauto.
Qed.

Lemma validateOrder_db (order : Order.t) (d d' : DB) (r : result unit) :
  validateOrder order d = (d', r) -> d' = d.
Proof.
  unfold validateOrder, findPortfolio, findPositionOfUser, bind, gets, deref,
    throw, ret.
  destruct (Order.side order).
  - destruct (findOne _ (portfolios d)); [|congruence].
    destruct (lt _ _); congruence.
  - destruct (findOne _ (positions d)); [|congruence].
    destruct (_ <? _); congruence.
Qed.

Lemma saveOrder_ok (now : Z) (o : Order.t) (d : DB) :
  exists d' o', saveOrder now o d = (d', Ok o').
Proof. unfold saveOrder. eauto. Qed.

(** A normal return of [addOrder]: validation passed, the loop ended
    normally and the order was saved with the status computed from it. *)
Lemma addOrder_ok_inv (now : Z) (order : Order.t) (d d' : DB)
    (o' : Order.t) (ts : list Trade.t) :
  addOrder now order d = (d', Ok (o', ts)) ->
  exists d2 o2,
    validateOrder order d = (d, Ok tt) /\
    matchOrder order d = (d2, o2, Ok ts) /\
    saveOrder now (Order.set_status (statusAfterMatch o2) o2) d2 = (d', Ok o').
Proof.
  unfold addOrder.
  destruct (validateOrder order d) as [d1 [[]|e]] eqn:Ev.
  2:{ simpl. intros H; inversion H. }
  pose proof (validateOrder_db _ _ _ _ Ev) as ->.
  destruct (matchOrder order d) as [[d2 o2] [ts2|e]] eqn:Em.
  2:{ simpl. intros H; inversion H. }
  destruct (saveOrder_ok now (Order.set_status (statusAfterMatch o2) o2) d2)
    as [d3 [o4 Es]].
  rewrite Es. simpl. intros H; inversion H; subst.
  exists d2, o2. auto.
Qed.

(** ** The two settlement steps as plain functions of the tables *)

Lemma savePosition_eq (x : Position.t) (d : DB) :
  savePosition x d =
  (set_positions (snd (save Position.id Position.set_id x (positions d))) d,
   Ok (fst (save Position.id Position.set_id x (positions d)))).
Proof.
  unfold savePosition.
  destruct (save Position.id Position.set_id x (positions d)); reflexivity.
Qed.

Lemma savePortfolio_eq (x : Portfolio.t) (d : DB) :
  savePortfolio x d =
  let row := Portfolio.set_cashBalance (toDecimal (Portfolio.cashBalance x)) x in
  (set_portfolios (snd (save portfolioKey portfolioSetKey row (portfolios d))) d,
   Ok (fst (save portfolioKey portfolioSetKey row (portfolios d)))).
Proof.
  unfold savePortfolio. cbv zeta.
  destruct (save portfolioKey portfolioSetKey _ (portfolios d)); reflexivity.
Qed.

Lemma findPortfolio_eq (u : nat) (d : DB) :
  findPortfolio u d = (d, Ok (portfolioOf u d)).
Proof. reflexivity. Qed.

Lemma findPosition_eq (pid bond : nat) (d : DB) :
  findPosition pid bond d = (d, Ok (positionOf pid bond d)).
Proof. reflexivity. Qed.

Lemma updatePositions_eq (b s : Order.t) (p : jsval) (q : Z) (d : DB) :
  updatePositions b s p q d =
  match portfolioOf (Order.userId b) d with
  | None => (d, Err TypeError)
  | Some bp =>
      let rows1 :=
        snd (save Position.id Position.set_id
               (boughtPosition (Portfolio.id bp) (Order.bondId b)
                  (positionOf (Portfolio.id bp) (Order.bondId b) d) p q)
               (positions d)) in
      match portfolioOf (Order.userId s) d with
      | None => (set_positions rows1 d, Err TypeError)
      | Some sp =>
          (set_positions
             (soldPositions
                (positionOf (Portfolio.id sp) (Order.bondId s)
                   (set_positions rows1 d)) q rows1) d,
           Ok tt)
      end
  end.
Proof.
  unfold updatePositions, bind.
  rewrite findPortfolio_eq.
  destruct (portfolioOf (Order.userId b) d) as [bp|]; [|reflexivity].
  cbn [deref ret]. rewrite findPosition_eq.
  fold (boughtPosition (Portfolio.id bp) (Order.bondId b)
          (positionOf (Portfolio.id bp) (Order.bondId b) d) p q).
  rewrite savePosition_eq, findPortfolio_eq.
  change (portfolioOf (Order.userId s) (set_positions ?r d))
    with (portfolioOf (Order.userId s) d).
  destruct (portfolioOf (Order.userId s) d) as [sp|]; [|reflexivity].
  cbn [deref ret]. rewrite findPosition_eq.
  cbv zeta.
  destruct (positionOf (Portfolio.id sp) (Order.bondId s) _) as [spos|];
    [|destruct d; reflexivity].
  unfold soldPositions. cbn [Position.qtyUnits Position.set_qtyUnits].
  destruct (Position.qtyUnits spos - q <=? 0).
  - destruct d; reflexivity.
  - rewrite savePosition_eq. destruct d; reflexivity.
Qed.

Lemma creditPortfolio_eq (x : Portfolio.t) (amount : jsnum) (d : DB) :
  creditPortfolio x amount d =
  match creditedCash (Portfolio.cashBalance x) amount with
  | Some v =>
      (set_portfolios
         (snd (save portfolioKey portfolioSetKey
                 (Portfolio.set_cashBalance (Num (round2 v)) x) (portfolios d))) d,
       Ok (fst (save portfolioKey portfolioSetKey
                  (Portfolio.set_cashBalance (Num (round2 v)) x) (portfolios d))))
  | None => (d, Err QueryFailedError)
  end.
Proof.
  unfold creditPortfolio, creditedCash.
  destruct (Portfolio.cashBalance x) as [cash|]; [|reflexivity].
  destruct (appendAmount cash amount) as [v|]; [|reflexivity].
  rewrite savePortfolio_eq. reflexivity.
Qed.

Lemma updatePortfolios_eq (b s : Order.t) (p : jsval) (q : Z) (d : DB) :
  updatePortfolios b s p q d =
  let amount := mul (toNumber p) (ofZ q) in
  match portfolioOf (Order.userId b) d with
  | None => (d, Err TypeError)
  | Some bp =>
      let rows1 :=
        snd (save portfolioKey portfolioSetKey
               (Portfolio.set_cashBalance
                  (toDecimal (sub (Portfolio.cashBalance bp) amount)) bp)
               (portfolios d)) in
      match findOne (fun x => Nat.eqb (Portfolio.userId x) (Order.userId s)) rows1 with
      | None => (set_portfolios rows1 d, Err TypeError)
      | Some sp =>
          match creditedCash (Portfolio.cashBalance sp) amount with
          | Some v =>
              (set_portfolios
                 (snd (save portfolioKey portfolioSetKey
                         (Portfolio.set_cashBalance (Num (round2 v)) sp) rows1)) d,
               Ok tt)
          | None => (set_portfolios rows1 d, Err QueryFailedError)
          end
      end
  end.
Proof.
  unfold updatePortfolios, bind. cbv zeta.
  rewrite findPortfolio_eq.
  destruct (portfolioOf (Order.userId b) d) as [bp|]; [|reflexivity].
  cbn [deref ret]. rewrite savePortfolio_eq. cbv zeta.
  cbn [Portfolio.cashBalance Portfolio.set_cashBalance Portfolio.id Portfolio.userId].
  unfold findPortfolio, gets. cbn [portfolios set_portfolios].
  destruct (findOne _ _) as [sp|]; [|reflexivity].
  cbn [deref ret]. rewrite creditPortfolio_eq.
  cbn [portfolios set_portfolios].
  destruct (creditedCash (Portfolio.cashBalance sp) (mul (toNumber p) (ofZ q)));
    destruct d; reflexivity.
Qed.

(** ** What matching leaves untouched *)

Lemma updatePositions_frame (b s : Order.t) (p : jsval) (q : Z)
    (d d' : DB) (r : result unit) :
  updatePositions b s p q d = (d', r) ->
  orders d' = orders d /\ trades d' = trades d /\ portfolios d' = portfolios d.
Proof.
  rewrite updatePositions_eq.
  destruct (portfolioOf (Order.userId b) d).
  - cbv zeta. destruct (portfolioOf (Order.userId s) d);
      intros H; inversion H; subst; auto.
  - intros H; inversion H; subst; auto.
Qed.

Lemma updatePortfolios_frame (b s : Order.t) (p : jsval) (q : Z)
    (d d' : DB) (r : result unit) :
  updatePortfolios b s p q d = (d', r) ->
  orders d' = orders d /\ trades d' = trades d /\ positions d' = positions d.
Proof.
  rewrite updatePortfolios_eq. cbv zeta.
  destruct (portfolioOf (Order.userId b) d).
  - destruct (findOne _ _); [destruct (creditedCash _ _)|];
      intros H; inversion H; subst; auto.
  - intros H; inversion H; subst; auto.
Qed.

(** A call of [executeTrade]: either the trade is rejected and nothing
    happens, or it is stored and the two settlement steps follow. *)
Lemma executeTrade_steps (b s : Order.t) (d d' : DB) (oo : Order.t * Order.t)
    (r : result Trade.t) :
  executeTrade b s d = (d', oo, r) ->
  (tradeAccepted (createTrade b s) d = false /\ d' = d /\ r = Err QueryFailedError)
  \/
  (tradeAccepted (createTrade b s) d = true /\
   let b1 := Order.set_qtyFilledUnits (Order.qtyFilledUnits b + tradeQtyOf b s) b in
   let s1 := Order.set_qtyFilledUnits (Order.qtyFilledUnits s + tradeQtyOf b s) s in
   let d1 :=
     set_trades
       (snd (save Trade.id Trade.set_id (createTrade b s) (trades d))) d in
   exists d2 r2,
     updatePositions b1 s1 (tradePriceOf b s) (tradeQtyOf b s) d1 = (d2, r2) /\
     match r2 with
     | Ok _ =>
         exists r3,
           updatePortfolios b1 s1 (tradePriceOf b s) (tradeQtyOf b s) d2 = (d', r3)
           /\ match r3, r with
              | Ok _, Ok _ => True
              | Err e, Err e' => e = e'
              | _, _ => False
              end
     | Err e => d' = d2 /\ r = Err e
     end).
Proof.
  rewrite executeTrade_eq.
  destruct (tradeAccepted (createTrade b s) d).
  2:{ intros H; inversion H; subst. left. auto. }
  intros H. right. split; [reflexivity|]. revert H.
  cbv zeta. unfold bind at 1.
  match goal with |- context [updatePositions ?b1 ?s1 ?p ?q ?d1] =>
    destruct (updatePositions b1 s1 p q d1) as [d2 [[]|e]] eqn:E2 end.
  - match goal with |- context [updatePortfolios ?b1 ?s1 ?p ?q ?d1] =>
      destruct (updatePortfolios b1 s1 p q d1) as [d3 [[]|e]] eqn:E3 end;
      intros H; exists d2, (Ok tt); (split; [reflexivity|]);
      inversion H; subst; eexists; (split; [exact E3|]); cbv beta iota; auto.
  - intros H; exists d2, (Err e); (split; [reflexivity|]).
    inversion H; subst. auto.
Qed.

Lemma executeTrade_frame (b s : Order.t) (d d' : DB) (oo : Order.t * Order.t)
    (r : result Trade.t) :
  executeTrade b s d = (d', oo, r) -> orders d' = orders d.
Proof.
  intros H. apply executeTrade_steps in H.
  destruct H as [(_ & -> & _)|(_ & H)]; [reflexivity|]. cbv zeta in H.
  destruct H as (d2 & r2 & H2 & H3).
  apply updatePositions_frame in H2. destruct H2 as (Ho & _).
  destruct r2 as [[]|e].
  - destruct H3 as (r3 & H3 & _). apply updatePortfolios_frame in H3.
    destruct H3 as (Ho3 & _). rewrite Ho3, Ho. reflexivity.
  - destruct H3 as [-> _]. rewrite Ho. reflexivity.
Qed.

Lemma matchLoop_frame (opps : list Order.t) :
  forall order ts d d' o' r,
    matchLoop order opps ts d = (d', o', r) -> orders d' = orders d.
Proof.
  induction opps as [|R rest IH]; simpl; intros order ts d d' o' r H.
  - inversion H; reflexivity.
  - destruct (Order.qtyFilledUnits order >=? Order.qtyUnits order).
    { inversion H; reflexivity. }
    destruct (Order.qtyFilledUnits R >=? Order.qtyUnits R).
    { eapply IH; eauto. }
    destruct (canMatch order R); [|eapply IH; eauto].
    destruct (executeTrade order R d) as [[d1 [o1 R1]] [t|e]] eqn:E;
      apply executeTrade_frame in E.
    + apply IH in H. congruence.
    + inversion H; subst. assumption.
Qed.

(** ** Saving the order *)

Lemma toRow_fields (o : Order.t) :
  Order.id (toRow o) = Order.id o /\
  Order.userId (toRow o) = Order.userId o /\
  Order.status (toRow o) = Order.status o /\
  Order.qtyUnits (toRow o) = Order.qtyUnits o /\
  Order.qtyFilledUnits (toRow o) = Order.qtyFilledUnits o.
Proof. unfold toRow. destruct (Order.priceLimit o); auto. Qed.

Lemma saveOrder_inv (now : Z) (o : Order.t) (d d' : DB) (o' : Order.t) :
  saveOrder now o d = (d', Ok o') ->
  Order.status o' = Order.status o /\
  Order.orderType o' = Order.orderType o /\
  Order.qtyUnits o' = Order.qtyUnits o /\
  Order.qtyFilledUnits o' = Order.qtyFilledUnits o /\
  trades d' = trades d /\ positions d' = positions d /\
  portfolios d' = portfolios d /\
  (exists i, Order.id o' = Some i) /\
  In (toRow o') (orders d') /\
  (forall x, In x (orders d') -> x = toRow o' \/ In x (orders d)) /\
  (forall x, In x (orders d') -> Order.id x = Order.id o' -> x = toRow o').
Proof.
  unfold saveOrder. cbv zeta.
  set (o1 := if isStored o (orders d) then o else stamp now o).
  set (o2 := match Order.id o1 with
             | Some _ => o1
             | None => Order.set_id (Some (nextId Order.id (orders d))) o1
             end).
  intros H. inversion H as [[Hd Ho]]. clear H Hd.
  cbn [orders trades positions portfolios set_orders].
  assert (F1 : Order.status o1 = Order.status o /\
               Order.orderType o1 = Order.orderType o /\
               Order.qtyUnits o1 = Order.qtyUnits o /\
               Order.qtyFilledUnits o1 = Order.qtyFilledUnits o).
  { unfold o1, stamp. destruct (isStored o (orders d)); auto.
    destruct (Order.createdAt o); auto. }
  assert (Hid : exists i, Order.id o' = Some i).
  { rewrite <- Ho. unfold o2. destruct (Order.id o1) eqn:E; eauto. simpl. eauto. }
  assert (F' : Order.status o' = Order.status o1 /\
               Order.orderType o' = Order.orderType o1 /\
               Order.qtyUnits o' = Order.qtyUnits o1 /\
               Order.qtyFilledUnits o' = Order.qtyFilledUnits o1).
  { rewrite <- Ho. unfold o2. destruct (Order.id o1); simpl; auto. }
  destruct F1 as (F1 & F2 & F3 & F4). destruct F' as (G1 & G2 & G3 & G4).
  repeat (split; [solve [congruence]|]).
  rewrite <- Ho in Hid.
  split; [exact Hid|].
  destruct Hid as [i Hi].
  clear Ho F1 F2 F3 F4 G1 G2 G3 G4. clearbody o2. clear o1.
  destruct (toRow_fields o2) as (Ti & _).
  unfold save. rewrite Ti, Hi.
  destruct (existsb (hasId Order.id i) (orders d)) eqn:Ex; cbn [snd].
  - unfold update. repeat split.
    + apply existsb_exists in Ex. destruct Ex as [y [Hy Hy']].
      apply in_map_iff. exists y. rewrite Hy'. auto.
    + intros x Hx. apply in_map_iff in Hx. destruct Hx as [y [<- Hy]].
      destruct (hasId Order.id i y); auto.
    + intros x Hx Hxi. apply in_map_iff in Hx. destruct Hx as [y [<- Hy]].
      destruct (hasId Order.id i y) eqn:Ey; auto.
      unfold hasId in Ey. rewrite Hxi, Nat.eqb_refl in Ey. discriminate.
  - repeat split.
    + apply in_or_app. right. left. reflexivity.
    + intros x Hx. apply in_app_or in Hx. destruct Hx as [Hx|[<-|[]]]; auto.
    + intros x Hx Hxi. apply in_app_or in Hx. destruct Hx as [Hx|[<-|[]]]; auto.
      assert (existsb (hasId Order.id i) (orders d) = true).
      { apply existsb_exists. exists x. split; auto.
        unfold hasId. rewrite Hxi, Nat.eqb_refl. reflexivity. }
      congruence.
Qed.

(** ** The order book view lists the OPEN orders *)

Lemma addToLevels_In (o x : Order.t) (levels : list OrderBookLevel) :
  In x (flat_map levelOrders (addToLevels o levels)) <->
  x = o \/ In x (flat_map levelOrders levels).
Proof.
  induction levels as [|l rest IH]; simpl.
  - intuition.
  - destruct (sameValueZero (price l) (Order.priceLimit o)); simpl;
      rewrite !in_app_iff; [simpl | rewrite IH]; intuition.
Qed.

Lemma groupLevels_In (os : list Order.t) :
  forall (acc : list OrderBookLevel) (x : Order.t),
    In x (flat_map levelOrders (fold_left (fun acc o => addToLevels o acc) os acc))
    <-> In x os \/ In x (flat_map levelOrders acc).
Proof.
  induction os as [|o os IH]; simpl; intros acc x.
  - intuition.
  - rewrite IH, addToLevels_In. intuition.
Qed.

Lemma bookOrders_In (bond : nat) (sd : Side) (d : DB) (x : Order.t) :
  In x (bookOrders bond sd d) <-> In x (findOpenOrders bond sd d).
Proof.
  unfold bookOrders, getOrderBookSide.
  assert (H : forall l : list OrderBookLevel,
             In x (flat_map levelOrders (sortBy (level_leb sd) l))
             <-> In x (flat_map levelOrders l)).
  { intros l. rewrite !in_flat_map. split; intros [lvl [H1 H2]]; exists lvl;
      (split; [apply (In_sortBy (level_leb sd)); exact H1 | exact H2]). }
  rewrite H, groupLevels_In. simpl. tauto.
Qed.

Lemma filledFrom_fields (o o' : Order.t) :
  filledFrom o o' ->
  Order.id o' = Order.id o /\ Order.userId o' = Order.userId o /\
  Order.bondId o' = Order.bondId o /\ Order.side o' = Order.side o /\
  Order.orderType o' = Order.orderType o /\
  Order.priceLimit o' = Order.priceLimit o /\
  Order.qtyUnits o' = Order.qtyUnits o /\
  Order.createdAt o' = Order.createdAt o.
Proof. unfold filledFrom. intros ->. simpl. repeat split. Qed.

(** ** Cancellation *)

Lemma find_update_hit {T : Type} (getId : T -> option nat) (p : T -> bool)
    (i : nat) (r x : T) (rows : list T) :
  find p rows = Some x -> hasId getId i x = true -> p r = true ->
  find p (update getId i r rows) = Some r.
Proof.
  intros Hf Hx Hr. induction rows as [|y rows IH]; simpl in *; [discriminate|].
  destruct (hasId getId i y) eqn:Ey.
  - rewrite Hr. reflexivity.
  - destruct (p y) eqn:Ep.
    + inversion Hf; subst. congruence.
    + auto.
Qed.

Lemma cancelOrder_eq (now : Z) (orderId userId : nat) (d : DB) :
  cancelOrder now orderId userId d =
  match ownedOrder orderId userId d with
  | None => (d, Ok false)
  | Some o =>
      if Status_eqb (Order.status o) OPEN
      then (set_orders
              (update Order.id orderId (toRow (Order.set_status CANCELLED o))
                 (orders d)) d, Ok true)
      else (d, Ok false)
  end.
Proof.
  unfold cancelOrder, ownedOrder, bind, gets.
  destruct (findOne _ (orders d)) as [o|] eqn:E; [|reflexivity].
  destruct (Status_eqb (Order.status o) OPEN); [|reflexivity].
  cbn [negb]. unfold saveOrder, ret.
  apply findOne_In in E. destruct E as [Hin Hp].
  apply andb_true_iff in Hp. destruct Hp as [Hid _].
  assert (Hst : isStored (Order.set_status CANCELLED o) (orders d) = true).
  { unfold isStored. unfold hasId in Hid. cbn [Order.id Order.set_status].
    destruct (Order.id o) as [j|] eqn:Ej; [|discriminate].
    apply existsb_exists. exists o. split; auto.
    unfold hasId. rewrite Ej. apply Nat.eqb_refl. }
  rewrite Hst. cbv zeta.
  unfold hasId in Hid.
  destruct (Order.id o) as [j|] eqn:Ej; [|discriminate].
  apply Nat.eqb_eq in Hid. subst j.
  cbn [Order.id Order.set_status]. rewrite Ej.
  unfold save. destruct (toRow_fields (Order.set_status CANCELLED o)) as (Ti & _).
  rewrite Ti. cbn [Order.id Order.set_status]. rewrite Ej.
  unfold isStored in Hst. cbn [Order.id Order.set_status] in Hst.
  rewrite Ej in Hst. rewrite Hst. reflexivity.
Qed.

Lemma cancelRepeatedly_refused (now : Z) (orderId userId : nat) (d : DB) :
  cancelOrder now orderId userId d = (d, Ok false) ->
  forall n, cancelRepeatedly n now orderId userId d = (d, repeat (Ok false) n).
Proof.
  intros H n. induction n as [|n IH]; simpl.
  - reflexivity.
  - rewrite H, IH. reflexivity.
Qed.

Lemma Status_eqb_eq (a b : Status) : Status_eqb a b = true <-> a = b.
Proof. destruct a, b; simpl; split; congruence. Qed.

(** ** Validation of a buy order without a limit price *)

Lemma mul_zero (z : Z) : mul (Num 0) (ofZ z) = Num 0.
Proof.
  reflexivity.
Qed.

Lemma matchLoop_nil (order : Order.t) (ts : list Trade.t) (d : DB) :
  matchLoop order [] ts d = (d, order, Ok ts).
Proof. reflexivity. Qed.

(** ** Lookups after an update, an insertion or a removal *)

Section FindFacts.
Context {T : Type}.
Variable getId : T -> option nat.
Variable setId : option nat -> T -> T.

Lemma find_app_last (p : T -> bool) (r : T) (rows : list T) :
  find p (rows ++ [r]) =
  match find p rows with
  | Some x => Some x
  | None => if p r then Some r else None
  end.
Proof.
  induction rows as [|y rows IH]; simpl.
  - reflexivity.
  - destruct (p y); auto.
Qed.

Lemma nextId_bound (rows : list T) (x : T) (j : nat) :
  In x rows -> getId x = Some j -> (j < nextId getId rows)%nat.
Proof.
  unfold nextId. induction rows as [|y rows IH]; simpl; [tauto|].
  intros [->|Hin] Hj.
  - rewrite Hj. lia.
  - specialize (IH Hin Hj). destruct (getId y); lia.
Qed.

Lemma nextId_fresh (rows : list T) :
  existsb (hasId getId (nextId getId rows)) rows = false.
Proof.
  destruct (existsb _ rows) eqn:E; [|reflexivity].
  apply existsb_exists in E. destruct E as [x [Hin Hx]].
  unfold hasId in Hx. destruct (getId x) as [j|] eqn:Ej; [|discriminate].
  apply Nat.eqb_eq in Hx. pose proof (nextId_bound rows x j Hin Ej). lia.
Qed.

Lemma existsb_hasId (rows : list T) (x : T) (i : nat) :
  In x rows -> getId x = Some i -> existsb (hasId getId i) rows = true.
Proof.
  intros Hin Hi. apply existsb_exists. exists x. split; [exact Hin|].
  unfold hasId. rewrite Hi. apply Nat.eqb_refl.
Qed.

(** Saving a row that carries the key of a stored row. *)
Lemma save_stored (r x : T) (i : nat) (rows : list T) :
  getId r = Some i -> In x rows -> getId x = Some i ->
  snd (save getId setId r rows) = update getId i r rows.
Proof.
  intros Hr Hin Hx. unfold save. rewrite Hr.
  rewrite (existsb_hasId rows x i Hin Hx). reflexivity.
Qed.

(** Saving a row without a key appends it under a fresh key. *)
Lemma save_new (r : T) (rows : list T) :
  getId r = None ->
  snd (save getId setId r rows) = rows ++ [setId (Some (nextId getId rows)) r].
Proof. intros Hr. unfold save. rewrite Hr. reflexivity. Qed.

End FindFacts.

Lemma NoDup_key_eq {T K : Type} (key : T -> K) (rows : list T) (x y : T) :
  NoDup (map key rows) -> In x rows -> In y rows -> key x = key y -> x = y.
Proof.
  induction rows as [|z rows IH]; simpl; [tauto|].
  intros Hnd Hx Hy Hk. inversion Hnd as [|? ? Hnotin Hnd']; subst.
  destruct Hx as [->|Hx], Hy as [->|Hy]; auto.
  - exfalso. apply Hnotin. rewrite Hk. apply in_map. exact Hy.
  - exfalso. apply Hnotin. rewrite <- Hk. apply in_map. exact Hx.
Qed.

(** ** Positions, portfolios and the outcome of [addOrder] *)

Lemma positionWhere_true (pid bond : nat) (x : Position.t) :
  positionWhere pid bond x = true <->
  Position.portfolioId x = pid /\ Position.bondId x = bond.
Proof.
  unfold positionWhere. rewrite andb_true_iff, !Nat.eqb_eq. tauto.
Qed.

Lemma boughtPosition_fields (pid bond : nat) (found : option Position.t)
    (price : jsval) (q : Z) :
  (forall x, found = Some x -> positionWhere pid bond x = true) ->
  let r := boughtPosition pid bond found price q in
  positionWhere pid bond r = true /\
  Position.id r = match found with Some x => Position.id x | None => None end.
Proof.
  intros H. unfold boughtPosition. destruct found as [x|]; cbn.
  - split; [|reflexivity]. specialize (H x eq_refl).
    unfold positionWhere in *. exact H.
  - unfold positionWhere. cbn. rewrite !Nat.eqb_refl. auto.
Qed.

(** Every outcome of [addOrder]: the database after validation and
    matching, followed by one [save] of the order object. *)
Lemma addOrder_shape (now : Z) (order : Order.t) (d d' : DB)
    (r : result (Order.t * list Trade.t)) :
  addOrder now order d = (d', r) ->
  exists d2 o2 r2 o3,
    (d2 = d \/
     (validateOrder order d = (d, Ok tt) /\ matchOrder order d = (d2, o2, r2))) /\
    d' = fst (saveOrder now o3 d2) /\
    filledFrom order o2 /\
    (o3 = Order.set_status (statusAfterMatch o2) o2 \/
     o3 = Order.set_status CANCELLED o2).
Proof.
  unfold addOrder.
  destruct (validateOrder order d) as [d1 [[]|e]] eqn:Ev;
    pose proof (validateOrder_db _ _ _ _ Ev) as ->.
  - destruct (matchOrder order d) as [[d2 o2] [ts|e]] eqn:Em.
    + destruct (saveOrder_ok now (Order.set_status (statusAfterMatch o2) o2) d2)
        as [d3 [o4 Es]].
      rewrite Es. cbv beta iota zeta. intros H; inversion H; subst.
      exists d2, o2, (Ok ts), (Order.set_status (statusAfterMatch o2) o2).
      rewrite Es. unfold matchOrder in Em. apply matchLoop_order in Em. auto.
    + cbv beta iota zeta. intros H; inversion H; subst.
      exists d2, o2, (Err e), (Order.set_status CANCELLED o2).
      unfold matchOrder in Em. pose proof (matchLoop_order _ _ _ _ _ _ _ Em).
      auto.
  - cbv beta iota zeta. intros H; inversion H; subst.
    exists d, order, (Err e), (Order.set_status CANCELLED order).
    split; [auto|]. split; [reflexivity|]. split; [apply filledFrom_refl|].
    auto.
Qed.

Lemma saveOrder_frame (now : Z) (o : Order.t) (d : DB) :
  trades (fst (saveOrder now o d)) = trades d /\
  positions (fst (saveOrder now o d)) = positions d /\
  portfolios (fst (saveOrder now o d)) = portfolios d.
Proof. unfold saveOrder. cbn. auto. Qed.

Lemma position_ids_new (r : Position.t) (rows : list Position.t) :
  NoDup (map Position.id rows) ->
  NoDup (map Position.id
           (rows ++ [Position.set_id (Some (nextId Position.id rows)) r])).
Proof.
  intros Hnd. rewrite map_app. cbn [map Position.id Position.set_id].
  apply NoDup_app; [exact Hnd | repeat constructor; intros [] |].
  intros a Ha [<-|[]].
  apply in_map_iff in Ha. destruct Ha as [x [Hx Hin]].
  pose proof (nextId_bound Position.id rows x _ Hin Hx). lia.
Qed.

(** ** Validation and the save of a new order *)

Lemma validateOrder_eq (order : Order.t) (d : DB) :
  validateOrder order d =
  (d,
   match Order.side order with
   | BUY =>
       match portfolioOf (Order.userId order) d with
       | Some p =>
           if JS.lt (Portfolio.cashBalance p)
                    (JS.mul (orZero (Order.priceLimit order))
                            (ofZ (Order.qtyUnits order)))
           then Err InsufficientCash else Ok tt
       | None => Err TypeError
       end
   | SELL =>
       match positionOfUser (Order.userId order) (Order.bondId order) d with
       | Some x =>
           if Position.qtyUnits x <? Order.qtyUnits order
           then Err InsufficientPosition else Ok tt
       | None => Err InsufficientPosition
       end
   end).
Proof.
  unfold validateOrder. destruct (Order.side order).
  - unfold bind. rewrite findPortfolio_eq.
    destruct (portfolioOf (Order.userId order) d) as [p|]; cbn; [|reflexivity].
    destruct (JS.lt _ _); reflexivity.
  - unfold bind, findPositionOfUser, gets, positionOfUser.
    destruct (findOne _ (positions d)) as [x|]; [|reflexivity].
    destruct (_ <? _); reflexivity.
Qed.

Lemma findOpenOrders_app_closed (bond : nat) (sd : Side) (d : DB)
    (row : Order.t) :
  Order.status row <> OPEN ->
  findOpenOrders bond sd (set_orders (orders d ++ [row]) d)
  = findOpenOrders bond sd d.
Proof.
  intros Hst. unfold findOpenOrders. cbn [orders set_orders].
  rewrite filter_app. cbn [filter].
  destruct (Status_eqb (Order.status row) OPEN) eqn:E.
  { apply Status_eqb_eq in E. contradiction. }
  rewrite andb_false_r, app_nil_r. reflexivity.
Qed.

Lemma saveOrder_new (now : Z) (o : Order.t) (d : DB) :
  Order.id o = None ->
  saveOrder now o d =
  (set_orders
     (orders d ++
      [toRow (Order.set_id (Some (nextId Order.id (orders d))) (stamp now o))])
     d,
   Ok (Order.set_id (Some (nextId Order.id (orders d))) (stamp now o))).
Proof.
  intros Hid. unfold saveOrder, isStored. rewrite Hid.
  assert (Hs : Order.id (stamp now o) = None).
  { unfold stamp. destruct (Order.createdAt o); [exact Hid|].
    destruct o; exact Hid. }
  rewrite Hs. f_equal. f_equal.
  set (o2 := Order.set_id _ _).
  assert (Hi : Order.id (toRow o2) = Some (nextId Order.id (orders d))).
  { destruct (toRow_fields o2) as (-> & _). reflexivity. }
  unfold save. rewrite Hi, nextId_fresh. reflexivity.
Qed.

(** ** Orders that have no primary key yet *)

Lemma saveOrder_inserted (now : Z) (o : Order.t) (d : DB) :
  Order.id o = None ->
  saveOrder now o d =
  (set_orders (orders d ++ [toRow (inserted now o d)]) d, Ok (inserted now o d)).
Proof. intros H. rewrite (saveOrder_new now o d H). reflexivity. Qed.

(** The loop of [matchOrder] on such an order: it ends at the first
    order it can match, where the trade is rejected, and otherwise goes
    through without a trade.  Nothing is written and the order object is
    as before. *)
Lemma matchLoop_new (opps : list Order.t) :
  forall order ts d,
    Order.id order = None ->
    matchLoop order opps ts d = (d, order, Ok ts) \/
    matchLoop order opps ts d = (d, order, Err QueryFailedError).
Proof.
  induction opps as [|R rest IH]; simpl; intros order ts d Hid.
  - left. reflexivity.
  - destruct (Order.qtyFilledUnits order >=? Order.qtyUnits order);
      [left; reflexivity|].
    destruct (Order.qtyFilledUnits R >=? Order.qtyUnits R); [apply IH; exact Hid|].
    destruct (canMatch order R); [|apply IH; exact Hid].
    rewrite (executeTrade_new order R d Hid). right. reflexivity.
Qed.

Lemma matchOrder_new (order : Order.t) (d : DB) :
  Order.id order = None ->
  matchOrder order d = (d, order, Ok []) \/
  matchOrder order d = (d, order, Err QueryFailedError).
Proof. intros Hid. unfold matchOrder. apply matchLoop_new. exact Hid. Qed.

(** [addOrder] on such an order: one row is appended to the orders and
    nothing else is written.  The order comes back without a trade, with
    the status that [statusAfterMatch] gives it as it came in, or the call
    fails and the order is stored CANCELLED. *)
Lemma addOrder_new (now : Z) (order : Order.t) (d : DB) :
  Order.id order = None ->
  let accepted := Order.set_status (statusAfterMatch order) order in
  let refused := Order.set_status CANCELLED order in
  (validateOrder order d = (d, Ok tt) /\
   addOrder now order d =
   (set_orders (orders d ++ [toRow (inserted now accepted d)]) d,
    Ok (inserted now accepted d, []))) \/
  (exists e,
     addOrder now order d =
     (set_orders (orders d ++ [toRow (inserted now refused d)]) d, Err e)).
Proof.
  intros Hid. cbv zeta. unfold addOrder.
  rewrite validateOrder_eq.
  match goal with |- context [(d, ?r)] => destruct r as [[]|e] end.
  - destruct (matchOrder_new order d Hid) as [-> | ->].
    + left. split; [reflexivity|].
      rewrite saveOrder_inserted by exact Hid. reflexivity.
    + right. exists QueryFailedError.
      rewrite saveOrder_inserted by exact Hid. reflexivity.
  - right. exists e.
    rewrite saveOrder_inserted by exact Hid. reflexivity.
Qed.

(** Whatever its outcome, [addOrder] on such an order leaves trades,
    positions and portfolios as they are. *)
Lemma addOrder_new_frame (now : Z) (order : Order.t) (d : DB) :
  Order.id order = None ->
  trades (fst (addOrder now order d)) = trades d /\
  positions (fst (addOrder now order d)) = positions d /\
  portfolios (fst (addOrder now order d)) = portfolios d.
Proof.
  intros Hid.
  destruct (addOrder_new now order d Hid) as [[_ H]|[e H]];
    cbv zeta in H; rewrite H; cbn [fst]; auto.
Qed.


(** * The claims *)

Section Claims.
Import Scenario Examples.

(** C1 (the code departs from the claim).  In the scenario of the
    specification the limit order B1 crosses the resting order S1.
    [executeTrade] inserts the trade before the incoming order was ever
    saved, so the trade names no buy order and the database rejects it:
    [addOrder] fails, B1 is stored CANCELLED with nothing filled, no trade
    exists and S1 stays on the book untouched.  The market order S2 then
    finds no bid and is CANCELLED.  Beside that, in any state an order
    whose status is not OPEN is neither matched against nor shown: a
    stored PARTIAL order with 50 units left is absent from the bid side,
    and S2 trades nothing against it. *)
Theorem limit_order_crossing_the_book_is_cancelled :
  (forall bond sd d x,
     In x (findOpenOrders bond sd d) \/ In x (bookOrders bond sd d) ->
     Order.status x = OPEN) /\
  addOrder 1 S1 db0 = (afterS1, Ok (S1row, [])) /\
  addOrder 2 B1 afterS1 = (afterB1, Err QueryFailedError) /\
  orderById 2 afterB1
    = Some (Order.mk (Some 2%nat) 2 1 BUY LIMIT (VNum 99) 150 0 CANCELLED (Some 2)) /\
  orderById 1 afterB1 = Some S1row /\
  trades afterB1 = [] /\
  positions afterB1 = positions db0 /\
  portfolios afterB1 = portfolios db0 /\
  getOrderBookSide 1 BUY afterB1 = [] /\
  getOrderBookSide 1 SELL afterB1 = [mkLevel (VNum 98) 100 [S1row]] /\
  (exists d3 o,
     addOrder 3 S2 afterB1 = (d3, Ok (o, [])) /\
     Order.status o = CANCELLED /\
     Order.qtyFilledUnits o = 0 /\
     trades d3 = [] /\
     getOrderBookSide 1 SELL d3 = [mkLevel (VNum 98) 100 [S1row]]) /\
  orderById 2 dbPartial = Some B1partial /\
  getOrderBookSide 1 BUY dbPartial = [] /\
  (exists d3 o,
     addOrder 3 S2 dbPartial = (d3, Ok (o, [])) /\
     Order.status o = CANCELLED /\
     orderById 2 d3 = Some B1partial).
Proof.
  split.
  { intros bond sd d x [H|H]; [|apply bookOrders_In in H];
      apply findOpenOrders_In in H; apply H. }
  repeat (split; [vm_compute; reflexivity|]).
  split; [|split; [reflexivity|split; [reflexivity|]]].
  - do 2 eexists; repeat split; vm_compute; reflexivity.
  - do 2 eexists; repeat split; vm_compute; reflexivity.
Qed.

(** C2 (the code departs from the claim).  In any state, matching leaves
    the table of orders as it was, whatever it trades: the filled
    quantity that [executeTrade] adds to the resting order exists on the
    fetched object only.  For the buy order B100 submitted against S1 the
    trade is rejected (see C1), so S1 is neither filled nor EXECUTED and
    stays on the ask side.  Where a trade is stored, as for the order
    object that carries the key of the stored bid of [crossed], the 100
    units of S1 are sold and settled and the stored S1 still has nothing
    filled, is OPEN and is shown with 100 units. *)
Theorem resting_order_fill_is_not_stored :
  (forall order d, orders (fst (fst (matchOrder order d))) = orders d) /\
  orderById 1 afterS1 = Some S1row /\
  addOrder 2 B100 afterS1 = (afterB100, Err QueryFailedError) /\
  trades afterB100 = [] /\
  orderById 1 afterB100 = Some S1row /\
  orderById 2 afterB100
    = Some (Order.mk (Some 2%nat) 2 1 BUY LIMIT (VNum 98) 100 0 CANCELLED (Some 2)) /\
  getOrderBookSide 1 SELL afterB100 = [mkLevel (VNum 98) 100 [S1row]] /\
  orderById 1 crossed = Some S1row /\
  addOrder 3 B1row crossed = (afterCross, Ok (B1partial, [trade1])) /\
  Trade.sellOrderId trade1 = Order.id S1row /\
  Trade.qtyUnits trade1 = Order.qtyUnits S1row /\
  trades afterCross = [trade1] /\
  positionOf 1 1 afterCross = None /\
  orderById 1 afterCross = Some S1row /\
  getOrderBookSide 1 SELL afterCross = [mkLevel (VNum 98) 100 [S1row]].
Proof.
  split.
  { intros order d. destruct (matchOrder order d) as [[d' o'] r] eqn:E.
    unfold matchOrder in E. apply matchLoop_frame in E. exact E. }
  repeat split; vm_compute; reflexivity.
Qed.







(** Counterexample to C6 as stated.  With no resting order at all, the
    market buy order of a user without cash passes validation; [addOrder]
    returns normally and stores the order as CANCELLED.  With S1 resting,
    the same order passes validation although 100 units at the best ask
    cost 9800. *)
Lemma market_buy_is_validated_without_the_book :
  findOpenOrders 1 SELL db0 = [] /\
  cashOf 3 db0 = Some (Num 0) /\
  validateOrder M100 db0 = (db0, Ok tt) /\
  (exists d o,
     addOrder 1 M100 db0 = (d, Ok (o, [])) /\
     Order.status o = CANCELLED /\
     orders db0 = [] /\
     orders d = [toRow o]) /\
  validateOrder M100 afterS1 = (afterS1, Ok tt).
Proof.
  repeat split; try reflexivity.
  do 2 eexists; repeat split; vm_compute; reflexivity.
Qed.

(** C6, amended.  For a MARKET buy order, which carries no limit price,
    the amount validation requires is 0 whatever the quantity: the order
    is refused only when the cash balance is below 0 (or the user has no
    portfolio), and the resting orders are not looked at.  When the
    opposite side has no OPEN order the validated order is not rejected:
    [addOrder] returns normally, without trades, and stores the order as
    CANCELLED. *)
Theorem market_buy_validation (now : Z) (order : Order.t) (d : DB) :
  Order.side order = BUY ->
  Order.orderType order = MARKET ->
  Order.priceLimit order = VUndefined \/ Order.priceLimit order = VNull ->
  Order.qtyFilledUnits order = 0 ->
  0 < Order.qtyUnits order ->
  validateOrder order d =
    (d, match portfolioOf (Order.userId order) d with
        | None => Err TypeError
        | Some p =>
            if lt (Portfolio.cashBalance p) (Num 0)
            then Err InsufficientCash
            else Ok tt
        end) /\
  (forall d2, portfolios d2 = portfolios d ->
              snd (validateOrder order d2) = snd (validateOrder order d)) /\
  (validateOrder order d = (d, Ok tt) ->
   findOpenOrders (Order.bondId order) SELL d = [] ->
   exists d' o',
     addOrder now order d = (d', Ok (o', [])) /\
     Order.status o' = CANCELLED /\
     Order.qtyFilledUnits o' = 0 /\
     In (toRow o') (orders d') /\
     trades d' = trades d /\
     positions d' = positions d /\
     portfolios d' = portfolios d).
Proof.
  intros Hside Hty Hprice Hfilled Hqty.
  assert (Hreq : mul (orZero (Order.priceLimit order)) (ofZ (Order.qtyUnits order))
                 = Num 0).
  { destruct Hprice as [-> | ->]; apply mul_zero. }
  assert (Hval : forall d0,
             validateOrder order d0 =
             (d0, match portfolioOf (Order.userId order) d0 with
                  | None => Err TypeError
                  | Some p =>
                      if lt (Portfolio.cashBalance p) (Num 0)
                      then Err InsufficientCash
                      else Ok tt
                  end)).
  { intros d0. unfold validateOrder. rewrite Hside.
    unfold bind. rewrite findPortfolio_eq, Hreq.
    destruct (portfolioOf (Order.userId order) d0) as [p|]; [|reflexivity].
    cbn [deref ret].
    destruct (lt (Portfolio.cashBalance p) (Num 0)); reflexivity. }
  split; [apply Hval|]. split.
  - intros d2 Hpf. rewrite !Hval. cbn [snd]. unfold portfolioOf.
    rewrite Hpf. reflexivity.
  - intros Hok Hbook.
    destruct (saveOrder_ok now
                (Order.set_status (statusAfterMatch order) order) d)
      as [d' [o' Es]].
    exists d', o'.
    assert (Hadd : addOrder now order d = (d', Ok (o', []))).
    { unfold addOrder. rewrite Hok. unfold matchOrder.
      rewrite Hside. cbn [oppositeOf]. rewrite Hbook, matchLoop_nil, Es.
      reflexivity. }
    apply saveOrder_inv in Es.
    cbn [Order.status Order.set_status Order.qtyFilledUnits] in Es.
    destruct Es as (Hst & _ & _ & Hf & Ht & Hp & Hpf & _ & Hin & _).
    repeat split; auto; try congruence.
    rewrite Hst. unfold statusAfterMatch. rewrite Hfilled, Hty.
    destruct (0 =? Order.qtyUnits order) eqn:E.
    + apply Z.eqb_eq in E. lia.
    + reflexivity.
Qed.

(** [market_buy_validation] at the market order M100 on the empty book. *)
Lemma market_buy_validation_witness :
  validateOrder Scenario.M100 Scenario.db0 = (Scenario.db0, Ok tt) /\
  exists d' o',
    addOrder 1 Scenario.M100 Scenario.db0 = (d', Ok (o', [])) /\
    Order.status o' = CANCELLED.
Proof.
  destruct (market_buy_validation 1 Scenario.M100 Scenario.db0
              eq_refl eq_refl (or_introl eq_refl) eq_refl eq_refl)
    as (Hv & _ & Hadd).
  split; [exact Hv|].
  destruct (Hadd Hv eq_refl) as (d' & o' & H1 & H2 & _).
  exists d', o'. split; assumption.
Defined.



(** Counterexample to C8 as stated.  Cancelling an order that does not
    exist, an order of another user and a CANCELLED order of one's own all
    return the same value [false]; no exception is raised and the three
    cases cannot be told apart.  Cancelling a PARTIAL order of one's own
    returns [false] as well and leaves the order PARTIAL. *)
Lemma cancel_failures_are_one_result :
  orderById 99 afterB100 = None /\
  option_map Order.userId (orderById 1 afterB100) = Some 1%nat /\
  option_map Order.userId (orderById 2 afterB100) = Some 2%nat /\
  option_map Order.status (orderById 2 afterB100) = Some CANCELLED /\
  cancelOrder 9 99 1 afterB100 = (afterB100, Ok false) /\
  cancelOrder 9 1 2 afterB100 = (afterB100, Ok false) /\
  cancelOrder 9 2 2 afterB100 = (afterB100, Ok false) /\
  option_map Order.status (ownedOrder 2 2 dbPartial) = Some PARTIAL /\
  cancelOrder 9 2 2 dbPartial = (dbPartial, Ok false).
Proof.
  repeat split; vm_compute; reflexivity.
Qed.

(** C8, amended.  [cancelOrder] never raises an exception; it answers
    with a boolean.  The answer is [false], and the database is left as it
    was, when no stored order has both the given key and the given user
    (whether the key is unknown or the order belongs to someone else) and
    when the order has any status other than OPEN: EXECUTED, CANCELLED,
    and also PARTIAL and EXPIRED.  When the order is OPEN the answer is
    [true]: the stored order becomes CANCELLED with its filled quantity
    unchanged, it leaves the order book, and trades, positions and cash
    balances are untouched.  After any call, every further call with the
    same arguments answers [false] and changes nothing. *)
Theorem cancel_contract (now : Z) (orderId userId : nat) (d : DB) :
  exists d' b,
    cancelOrder now orderId userId d = (d', Ok b) /\
    ((forall o, In o (orders d) -> Order.id o = Some orderId ->
                Order.userId o <> userId) -> b = false) /\
    (forall o, ownedOrder orderId userId d = Some o ->
               Order.status o <> OPEN ->
               b = false) /\
    (b = false -> d' = d) /\
    (forall o, ownedOrder orderId userId d = Some o ->
               Order.status o = OPEN ->
               b = true /\
               (exists o', ownedOrder orderId userId d' = Some o' /\
                           Order.status o' = CANCELLED /\
                           Order.qtyFilledUnits o' = Order.qtyFilledUnits o /\
                           Order.qtyUnits o' = Order.qtyUnits o) /\
               (forall bond sd x, In x (bookOrders bond sd d') ->
                                  Order.id x <> Some orderId)) /\
    trades d' = trades d /\
    positions d' = positions d /\
    portfolios d' = portfolios d /\
    (forall n, cancelRepeatedly n now orderId userId d'
               = (d', repeat (Ok false) n)).
Proof.
  rewrite cancelOrder_eq.
  destruct (ownedOrder orderId userId d) as [o|] eqn:Eo.
  - destruct (Status_eqb (Order.status o) OPEN) eqn:Es.
    + (* the order is OPEN *)
      apply Status_eqb_eq in Es.
      set (r := toRow (Order.set_status CANCELLED o)).
      pose proof Eo as Eo'. unfold ownedOrder in Eo'.
      apply findOne_In in Eo'. destruct Eo' as [Hin Hp].
      pose proof Hp as Hp'. apply andb_true_iff in Hp'. destruct Hp' as [Hid Hu].
      destruct (toRow_fields (Order.set_status CANCELLED o))
        as (Ti & Tu & Ts & Tq & Tf).
      cbn [Order.id Order.userId Order.status Order.qtyUnits
             Order.qtyFilledUnits Order.set_status] in Ti, Tu, Ts, Tq, Tf.
      assert (Hr : hasId Order.id orderId r && Nat.eqb (Order.userId r) userId = true).
      { unfold r, hasId in *. rewrite Ti, Tu. exact Hp. }
      assert (Eo2 : ownedOrder orderId userId
                      (set_orders (update Order.id orderId r (orders d)) d) = Some r).
      { unfold ownedOrder, findOne. cbn [orders set_orders].
        eapply find_update_hit; eauto. }
      eexists; exists true. split; [reflexivity|].
      split.
      { intros Hno. exfalso. unfold hasId in Hid.
        destruct (Order.id o) as [j|] eqn:Ej; [|discriminate].
        apply Nat.eqb_eq in Hid. subst j. apply Nat.eqb_eq in Hu.
        exact (Hno o Hin Ej Hu). }
      split.
      { intros o0 E H. inversion E; subst; congruence. }
      split; [discriminate|].
      split.
      { intros o0 E _. inversion E; subst o0. split; [reflexivity|]. split.
        - exists r. repeat split; auto.
        - intros bond sd x Hx Hxid.
          apply bookOrders_In, findOpenOrders_In in Hx.
          destruct Hx as (Hx & _ & _ & Hopen).
          cbn [orders set_orders] in Hx. unfold update in Hx.
          apply in_map_iff in Hx. destruct Hx as [y [Hy _]].
          destruct (hasId Order.id orderId y) eqn:Ey.
          + subst x. unfold r in Hopen. rewrite Ts in Hopen. discriminate.
          + subst y. unfold hasId in Ey. rewrite Hxid, Nat.eqb_refl in Ey.
            discriminate. }
      repeat (split; [destruct d; reflexivity|]).
      apply cancelRepeatedly_refused.
      rewrite cancelOrder_eq, Eo2. unfold r at 1. rewrite Ts. reflexivity.
    + (* any other status *)
      exists d, false. split; [reflexivity|].
      split; [reflexivity|]. split; [reflexivity|]. split; [reflexivity|].
      split.
      { intros o0 E H. inversion E; subst o0.
        apply Status_eqb_eq in H. congruence. }
      repeat (split; [reflexivity|]).
      apply cancelRepeatedly_refused.
      rewrite cancelOrder_eq, Eo, Es. reflexivity.
  - exists d, false. split; [reflexivity|].
    split; [reflexivity|]. split; [reflexivity|]. split; [reflexivity|].
    split; [discriminate|].
    repeat (split; [reflexivity|]).
    apply cancelRepeatedly_refused.
    rewrite cancelOrder_eq, Eo. reflexivity.
Qed.

(** [cancel_contract] at the resting order S1, cancelled by its owner and
    then three times more, and at the PARTIAL order of [dbPartial], which
    is refused. *)
Lemma cancel_contract_witness :
  (exists d' o',
     cancelOrder 5 1 1 Scenario.afterS1 = (d', Ok true) /\
     ownedOrder 1 1 d' = Some o' /\
     Order.status o' = CANCELLED /\
     cancelRepeatedly 3 5 1 1 d' = (d', [Ok false; Ok false; Ok false])) /\
  cancelOrder 5 2 2 Examples.dbPartial = (Examples.dbPartial, Ok false).
Proof.
  split.
  - destruct (cancel_contract 5 1 1 Scenario.afterS1)
      as (d' & b & Hc & _ & _ & _ & Hopen & _ & _ & _ & Hrep).
    destruct (Hopen Examples.S1row eq_refl eq_refl)
      as (Hb & (o' & Ho' & Hst & _) & _).
    exists d', o'. rewrite <- Hb.
    split; [exact Hc|]. split; [exact Ho'|]. split; [exact Hst|].
    exact (Hrep 3%nat).
  - destruct (cancel_contract 5 2 2 Examples.dbPartial)
      as (d' & b & Hc & _ & Hno & Hsame & _).
    assert (Hb : b = false).
    { apply (Hno Examples.B1partial eq_refl). discriminate. }
    rewrite Hc, (Hsame Hb), Hb. reflexivity.
Defined.

(** C9 (the code departs from the claim).  Settlement of the trade of
    100 units at 98 between the buyer user 2, with cash 20000.00, and the
    seller user 1, with cash 0.00 and 100 units: the buyer pays 9800 and
    holds 100 units at the average 98, the seller's position is removed,
    and the seller's cash becomes 0.01, not 9800.  [cashBalance] is a
    decimal column, which is read as text; the buyer's [-=] converts it
    to a number, the seller's [+=] appends the digits of the amount to it,
    and the column rounds the text 0.009800 to two decimals.  A seller
    with cash 500.00 ends with 500.01.  The positions and the portfolios
    are those that [addOrder] leaves for the order object of the stored
    bid ([afterCross]). *)
Theorem seller_credit_is_appended_as_text :
  let d1 := set_positions (positions afterCross) crossed in
  let d2 := set_portfolios (portfolios afterCross) d1 in
  cashOf 2 crossed = Some (Num 20000) /\
  cashOf 1 crossed = Some (Num 0) /\
  heldBy 2 1 crossed = (0, Num 0) /\
  heldBy 1 1 crossed = (100, Num 95) /\
  updatePositions B1row S1row (VNum 98) 100 crossed = (d1, Ok tt) /\
  updatePortfolios B1row S1row (VNum 98) 100 d1 = (d2, Ok tt) /\
  cashOf 2 d2 = Some (Num 10200) /\
  cashOf 1 d2 = Some (Num (1 # 100)) /\
  positionOf 1 1 d2 = None /\
  heldBy 2 1 d2 = (100, Num 98) /\
  cashOf 3 d2 = cashOf 3 crossed /\
  heldBy 3 1 d2 = heldBy 3 1 crossed /\
  (exists v, creditedCash (Num 0) (Num 9800) = Some v /\
             (v == 98 # 10000)%Q /\ round2 v = 1 # 100) /\
  (exists v, creditedCash (Num 500) (Num 9800) = Some v /\
             (v == 5000098 # 10000)%Q /\ round2 v = 50001 # 100).
Proof.
  cbv zeta.
  repeat (split; [vm_compute; reflexivity|]).
  split; eexists; repeat split; vm_compute; reflexivity.
Qed.




End Claims.

(** * Further properties of matching *)

Lemma canMatch_filledFrom (o o' R : Order.t) :
  filledFrom o o' -> canMatch o' R = canMatch o R.
Proof. unfold filledFrom. intros ->. reflexivity. Qed.

Lemma available_filledFrom (o o' : Order.t) (opps : list Order.t) :
  filledFrom o o' -> available o' opps = available o opps.
Proof.
  intros H. unfold available. f_equal. apply map_ext. intros R.
  rewrite (canMatch_filledFrom o o' R H). reflexivity.
Qed.

Lemma available_nonneg (o : Order.t) (opps : list Order.t) :
  0 <= available o opps.
Proof.
  induction opps as [|R rest IH]; [unfold available; simpl; lia|].
  unfold available. cbn [map fold_right]. fold (available o rest).
  destruct (Order.qtyFilledUnits R <? Order.qtyUnits R) eqn:E; cbn [andb].
  - apply Z.ltb_lt in E. destruct (canMatch o R); unfold remaining; lia.
  - lia.
Qed.

(** The loop of [matchOrder], when it ends normally: what it adds to the
    trades, and where it leaves the filled quantity. *)
Lemma matchLoop_fill (opps : list Order.t) :
  forall order ts d d' o' ts',
    matchLoop order opps ts d = (d', o', Ok ts') ->
    exists new,
      ts' = ts ++ new /\
      Forall (fun t => 0 < Trade.qtyUnits t) new /\
      Order.qtyFilledUnits o' = Order.qtyFilledUnits order + tradedQty new /\
      Order.qtyFilledUnits o' =
        (if Order.qtyFilledUnits order <? Order.qtyUnits order
         then Z.min (Order.qtyUnits order)
                    (Order.qtyFilledUnits order + available order opps)
         else Order.qtyFilledUnits order).
Proof.
  induction opps as [|R rest IH]; simpl; intros order ts d d' o' ts' H.
  - inversion H; subst. exists []. rewrite app_nil_r.
    repeat split; auto. { unfold tradedQty; simpl; lia. }
    unfold available; simpl.
    destruct (Order.qtyFilledUnits o' <? Order.qtyUnits o') eqn:E; [|reflexivity].
    apply Z.ltb_lt in E. lia.
  - rewrite Z.geb_leb in H.
    destruct (Order.qtyUnits order <=? Order.qtyFilledUnits order) eqn:E1.
    { inversion H; subst. exists []. rewrite app_nil_r.
      repeat split; auto. { unfold tradedQty; simpl; lia. }
      apply Z.leb_le in E1.
      destruct (Order.qtyFilledUnits o' <? Order.qtyUnits o') eqn:E; [|reflexivity].
      apply Z.ltb_lt in E. lia. }
    apply Z.leb_gt in E1.
    assert (Elt : (Order.qtyFilledUnits order <? Order.qtyUnits order) = true)
      by (apply Z.ltb_lt; exact E1).
    rewrite Elt.
    unfold available. cbn [map fold_right]. fold (available order rest).
    rewrite Z.geb_leb in H.
    destruct (Order.qtyUnits R <=? Order.qtyFilledUnits R) eqn:E2.
    { apply Z.leb_le in E2.
      assert (ER : (Order.qtyFilledUnits R <? Order.qtyUnits R) = false)
        by (apply Z.ltb_ge; exact E2).
      rewrite ER. cbn [andb].
      apply IH in H. rewrite Elt in H. exact H. }
    apply Z.leb_gt in E2.
    assert (ER : (Order.qtyFilledUnits R <? Order.qtyUnits R) = true)
      by (apply Z.ltb_lt; exact E2).
    rewrite ER. cbn [andb].
    destruct (canMatch order R) eqn:Ec.
    2:{ apply IH in H. rewrite Elt in H. exact H. }
    destruct (executeTrade order R d) as [[d1 [o1 R1]] [t0|e]] eqn:E;
      [|discriminate].
    pose proof (executeTrade_objects _ _ _ _ _ _ _ E) as Ho1.
    pose proof (executeTrade_trade _ _ _ _ _ _ _ E) as (_ & _ & _ & _ & Hq).
    apply IH in H. destruct H as (new & -> & Hpos & Hsum & Hmin).
    assert (Hfrom : filledFrom order o1).
    { rewrite Ho1. unfold filledFrom. reflexivity. }
    rewrite (available_filledFrom order o1 rest Hfrom) in Hmin.
    assert (Hf1 : Order.qtyFilledUnits o1
                  = Order.qtyFilledUnits order + tradeQtyOf order R)
      by (rewrite Ho1; reflexivity).
    assert (Hq1 : Order.qtyUnits o1 = Order.qtyUnits order)
      by (rewrite Ho1; reflexivity).
    rewrite Hf1, Hq1 in Hmin. rewrite Hf1 in Hsum.
    pose proof (available_nonneg order rest) as Hav.
    exists (t0 :: new). split; [rewrite <- app_assoc; reflexivity|].
    split; [constructor; [rewrite Hq; unfold tradeQtyOf; lia|exact Hpos]|].
    split.
    { rewrite Hsum. unfold tradedQty. cbn [map fold_right].
      fold (tradedQty new). rewrite Hq. lia. }
    rewrite Hmin. unfold tradeQtyOf, remaining in *.
    destruct (_ <? _) eqn:E3;
      [apply Z.ltb_lt in E3 | apply Z.ltb_ge in E3]; lia.
Qed.

Lemma subseq_nil_l {A : Type} (l : list A) : subseq [] l.
Proof. induction l; constructor; assumption. Qed.

Lemma Forall2_In_left {A B : Type} (P : A -> B -> Prop) (l : list A)
    (l' : list B) (x : A) :
  Forall2 P l l' -> In x l -> exists y, In y l' /\ P x y.
Proof.
  induction 1 as [|a b l l' Hab _ IH]; simpl; [tauto|].
  intros [->|Hx].
  - exists b. auto.
  - destruct (IH Hx) as (y & Hy & Hxy). exists y. auto.
Qed.

Lemma tradeBetween_filledFrom (o o1 : Order.t) (t : Trade.t) (R : Order.t) :
  filledFrom o o1 -> tradeBetween o1 t R -> tradeBetween o t R.
Proof.
  unfold filledFrom, tradeBetween. intros ->. cbn. auto.
Qed.

(** The trades of the loop are made with a subsequence of the fetched
    orders: in their order, each one at most once. *)
Lemma matchLoop_subseq (opps : list Order.t) :
  forall order ts d d' o' ts',
    matchLoop order opps ts d = (d', o', Ok ts') ->
    exists new Rs,
      ts' = ts ++ new /\ subseq Rs opps /\
      Forall2 (tradeBetween order) new Rs.
Proof.
  induction opps as [|R rest IH]; simpl; intros order ts d d' o' ts' H.
  - inversion H; subst. exists [], []. rewrite app_nil_r.
    repeat split; constructor.
  - rewrite Z.geb_leb in H.
    destruct (Order.qtyUnits order <=? Order.qtyFilledUnits order).
    { inversion H; subst. exists [], []. rewrite app_nil_r.
      repeat split; [apply subseq_nil_l|constructor]. }
    rewrite Z.geb_leb in H.
    destruct (Order.qtyUnits R <=? Order.qtyFilledUnits R) eqn:E2.
    { apply IH in H. destruct H as (new & Rs & -> & Hs & Hf).
      exists new, Rs. repeat split; [constructor; exact Hs|exact Hf]. }
    apply Z.leb_gt in E2.
    destruct (canMatch order R) eqn:Ec.
    2:{ apply IH in H. destruct H as (new & Rs & -> & Hs & Hf).
        exists new, Rs. repeat split; [constructor; exact Hs|exact Hf]. }
    destruct (executeTrade order R d) as [[d1 [o1 R1]] [t0|e]] eqn:E;
      [|discriminate].
    pose proof (executeTrade_objects _ _ _ _ _ _ _ E) as Ho1.
    pose proof (executeTrade_trade _ _ _ _ _ _ _ E) as (Hb & Hs0 & Hbd & Hp & _).
    assert (Hfrom : filledFrom order o1).
    { rewrite Ho1. unfold filledFrom. reflexivity. }
    apply IH in H. destruct H as (new & Rs & -> & Hs & Hf).
    exists (t0 :: new), (R :: Rs).
    split; [rewrite <- app_assoc; reflexivity|].
    split; [constructor; exact Hs|].
    constructor.
    + unfold tradeBetween. auto 10.
    + eapply Forall2_impl; [|exact Hf].
      intros t R'. apply tradeBetween_filledFrom. exact Hfrom.
Qed.

(** When the first fetched order can be matched, the first trade is made
    with it. *)
Lemma matchLoop_head (R : Order.t) (rest : list Order.t) :
  forall order d d' o' ts',
    matchLoop order (R :: rest) [] d = (d', o', Ok ts') ->
    Order.qtyFilledUnits order < Order.qtyUnits order ->
    Order.qtyFilledUnits R < Order.qtyUnits R ->
    canMatch order R = true ->
    exists t more,
      ts' = t :: more /\ tradeBetween order t R /\
      Trade.qtyUnits t = Z.min (remaining order) (remaining R).
Proof.
  simpl. intros order d d' o' ts' H Ho HR Hc.
  rewrite !Z.geb_leb in H.
  destruct (Z.leb_spec (Order.qtyUnits order) (Order.qtyFilledUnits order)); [lia|].
  destruct (Z.leb_spec (Order.qtyUnits R) (Order.qtyFilledUnits R)); [lia|].
  rewrite Hc in H.
  destruct (executeTrade order R d) as [[d1 [o1 R1]] [t0|e]] eqn:E;
    [|discriminate].
  pose proof (executeTrade_trade _ _ _ _ _ _ _ E) as (Hb & Hs0 & Hbd & Hp & Hq).
  apply matchLoop_trades in H. destruct H as (new & -> & _).
  exists t0, new. split; [reflexivity|].
  split; [unfold tradeBetween; auto 10|exact Hq].
Qed.

Lemma addOrder_matchLoop now order d d' o' ts :
  addOrder now order d = (d', Ok (o', ts)) ->
  exists d2 o2,
    matchLoop order
      (findOpenOrders (Order.bondId order) (oppositeOf (Order.side order)) d)
      [] d = (d2, o2, Ok ts) /\
    saveOrder now (Order.set_status (statusAfterMatch o2) o2) d2 = (d', Ok o').
Proof.
  intros H. apply addOrder_ok_inv in H.
  destruct H as (d2 & o2 & _ & Hm & Hs). exists d2, o2. split; assumption.
Qed.

(** X1.  Fill accounting of [addOrder] (with [matchOrder] and
    [executeTrade]).  When an order is accepted, every trade made for it
    has a positive quantity, the filled quantity of the returned order is
    the previous one plus the units of these trades, the order quantity is
    unchanged, and the order is never filled beyond its quantity. *)
Theorem fill_accounting (now : Z) (order : Order.t) (d d' : DB)
    (o' : Order.t) (ts : list Trade.t) :
  addOrder now order d = (d', Ok (o', ts)) ->
  Order.qtyUnits o' = Order.qtyUnits order /\
  Forall (fun t => 0 < Trade.qtyUnits t) ts /\
  Order.qtyFilledUnits o' = Order.qtyFilledUnits order + tradedQty ts /\
  (Order.qtyFilledUnits order <= Order.qtyUnits order ->
   Order.qtyFilledUnits o' <= Order.qtyUnits order).
Proof.
  intros Hrun.
  destruct (addOrder_matchLoop _ _ _ _ _ _ Hrun) as (d2 & o2 & Hm & Hs).
  pose proof (matchLoop_order _ _ _ _ _ _ _ Hm) as Hfrom.
  apply matchLoop_fill in Hm. destruct Hm as (new & Hnew & Hpos & Hsum & Hmin).
  simpl in Hnew. subst new.
  apply saveOrder_inv in Hs.
  destruct Hs as (_ & _ & Hq & Hf & _). cbn in Hq, Hf.
  assert (Hq2 : Order.qtyUnits o2 = Order.qtyUnits order)
    by (rewrite Hfrom; reflexivity).
  repeat split.
  - congruence.
  - exact Hpos.
  - congruence.
  - intros Hle. rewrite Hf, Hmin.
    destruct (_ <? _) eqn:E; [apply Z.ltb_lt in E|]; lia.
Qed.

(** X2.  How much is filled ([matchOrder]).  An accepted order takes all
    that the fetched opposite orders offer to it, up to its own quantity:
    its filled quantity becomes the minimum of its quantity and of the
    previous filled quantity plus the remainders of the unfilled opposite
    OPEN orders that [canMatch] accepts.  The loop does not stop at the
    first order whose price does not match. *)
Theorem fill_takes_what_the_book_offers (now : Z) (order : Order.t) (d d' : DB)
    (o' : Order.t) (ts : list Trade.t) :
  addOrder now order d = (d', Ok (o', ts)) ->
  Order.qtyFilledUnits order <= Order.qtyUnits order ->
  Order.qtyFilledUnits o' =
    Z.min (Order.qtyUnits order)
          (Order.qtyFilledUnits order + available order (fetched order d)).
Proof.
  intros Hrun Hle.
  destruct (addOrder_matchLoop _ _ _ _ _ _ Hrun) as (d2 & o2 & Hm & Hs).
  apply matchLoop_fill in Hm. destruct Hm as (new & _ & _ & _ & Hmin).
  apply saveOrder_inv in Hs.
  destruct Hs as (_ & _ & _ & Hf & _). cbn in Hf.
  rewrite Hf, Hmin. fold (fetched order d).
  pose proof (available_nonneg order (fetched order d)).
  destruct (_ <? _) eqn:E; [reflexivity|apply Z.ltb_ge in E]. lia.
Qed.

(** X3.  The status that [addOrder] gives to a new order (nothing filled,
    positive quantity), read from its trades: EXECUTED exactly when the
    trades add up to the quantity, PARTIAL exactly when they add up to
    less but there are some, OPEN exactly for a LIMIT order without
    trades, CANCELLED exactly for a MARKET order without trades, and
    never EXPIRED. *)
Theorem status_of_an_accepted_order (now : Z) (order : Order.t) (d d' : DB)
    (o' : Order.t) (ts : list Trade.t) :
  addOrder now order d = (d', Ok (o', ts)) ->
  Order.qtyFilledUnits order = 0 ->
  0 < Order.qtyUnits order ->
  (Order.status o' = EXECUTED <-> tradedQty ts = Order.qtyUnits order) /\
  (Order.status o' = PARTIAL <->
     ts <> [] /\ tradedQty ts < Order.qtyUnits order) /\
  (Order.status o' = OPEN <-> ts = [] /\ Order.orderType order = LIMIT) /\
  (Order.status o' = CANCELLED <-> ts = [] /\ Order.orderType order = MARKET) /\
  Order.status o' <> EXPIRED.
Proof.
  intros Hrun H0 Hq.
  destruct (addOrder_matchLoop _ _ _ _ _ _ Hrun) as (d2 & o2 & Hm & Hs).
  pose proof (matchLoop_order _ _ _ _ _ _ _ Hm) as Hfrom.
  apply matchLoop_fill in Hm. destruct Hm as (new & Hnew & Hpos & Hsum & Hmin).
  simpl in Hnew. subst new.
  apply saveOrder_inv in Hs.
  destruct Hs as (Hst & _ & _ & _ & _). cbn in Hst.
  assert (Hq2 : Order.qtyUnits o2 = Order.qtyUnits order)
    by (rewrite Hfrom; reflexivity).
  assert (Ht2 : Order.orderType o2 = Order.orderType order)
    by (rewrite Hfrom; reflexivity).
  assert (Hle : Order.qtyFilledUnits o2 <= Order.qtyUnits order).
  { rewrite Hmin. destruct (_ <? _); lia. }
  rewrite H0 in Hsum. simpl in Hsum.
  assert (Hnil : ts = [] <-> tradedQty ts = 0).
  { split; [intros ->; reflexivity|].
    destruct Hpos as [|t l Ht Hl]; [reflexivity|].
    unfold tradedQty. cbn [map fold_right]. fold (tradedQty l).
    assert (0 <= tradedQty l).
    { clear - Hl. induction Hl as [|x l Hx Hl IH]; unfold tradedQty; simpl.
      - lia.
      - fold (tradedQty l). lia. }
    lia. }
  assert (Hge : 0 <= tradedQty ts).
  { clear - Hpos. induction Hpos as [|x l Hx Hl IH]; unfold tradedQty; simpl.
    - lia.
    - fold (tradedQty l). lia. }
  rewrite Hst. unfold statusAfterMatch. rewrite Hq2, Ht2, Hsum.
  unfold not. rewrite !Hnil. clear Hnil.
  destruct (Z.eqb_spec (tradedQty ts) (Order.qtyUnits order)) as [E|E].
  { intuition (try discriminate; try congruence; try lia). }
  rewrite Z.gtb_ltb.
  destruct (Z.ltb_spec 0 (tradedQty ts)) as [E1|E1].
  { intuition (try discriminate; try congruence; try lia). }
  destruct (Order.orderType order);
    intuition (try discriminate; try congruence; try lia).
Qed.

Lemma matchLoop_stored (opps : list Order.t) :
  forall order ts d d' o' ts',
    matchLoop order opps ts d = (d', o', Ok ts') ->
    exists new,
      ts' = ts ++ new /\
      (new <> [] -> isStored order (orders d) = true) /\
      Forall (fun t => exists i j,
                Trade.buyOrderId t = Some i /\ Trade.sellOrderId t = Some j /\
                Order.id order = Some i) new.
Proof.
  induction opps as [|R rest IH]; simpl; intros order ts d d' o' ts' H.
  - inversion H; subst. exists []. rewrite app_nil_r.
    split; [reflexivity|]. split; [congruence|constructor].
  - destruct (Order.qtyFilledUnits order >=? Order.qtyUnits order).
    { inversion H; subst. exists []. rewrite app_nil_r.
      split; [reflexivity|]. split; [congruence|constructor]. }
    destruct (Order.qtyFilledUnits R >=? Order.qtyUnits R);
      [exact (IH _ _ _ _ _ _ H)|].
    destruct (canMatch order R); [|exact (IH _ _ _ _ _ _ H)].
    destruct (executeTrade order R d) as [[d1 [o1 R1]] [t0|e]] eqn:E;
      [|discriminate].
    pose proof (executeTrade_accepted _ _ _ _ _ _ E) as Hacc.
    pose proof (executeTrade_trade _ _ _ _ _ _ _ E) as (Hb & Hs & _).
    pose proof (executeTrade_filled _ _ _ _ _ _ _ E) as Hfrom.
    destruct (filledFrom_fields _ _ Hfrom) as (Hid1 & _).
    assert (Hst : isStored order (orders d) = true).
    { unfold tradeAccepted in Hacc. rewrite !andb_true_iff in Hacc.
      destruct Hacc as [[Hacc _] _]. exact Hacc. }
    destruct (tradeAccepted_inv _ _ Hacc) as ((i & Hi & _) & (j & Hj & _) & _).
    rewrite createTrade_eq in Hi, Hj. cbn in Hi, Hj.
    apply IH in H. destruct H as (new & -> & _ & Hf).
    exists (t0 :: new). split; [rewrite <- app_assoc; reflexivity|].
    split; [intros _; exact Hst|].
    constructor.
    + exists i, j. rewrite Hb, Hs. auto.
    + eapply Forall_impl; [|exact Hf].
      intros t (i' & j' & H1 & H2 & H3). exists i', j'. rewrite <- Hid1. auto.
Qed.

(** X4.  Trades follow the fetched book ([matchOrder]).  The trades of an
    accepted order are made, in this order, with some of the opposite
    OPEN orders of the bond as [matchOrder] fetched them: each of these
    orders is used at most once, was not filled, and is one that
    [canMatch] accepts; the trade carries the bond and the id of the
    incoming order as buy order id and the id of the opposite order as
    sell order id, whatever the sides are.  Both ids are keys of stored
    orders: an accepted order that has traded was in the orders table,
    under the id it carries, before it was submitted. *)
Theorem trades_follow_the_book (now : Z) (order : Order.t) (d d' : DB)
    (o' : Order.t) (ts : list Trade.t) :
  addOrder now order d = (d', Ok (o', ts)) ->
  (exists Rs, subseq Rs (fetched order d) /\ Forall2 (tradeBetween order) ts Rs) /\
  (ts <> [] -> isStored order (orders d) = true) /\
  Forall (fun t => exists i j,
            Trade.buyOrderId t = Some i /\ Trade.sellOrderId t = Some j /\
            Order.id order = Some i) ts.
Proof.
  intros Hrun.
  destruct (addOrder_matchLoop _ _ _ _ _ _ Hrun) as (d2 & o2 & Hm & Hs).
  pose proof (matchLoop_stored _ _ _ _ _ _ _ Hm) as (new' & Hn' & Hst & Hids).
  simpl in Hn'. subst new'.
  apply matchLoop_subseq in Hm. destruct Hm as (new & Rs & Hnew & Hsub & Hf).
  simpl in Hnew. subst new.
  split; [exists Rs; split; assumption|]. split; assumption.
Qed.

(** X5.  The first order of the book is served first ([matchOrder]).
    When the first fetched opposite order is not filled and [canMatch]
    accepts it, and the incoming order has a remainder, the first trade is
    made with that order, for the smaller of the two remainders. *)
Theorem best_order_is_matched_first (now : Z) (order : Order.t) (d d' : DB)
    (o' : Order.t) (ts : list Trade.t) (R : Order.t) (rest : list Order.t) :
  addOrder now order d = (d', Ok (o', ts)) ->
  fetched order d = R :: rest ->
  Order.qtyFilledUnits order < Order.qtyUnits order ->
  Order.qtyFilledUnits R < Order.qtyUnits R ->
  canMatch order R = true ->
  exists t more,
    ts = t :: more /\ tradeBetween order t R /\
    Trade.qtyUnits t = Z.min (remaining order) (remaining R).
Proof.
  intros Hrun Hb Ho HR Hc.
  destruct (addOrder_matchLoop _ _ _ _ _ _ Hrun) as (d2 & o2 & Hm & Hs).
  fold (fetched order d) in Hm. rewrite Hb in Hm.
  exact (matchLoop_head R rest order d d2 o2 ts Hm Ho HR Hc).
Qed.

(** X6.  The limit price is respected ([canMatch] and the price chosen
    by [executeTrade]).  Every trade of an accepted LIMIT order with a
    limit price has a numeric price that is not above the limit of a BUY
    order and not below the limit of a SELL order; a LIMIT order whose
    limit price is undefined makes no trade. *)
Theorem limit_price_is_respected (now : Z) (order : Order.t) (d d' : DB)
    (o' : Order.t) (ts : list Trade.t) :
  addOrder now order d = (d', Ok (o', ts)) ->
  Order.orderType order = LIMIT ->
  (forall L t, Order.priceLimit order = VNum L -> In t ts ->
     exists pn, toNumber (Trade.pricePerUnit t) = Num pn /\
       match Order.side order with
       | BUY => (pn <= L)%Q
       | SELL => (L <= pn)%Q
       end) /\
  (Order.priceLimit order = VUndefined -> ts = []).
Proof.
  intros Hrun Hty.
  destruct (addOrder_matchLoop _ _ _ _ _ _ Hrun) as (d2 & o2 & Hm & Hs).
  apply matchLoop_subseq in Hm. destruct Hm as (new & Rs & Hnew & Hsub & Hf).
  simpl in Hnew. subst new. split.
  - intros L t HL Ht.
    destruct (Forall2_In_left _ _ _ _ Hf Ht) as (R & _ & HtR).
    destruct HtR as (_ & _ & _ & Hp & _ & Hc).
    rewrite Hp. unfold canMatch in Hc. rewrite Hty, HL in Hc.
    unfold tradePriceOf. rewrite HL.
    destruct (Order.side order); cbn in Hc.
    + destruct (toNumber (Order.priceLimit R)) as [r|] eqn:Er; [|discriminate].
      apply Qle_bool_iff in Hc.
      destruct (date_le _ _); cbn.
      * exists L. split; [reflexivity|lra].
      * exists r. split; [exact Er|exact Hc].
    + destruct (toNumber (Order.priceLimit R)) as [r|] eqn:Er; [|discriminate].
      apply Qle_bool_iff in Hc.
      destruct (date_le _ _); cbn.
      * exists L. split; [reflexivity|lra].
      * exists r. split; [exact Er|exact Hc].
  - intros Hu. destruct Hf as [|t R l l' HtR _]; [reflexivity|].
    destruct HtR as (_ & _ & _ & _ & _ & Hc).
    unfold canMatch in Hc. rewrite Hty, Hu in Hc.
    destruct (Order.side order); cbn in Hc;
      destruct (toNumber (Order.priceLimit R)); discriminate.
Qed.

(** * The order of the fetched orders and the book view *)

Section SortedFacts.
Context {T : Type}.
Variable leb : T -> T -> bool.

Lemma insertBy_Permutation (x : T) (l : list T) :
  Permutation (insertBy leb x l) (x :: l).
Proof.
  induction l as [|y l IH]; simpl; [reflexivity|].
  destruct (leb x y); [reflexivity|].
  rewrite IH. apply perm_swap.
Qed.

Lemma sortBy_Permutation (l : list T) : Permutation (sortBy leb l) l.
Proof.
  unfold sortBy. induction l as [|y l IH]; simpl; [reflexivity|].
  rewrite insertBy_Permutation. constructor. exact IH.
Qed.

Variable P : T -> Prop.
Hypothesis leb_total :
  forall a b, P a -> P b -> leb a b = false -> leb b a = true.
Hypothesis leb_trans :
  forall a b c, P a -> P b -> P c ->
    leb a b = true -> leb b c = true -> leb a c = true.

Lemma insertBy_sorted (x : T) (l : list T) :
  P x -> Forall P l ->
  StronglySorted (fun a b => leb a b = true) l ->
  StronglySorted (fun a b => leb a b = true) (insertBy leb x l).
Proof.
  intros Px Pl. induction 1 as [|y l Hs IH Hf]; simpl.
  - constructor; constructor.
  - apply Forall_cons_iff in Pl. destruct Pl as [Py Pl].
    destruct (leb x y) eqn:E.
    + constructor; [constructor; assumption|].
      constructor; [exact E|].
      rewrite Forall_forall in *. intros z Hz.
      apply (leb_trans x y z Px Py (Pl z Hz) E). apply Hf, Hz.
    + constructor; [exact (IH Pl)|].
      rewrite Forall_forall in *. intros z Hz.
      apply In_insertBy in Hz. destruct Hz as [->|Hz].
      * apply leb_total; assumption.
      * apply Hf, Hz.
Qed.

Lemma sortBy_sorted (l : list T) :
  Forall P l ->
  StronglySorted (fun a b => leb a b = true) (sortBy leb l).
Proof.
  unfold sortBy. induction 1 as [|y l Py Pl IH]; simpl.
  - constructor.
  - apply insertBy_sorted; [exact Py| |exact IH].
    apply Forall_forall. intros z Hz. apply In_sortBy in Hz.
    rewrite Forall_forall in Pl. apply Pl, Hz.
Qed.

End SortedFacts.

Lemma sorted_before {T : Type} (R : T -> T -> Prop) (l1 : list T) (a : T)
    (l2 : list T) (b : T) (l3 : list T) :
  StronglySorted R (l1 ++ a :: l2 ++ b :: l3) -> R a b.
Proof.
  induction l1 as [|x l1 IH]; simpl; intros H.
  - apply StronglySorted_inv in H. destruct H as [_ H].
    rewrite Forall_forall in H. apply H, in_or_app. right. left. reflexivity.
  - apply StronglySorted_inv in H. apply IH, H.
Qed.

Lemma price_cmp_antisym (a b : jsval) :
  price_cmp b a = CompOpp (price_cmp a b).
Proof.
  destruct a, b; simpl; try reflexivity. symmetry. apply Qcompare_antisym.
Qed.

Lemma Qcompare_not_gt (x y : Q) : (x ?= y)%Q <> Gt -> (x <= y)%Q.
Proof.
  destruct (Qcompare_spec x y) as [E|E|E]; intros H; try lra.
  exfalso. apply H. reflexivity.
Qed.

Lemma price_cmp_lt_trans (a b c : jsval) :
  (price_cmp a b = Lt /\ price_cmp b c <> Gt) \/
  (price_cmp a b = Eq /\ price_cmp b c = Lt) ->
  price_cmp a c = Lt.
Proof.
  intros [[H1 H2]|[H1 H2]];
    destruct a as [x| |], b as [y| |], c as [z| |]; cbn [price_cmp] in *;
    try discriminate; try reflexivity; try congruence.
  - apply Qlt_alt in H1. apply Qcompare_not_gt in H2.
    apply (proj1 (Qlt_alt x z)). lra.
  - apply Qeq_alt in H1. apply Qlt_alt in H2.
    apply (proj1 (Qlt_alt x z)). lra.
Qed.

Lemma price_cmp_eq_trans (a b c : jsval) :
  price_cmp a b = Eq -> price_cmp b c = Eq -> price_cmp a c = Eq.
Proof.
  destruct a as [x| |], b as [y| |], c as [z| |]; cbn [price_cmp];
    try discriminate; try reflexivity.
  intros H1 H2. apply Qeq_alt in H1, H2.
  apply (proj1 (Qeq_alt x z)). lra.
Qed.

Lemma created_cmp_antisym (a b : option Z) :
  created_cmp b a = CompOpp (created_cmp a b).
Proof.
  destruct a, b; simpl; try reflexivity. apply Z.compare_antisym.
Qed.

Lemma created_cmp_le_trans (a b c : option Z) :
  created_cmp a b <> Gt -> created_cmp b c <> Gt -> created_cmp a c <> Gt.
Proof.
  destruct a as [x|], b as [y|], c as [z|]; simpl; try congruence.
  rewrite !Z.compare_gt_iff. lia.
Qed.

(** The comparison of [order_leb], with the descending direction read as
    an ascending comparison of the swapped arguments. *)
Lemma order_leb_asc (desc : bool) (a b : Order.t) :
  order_leb desc a b =
  match (if desc then price_cmp (Order.priceLimit b) (Order.priceLimit a)
         else price_cmp (Order.priceLimit a) (Order.priceLimit b)) with
  | Lt => true
  | Eq => match created_cmp (Order.createdAt a) (Order.createdAt b) with
          | Gt => false
          | _ => true
          end
  | Gt => false
  end.
Proof.
  unfold order_leb. destruct desc; [|reflexivity].
  rewrite (price_cmp_antisym (Order.priceLimit a) (Order.priceLimit b)).
  reflexivity.
Qed.

Lemma order_leb_total (desc : bool) (a b : Order.t) :
  order_leb desc a b = false -> order_leb desc b a = true.
Proof.
  rewrite !order_leb_asc.
  destruct desc.
  - rewrite (price_cmp_antisym (Order.priceLimit b) (Order.priceLimit a)).
    rewrite (created_cmp_antisym (Order.createdAt a) (Order.createdAt b)).
    destruct (price_cmp _ _); simpl; try congruence.
    destruct (created_cmp _ _); simpl; congruence.
  - rewrite (price_cmp_antisym (Order.priceLimit a) (Order.priceLimit b)).
    rewrite (created_cmp_antisym (Order.createdAt a) (Order.createdAt b)).
    destruct (price_cmp _ _); simpl; try congruence.
    destruct (created_cmp _ _); simpl; congruence.
Qed.

Lemma lex_trans (pa pb pc : jsval) (ta tb tc : option Z) :
  match price_cmp pa pb with
  | Lt => true
  | Eq => match created_cmp ta tb with Gt => false | _ => true end
  | Gt => false
  end = true ->
  match price_cmp pb pc with
  | Lt => true
  | Eq => match created_cmp tb tc with Gt => false | _ => true end
  | Gt => false
  end = true ->
  match price_cmp pa pc with
  | Lt => true
  | Eq => match created_cmp ta tc with Gt => false | _ => true end
  | Gt => false
  end = true.
Proof.
  intros H1 H2.
  destruct (price_cmp pa pb) eqn:E1; try discriminate;
    destruct (price_cmp pb pc) eqn:E2; try discriminate.
  - rewrite (price_cmp_eq_trans _ _ _ E1 E2).
    pose proof (created_cmp_le_trans ta tb tc) as H.
    destruct (created_cmp ta tb); try discriminate;
      destruct (created_cmp tb tc); try discriminate;
      destruct (created_cmp ta tc); try reflexivity;
      exfalso; apply H; congruence.
  - rewrite (price_cmp_lt_trans pa pb pc); [reflexivity|].
    right. split; assumption.
  - rewrite (price_cmp_lt_trans pa pb pc); [reflexivity|].
    left. split; [assumption|congruence].
  - rewrite (price_cmp_lt_trans pa pb pc); [reflexivity|].
    left. split; [assumption|congruence].
Qed.

Lemma order_leb_trans (desc : bool) (a b c : Order.t) :
  order_leb desc a b = true -> order_leb desc b c = true ->
  order_leb desc a c = true.
Proof.
  rewrite !order_leb_asc. destruct desc; intros H1 H2.
  - (* the prices are compared from c to a, the dates from a to c *)
    destruct (price_cmp (Order.priceLimit b) (Order.priceLimit a)) eqn:E1;
      try discriminate;
      destruct (price_cmp (Order.priceLimit c) (Order.priceLimit b)) eqn:E2;
      try discriminate.
    + rewrite (price_cmp_eq_trans _ _ _ E2 E1).
      pose proof (created_cmp_le_trans (Order.createdAt a) (Order.createdAt b)
                    (Order.createdAt c)) as H.
      destruct (created_cmp (Order.createdAt a) (Order.createdAt b));
        try discriminate;
        destruct (created_cmp (Order.createdAt b) (Order.createdAt c));
        try discriminate;
        destruct (created_cmp (Order.createdAt a) (Order.createdAt c));
        try reflexivity; exfalso; apply H; congruence.
    + rewrite (price_cmp_lt_trans (Order.priceLimit c) (Order.priceLimit b)
                 (Order.priceLimit a)); [reflexivity|].
      left. split; [assumption|congruence].
    + rewrite (price_cmp_lt_trans (Order.priceLimit c) (Order.priceLimit b)
                 (Order.priceLimit a)); [reflexivity|].
      right. split; assumption.
    + rewrite (price_cmp_lt_trans (Order.priceLimit c) (Order.priceLimit b)
                 (Order.priceLimit a)); [reflexivity|].
      left. split; [assumption|congruence].
  - exact (lex_trans _ _ _ _ _ _ H1 H2).
Qed.

Lemma findOpenOrders_sorted (bond : nat) (sd : Side) (d : DB) :
  StronglySorted (fun a b => order_leb (Side_eqb sd BUY) a b = true)
    (findOpenOrders bond sd d).
Proof.
  unfold findOpenOrders. apply (sortBy_sorted _ (fun _ => True)).
  - intros a b _ _. apply order_leb_total.
  - intros a b c _ _ _. apply order_leb_trans.
  - apply Forall_forall. intros; exact I.
Qed.

(** X7.  Price-time priority of the fetch ([matchOrder] and
    [getOrderBookSide] query the orders with the same ordering).  The
    fetched orders are a rearrangement of the stored OPEN orders of the
    bond and side: none is lost or repeated.  Of two fetched orders with
    numeric limit prices the earlier one has the better price, the higher
    one on the BUY side and the lower one on the SELL side, and at equal
    prices the earlier creation date. *)
Theorem fetch_is_in_price_time_priority (bond : nat) (sd : Side) (d : DB) :
  Permutation (findOpenOrders bond sd d)
    (filter (fun o => Nat.eqb (Order.bondId o) bond
                      && Side_eqb (Order.side o) sd
                      && Status_eqb (Order.status o) OPEN) (orders d)) /\
  (forall l1 a l2 b l3 x y,
     findOpenOrders bond sd d = l1 ++ a :: l2 ++ b :: l3 ->
     Order.priceLimit a = VNum x -> Order.priceLimit b = VNum y ->
     match sd with BUY => (y <= x)%Q | SELL => (x <= y)%Q end /\
     (forall s t, (x == y)%Q ->
        Order.createdAt a = Some s -> Order.createdAt b = Some t -> s <= t)).
Proof.
  split; [apply sortBy_Permutation|].
  intros l1 a l2 b l3 x y Hl Ha Hb.
  pose proof (findOpenOrders_sorted bond sd d) as Hs.
  rewrite Hl in Hs. apply sorted_before in Hs.
  rewrite order_leb_asc in Hs. rewrite Ha, Hb in Hs.
  destruct sd; cbn in Hs.
  - destruct (Qcompare_spec y x) as [E|E|E]; try discriminate.
    + split; [lra|]. intros s t _ Hsa Htb. rewrite Hsa, Htb in Hs. cbn in Hs.
      destruct (Z.compare_spec s t); try discriminate; lia.
    + split; [lra|]. intros s t Hxy. lra.
  - destruct (Qcompare_spec x y) as [E|E|E]; try discriminate.
    + split; [lra|]. intros s t _ Hsa Htb. rewrite Hsa, Htb in Hs. cbn in Hs.
      destruct (Z.compare_spec s t); try discriminate; lia.
    + split; [lra|]. intros s t Hxy. lra.
Qed.

Lemma sameValueZero_refl (v : jsval) : sameValueZero v v = true.
Proof. destruct v; simpl; auto. apply Qeq_bool_iff. reflexivity. Qed.

Lemma sameValueZero_sym (a b : jsval) : sameValueZero a b = sameValueZero b a.
Proof.
  destruct a as [x| |], b as [y| |]; simpl; try reflexivity.
  destruct (Qeq_bool x y) eqn:E, (Qeq_bool y x) eqn:E'; try reflexivity.
  - apply Qeq_bool_iff in E. apply Qeq_bool_neq in E'. exfalso. apply E'. lra.
  - apply Qeq_bool_iff in E'. apply Qeq_bool_neq in E. exfalso. apply E. lra.
Qed.

Lemma levelQty_app (a b : list Order.t) :
  levelQty (a ++ b) = levelQty a + levelQty b.
Proof.
  unfold levelQty. induction a as [|o a IH]; simpl; [reflexivity|].
  rewrite IH. lia.
Qed.

Lemma addToLevels_ok (o : Order.t) (levels : list OrderBookLevel) :
  Forall levelOk levels -> Forall levelOk (addToLevels o levels).
Proof.
  induction 1 as [|L rest HL Hrest IH]; simpl.
  - constructor; [|constructor]. unfold levelOk. cbn [levelOrders quantity price].
    split; [discriminate|]. split.
    + unfold levelQty, remaining. simpl. lia.
    + constructor; [apply sameValueZero_refl|constructor].
  - destruct (sameValueZero (price L) (Order.priceLimit o)) eqn:E.
    + constructor; [|exact Hrest].
      destruct HL as (Hne & Hq & Hp). unfold levelOk. cbn [levelOrders quantity price].
      split; [intros H; apply app_eq_nil in H; destruct H; discriminate|].
      split.
      * rewrite levelQty_app, Hq. unfold levelQty, remaining. simpl. lia.
      * apply Forall_app. split; [exact Hp|]. constructor; [exact E|constructor].
    + constructor; assumption.
Qed.

Lemma addToLevels_perm (o : Order.t) (levels : list OrderBookLevel) :
  Permutation (flat_map levelOrders (addToLevels o levels))
              (flat_map levelOrders levels ++ [o]).
Proof.
  induction levels as [|L rest IH]; simpl.
  - reflexivity.
  - destruct (sameValueZero (price L) (Order.priceLimit o)); simpl.
    + rewrite <- !app_assoc. apply Permutation_app_head.
      apply Permutation_app_comm.
    + rewrite <- app_assoc. apply Permutation_app_head. exact IH.
Qed.

Lemma addToLevels_prices (Q : jsval -> Prop) (o : Order.t)
    (levels : list OrderBookLevel) :
  Q (Order.priceLimit o) ->
  Forall (fun L => Q (price L)) levels ->
  Forall (fun L => Q (price L)) (addToLevels o levels).
Proof.
  intros Ho. induction 1 as [|L rest HL Hrest IH]; simpl.
  - constructor; [exact Ho|constructor].
  - destruct (sameValueZero (price L) (Order.priceLimit o)).
    + constructor; assumption.
    + constructor; assumption.
Qed.

Lemma addToLevels_distinct (o : Order.t) (levels : list OrderBookLevel) :
  StronglySorted (fun a b => sameValueZero (price a) (price b) = false) levels ->
  StronglySorted (fun a b => sameValueZero (price a) (price b) = false)
    (addToLevels o levels).
Proof.
  induction 1 as [|L rest Hs IH Hf]; simpl.
  - constructor; constructor.
  - destruct (sameValueZero (price L) (Order.priceLimit o)) eqn:E.
    + constructor; [exact Hs|exact Hf].
    + constructor; [exact IH|].
      apply (addToLevels_prices
               (fun v => sameValueZero (price L) v = false)); assumption.
Qed.

Lemma groupLevels_facts (os : list Order.t) :
  forall acc,
    Forall levelOk acc ->
    StronglySorted (fun a b => sameValueZero (price a) (price b) = false) acc ->
    Forall levelOk (groupLevels os acc) /\
    StronglySorted (fun a b => sameValueZero (price a) (price b) = false)
      (groupLevels os acc) /\
    Permutation (flat_map levelOrders (groupLevels os acc))
                (flat_map levelOrders acc ++ os).
Proof.
  induction os as [|o os IH]; simpl; intros acc Hok Hd.
  - rewrite app_nil_r. auto.
  - destruct (IH (addToLevels o acc) (addToLevels_ok o acc Hok)
                (addToLevels_distinct o acc Hd)) as (H1 & H2 & H3).
    repeat split; [exact H1|exact H2|].
    rewrite H3, addToLevels_perm, <- app_assoc. reflexivity.
Qed.

Lemma insertBy_distinct {T : Type} (leb : T -> T -> bool) (R : T -> T -> Prop)
    (x : T) (l : list T) :
  (forall a b, R a b -> R b a) ->
  Forall (R x) l -> StronglySorted R l -> StronglySorted R (insertBy leb x l).
Proof.
  intros Hsym Hx. induction 1 as [|y l Hs IH Hf]; simpl.
  - constructor; constructor.
  - apply Forall_cons_iff in Hx. destruct Hx as [Hxy Hx].
    destruct (leb x y).
    + constructor; [constructor; assumption|]. constructor; assumption.
    + constructor; [exact (IH Hx)|].
      apply Forall_forall. intros z Hz. apply In_insertBy in Hz.
      destruct Hz as [->|Hz]; [apply Hsym, Hxy|].
      rewrite Forall_forall in Hf. apply Hf, Hz.
Qed.

Lemma sortBy_distinct {T : Type} (leb : T -> T -> bool) (R : T -> T -> Prop)
    (l : list T) :
  (forall a b, R a b -> R b a) ->
  StronglySorted R l -> StronglySorted R (sortBy leb l).
Proof.
  intros Hsym. unfold sortBy. induction 1 as [|y l Hs IH Hf]; simpl.
  - constructor.
  - apply insertBy_distinct; [exact Hsym| |exact IH].
    apply Forall_forall. intros z Hz. apply In_sortBy in Hz.
    rewrite Forall_forall in Hf. apply Hf, Hz.
Qed.

(** X8.  The levels of the book view ([getOrderBookSide]).  The levels
    of one side hold, together, exactly the fetched OPEN orders of the
    bond and side, each of them once; every level has at least one order,
    its orders carry the price of the level, and its quantity is the sum
    of the unfilled remainders of its orders; no two levels have the same
    price. *)
Theorem book_levels_group_the_open_orders (bond : nat) (sd : Side) (d : DB) :
  Permutation (bookOrders bond sd d) (findOpenOrders bond sd d) /\
  Forall (fun L =>
            levelOrders L <> [] /\
            quantity L = levelQty (levelOrders L) /\
            Forall (fun o => sameValueZero (price L) (Order.priceLimit o) = true)
                   (levelOrders L))
         (getOrderBookSide bond sd d) /\
  (forall l1 a l2 b l3,
     getOrderBookSide bond sd d = l1 ++ a :: l2 ++ b :: l3 ->
     sameValueZero (price a) (price b) = false).
Proof.
  unfold bookOrders, getOrderBookSide.
  fold (groupLevels (findOpenOrders bond sd d) []).
  destruct (groupLevels_facts (findOpenOrders bond sd d) [])
    as (Hok & Hd & Hp); [constructor|constructor|].
  pose proof (sortBy_Permutation (level_leb sd)
                (groupLevels (findOpenOrders bond sd d) [])) as Hs.
  repeat split.
  - rewrite (Permutation_flat_map levelOrders Hs). exact Hp.
  - apply (Permutation_Forall (Permutation_sym Hs)). exact Hok.
  - intros l1 a l2 b l3 Hl.
    assert (H : StronglySorted
                  (fun a b => sameValueZero (price a) (price b) = false)
                  (sortBy (level_leb sd)
                     (groupLevels (findOpenOrders bond sd d) []))).
    { apply sortBy_distinct; [|exact Hd].
      intros x y H. rewrite sameValueZero_sym. exact H. }
    rewrite Hl in H. exact (sorted_before _ _ _ _ _ _ H).
Qed.

Lemma level_leb_num (sd : Side) (a b : OrderBookLevel) (x y : Q) :
  toNumber (price a) = Num x -> toNumber (price b) = Num y ->
  (level_leb sd a b = true <->
   match sd with BUY => (y <= x)%Q | SELL => (x <= y)%Q end).
Proof.
  intros Ha Hb. unfold level_leb. rewrite Ha, Hb.
  unfold JS.gt, JS.sub, JS.lt.
  destruct sd; rewrite negb_involutive, Qle_bool_iff, Qred_correct;
    split; intros; lra.
Qed.

Lemma groupLevels_prices (Q : jsval -> Prop) (os : list Order.t) :
  forall acc,
    Forall (fun o => Q (Order.priceLimit o)) os ->
    Forall (fun L => Q (price L)) acc ->
    Forall (fun L => Q (price L)) (groupLevels os acc).
Proof.
  induction os as [|o os IH]; simpl; intros acc Hos Hacc; [exact Hacc|].
  apply Forall_cons_iff in Hos. destruct Hos as [Ho Hos].
  apply IH; [exact Hos|]. apply addToLevels_prices; assumption.
Qed.

Lemma defined_is_number (v : jsval) :
  v <> VUndefined -> exists x, toNumber v = Num x.
Proof.
  destruct v as [q| |]; simpl; intros H.
  - exists q. reflexivity.
  - exists 0%Q. reflexivity.
  - congruence.
Qed.

(** X9.  The levels are listed best price first ([getOrderBookSide]).
    When no stored order has an undefined limit price (a stored row has a
    number or NULL, and NULL counts as 0 in the comparison), of two levels
    of a side the earlier one has the higher price on the BUY side and the
    lower price on the SELL side. *)
Theorem book_levels_are_best_price_first (bond : nat) (sd : Side) (d : DB)
    (l1 : list OrderBookLevel) (a : OrderBookLevel) (l2 : list OrderBookLevel)
    (b : OrderBookLevel) (l3 : list OrderBookLevel) :
  (forall o, In o (orders d) -> Order.priceLimit o <> VUndefined) ->
  getOrderBookSide bond sd d = l1 ++ a :: l2 ++ b :: l3 ->
  exists x y,
    toNumber (price a) = Num x /\ toNumber (price b) = Num y /\
    match sd with BUY => (y <= x)%Q | SELL => (x <= y)%Q end.
Proof.
  intros Hdef Hl.
  set (P := fun L : OrderBookLevel => price L <> VUndefined).
  assert (HP : Forall P (groupLevels (findOpenOrders bond sd d) [])).
  { apply (groupLevels_prices (fun v => v <> VUndefined)); [|constructor].
    apply Forall_forall. intros o Ho. apply findOpenOrders_In in Ho.
    apply Hdef, Ho. }
  assert (Hs : StronglySorted (fun a b => level_leb sd a b = true)
                 (getOrderBookSide bond sd d)).
  { unfold getOrderBookSide.
    fold (groupLevels (findOpenOrders bond sd d) []).
    apply (sortBy_sorted _ P); [| |exact HP].
    - intros u v Hu Hv H.
      destruct (defined_is_number _ Hu) as (x & Hx).
      destruct (defined_is_number _ Hv) as (y & Hy).
      apply (level_leb_num sd v u y x Hy Hx).
      assert (H' : ~ level_leb sd u v = true) by congruence.
      rewrite (level_leb_num sd u v x y Hx Hy) in H'.
      destruct sd; lra.
    - intros u v w Hu Hv Hw H1 H2.
      destruct (defined_is_number _ Hu) as (x & Hx).
      destruct (defined_is_number _ Hv) as (y & Hy).
      destruct (defined_is_number _ Hw) as (z & Hz).
      apply (level_leb_num sd u v x y Hx Hy) in H1.
      apply (level_leb_num sd v w y z Hy Hz) in H2.
      apply (level_leb_num sd u w x z Hx Hz).
      destruct sd; lra. }
  assert (Hin : forall L, In L (getOrderBookSide bond sd d) -> P L).
  { intros L HL. unfold getOrderBookSide in HL.
    fold (groupLevels (findOpenOrders bond sd d) []) in HL.
    apply In_sortBy in HL. rewrite Forall_forall in HP. apply HP, HL. }
  assert (Ha : P a).
  { apply Hin. rewrite Hl. apply in_or_app. right. left. reflexivity. }
  assert (Hb : P b).
  { apply Hin. rewrite Hl. apply in_or_app. right. right.
    apply in_or_app. right. left. reflexivity. }
  destruct (defined_is_number _ Ha) as (x & Hx).
  destruct (defined_is_number _ Hb) as (y & Hy).
  exists x, y. split; [exact Hx|]. split; [exact Hy|].
  rewrite Hl in Hs. apply sorted_before in Hs.
  apply (level_leb_num sd a b x y Hx Hy). exact Hs.
Qed.

Lemma find_rev_last {T : Type} (p : T -> bool) (l : list T) (t : T)
    (l' : list T) :
  p t = true -> (forall x, In x l' -> p x = false) ->
  find p (rev (l ++ t :: l')) = Some t.
Proof.
  intros Ht Hl'. rewrite rev_app_distr. simpl. rewrite <- app_assoc. simpl.
  assert (H : forall k, (forall x, In x k -> p x = false) ->
                        forall m, find p (k ++ m) = find p m).
  { induction k as [|y k IH]; simpl; intros Hk m; [reflexivity|].
    rewrite (Hk y (or_introl eq_refl)). apply IH. intros x Hx. apply Hk. auto. }
  rewrite H.
  - simpl. rewrite Ht. reflexivity.
  - intros x Hx. apply in_rev in Hx. apply Hl', Hx.
Qed.

Lemma find_none_all {T : Type} (p : T -> bool) (l : list T) :
  (forall x, In x l -> p x = false) -> find p l = None.
Proof.
  induction l as [|y l IH]; simpl; intros H; [reflexivity|].
  rewrite (H y (or_introl eq_refl)). apply IH. intros x Hx. apply H. auto.
Qed.

(** X10.  What [getOrderBook] returns.  Each side shows at most ten
    levels, and they are the first levels of that side: levels are left
    out only beyond the tenth.  The last price is the price of the most
    recently stored trade of the bond, and is undefined when the bond has
    no trade. *)
Theorem order_book_depth_and_last_price (bond : nat) (d : DB) :
  (exists rest, getOrderBookSide bond BUY d = bids (getOrderBook bond d) ++ rest
                /\ (rest <> [] -> length (bids (getOrderBook bond d)) = 10%nat)) /\
  (exists rest, getOrderBookSide bond SELL d = asks (getOrderBook bond d) ++ rest
                /\ (rest <> [] -> length (asks (getOrderBook bond d)) = 10%nat)) /\
  (length (bids (getOrderBook bond d)) <= 10)%nat /\
  (length (asks (getOrderBook bond d)) <= 10)%nat /\
  ((forall t, In t (trades d) -> Trade.bondId t <> bond) ->
   lastPrice (getOrderBook bond d) = VUndefined) /\
  (forall l t l',
     trades d = l ++ t :: l' -> Trade.bondId t = bond ->
     (forall t', In t' l' -> Trade.bondId t' <> bond) ->
     lastPrice (getOrderBook bond d) = Trade.pricePerUnit t).
Proof.
  assert (Hcut : forall l : list OrderBookLevel,
            exists rest, l = firstn 10 l ++ rest /\
                         (rest <> [] -> length (firstn 10 l) = 10%nat)).
  { intros l. exists (skipn 10 l). split; [symmetry; apply firstn_skipn|].
    intros Hne. rewrite length_firstn.
    destruct (Nat.le_gt_cases (length l) 10) as [Hle|Hgt]; [|lia].
    exfalso. apply Hne. apply skipn_all2. exact Hle. }
  unfold getOrderBook. cbn [bids asks lastPrice].
  split; [apply Hcut|]. split; [apply Hcut|].
  split; [rewrite length_firstn; lia|].
  split; [rewrite length_firstn; lia|].
  unfold lastTradeOf, findOne. split.
  - intros Hno. rewrite find_none_all; [reflexivity|].
    intros x Hx. apply in_rev in Hx. apply Nat.eqb_neq. apply Hno, Hx.
  - intros l t l' Hl Ht Hl'. rewrite Hl.
    rewrite (find_rev_last _ l t l'); [reflexivity| |].
    + apply Nat.eqb_eq, Ht.
    + intros x Hx. apply Nat.eqb_neq. apply Hl', Hx.
Qed.

Lemma settlement_frame (b s : Order.t) (p : jsval) (q : Z) (d d' : DB)
    (r : result unit) :
  (updatePositions b s p q ;;; updatePortfolios b s p q) d = (d', r) ->
  orders d' = orders d /\ trades d' = trades d.
Proof.
  unfold bind.
  destruct (updatePositions b s p q d) as [d1 [[]|e]] eqn:E1;
    apply updatePositions_frame in E1; destruct E1 as (Ho1 & Ht1 & _).
  - intros H. apply updatePortfolios_frame in H. destruct H as (Ho & Ht & _).
    split; congruence.
  - intros H. inversion H; subst. auto.
Qed.

Lemma save_createTrade (b s : Order.t) (rows : list Trade.t) :
  save Trade.id Trade.set_id (createTrade b s) rows
  = (Trade.set_id (Some (nextId Trade.id rows)) (createTrade b s),
     rows ++ [Trade.set_id (Some (nextId Trade.id rows)) (createTrade b s)]).
Proof. reflexivity. Qed.

(** What a call of [executeTrade] adds to the stored trades: the trade,
    when the database accepts it, and nothing otherwise. *)
Lemma executeTrade_log (b s : Order.t) (d d' : DB) (oo : Order.t * Order.t)
    (r : result Trade.t) :
  executeTrade b s d = (d', oo, r) ->
  exists new,
    trades d' = trades d ++ new /\
    Forall (fun t => Trade.bondId t = Order.bondId b) new /\
    (forall t', r = Ok t' -> new = [t']) /\
    (tradeAccepted (createTrade b s) d = true ->
     new = [Trade.set_id (Some (nextId Trade.id (trades d))) (createTrade b s)]) /\
    (tradeAccepted (createTrade b s) d = false ->
     new = [] /\ d' = d /\ r = Err QueryFailedError).
Proof.
  rewrite executeTrade_eq.
  destruct (tradeAccepted (createTrade b s) d).
  - cbv zeta. rewrite save_createTrade. cbn [fst snd].
    set (t := Trade.set_id (Some (nextId Trade.id (trades d))) (createTrade b s)).
    assert (Hb : Forall (fun x => Trade.bondId x = Order.bondId b) [t])
      by (constructor; [reflexivity|constructor]).
    match goal with |- context [bind ?m ?k ?d1] =>
      destruct (bind m k d1) as [d2 [u|e]] eqn:E end;
      apply settlement_frame in E; destruct E as (_ & Ht);
      cbn [trades set_trades] in Ht;
      intros H; inversion H; subst; exists [t];
      (split; [exact Ht|]); (split; [exact Hb|]); split.
    + intros t' E'. inversion E'. reflexivity.
    + split; [reflexivity|discriminate].
    + discriminate.
    + split; [reflexivity|discriminate].
  - intros H; inversion H; subst. exists []. rewrite app_nil_r.
    split; [reflexivity|]. split; [constructor|].
    split; [discriminate|]. split; [discriminate|auto].
Qed.

Lemma matchLoop_log (opps : list Order.t) :
  forall order ts d d' o' r,
    matchLoop order opps ts d = (d', o', r) ->
    exists new,
      trades d' = trades d ++ new /\
      Forall (fun t => Trade.bondId t = Order.bondId order) new /\
      (forall ts', r = Ok ts' -> ts' = ts ++ new).
Proof.
  induction opps as [|R rest IH]; simpl; intros order ts d d' o' r H.
  - inversion H; subst. exists []. rewrite !app_nil_r.
    repeat split; [constructor|]. intros ts' E. inversion E.
    reflexivity.
  - destruct (Order.qtyFilledUnits order >=? Order.qtyUnits order).
    { inversion H; subst. exists []. rewrite !app_nil_r.
      repeat split; [constructor|]. intros ts' E. inversion E.
      reflexivity. }
    destruct (Order.qtyFilledUnits R >=? Order.qtyUnits R);
      [exact (IH _ _ _ _ _ _ H)|].
    destruct (canMatch order R); [|exact (IH _ _ _ _ _ _ H)].
    destruct (executeTrade order R d) as [[d1 [o1 R1]] [t0|e]] eqn:E.
    + pose proof (executeTrade_objects _ _ _ _ _ _ _ E) as Ho1.
      apply executeTrade_log in E. destruct E as (new0 & Ht & Hb & Hok & _).
      rewrite (Hok t0 eq_refl) in Ht, Hb.
      apply IH in H. destruct H as (new & Hn & Hf & Hr).
      exists (t0 :: new). split; [rewrite Hn, Ht, <- app_assoc; reflexivity|].
      split.
      * constructor; [inversion Hb; assumption|].
        eapply Forall_impl; [|exact Hf]. intros x Hx. rewrite Hx, Ho1.
        reflexivity.
      * intros ts' Er. rewrite (Hr ts' Er), <- app_assoc. reflexivity.
    + inversion H; subst.
      apply executeTrade_log in E. destruct E as (new0 & Ht & Hb & _).
      exists new0. split; [exact Ht|]. split; [exact Hb|].
      intros ts' Er. discriminate.
Qed.

Lemma addOrder_log (now : Z) (order : Order.t) (d : DB) :
  exists new,
    trades (fst (addOrder now order d)) = trades d ++ new /\
    Forall (fun t => Trade.bondId t = Order.bondId order) new /\
    (forall o' ts, snd (addOrder now order d) = Ok (o', ts) -> new = ts).
Proof.
  destruct (addOrder now order d) as [d' r] eqn:E. cbn [fst snd].
  destruct (addOrder_shape _ _ _ _ _ E)
    as (d2 & o2 & r2 & o3 & Hd2 & Hd' & _ & _).
  pose proof (saveOrder_frame now o3 d2) as (Hfr & _ & _).
  rewrite <- Hd' in Hfr.
  destruct Hd2 as [->|[Hv Hm]].
  - exists []. rewrite app_nil_r. split; [exact Hfr|]. split; [constructor|].
    intros o' ts ->. apply addOrder_ok_inv in E.
    destruct E as (d3 & o4 & _ & Hm & Hs).
    apply saveOrder_inv in Hs. destruct Hs as (_ & _ & _ & _ & Ht & _).
    unfold matchOrder in Hm. apply matchLoop_log in Hm.
    destruct Hm as (new & Hn & _ & Hr).
    rewrite (Hr ts eq_refl). simpl.
    rewrite Hfr in Ht. rewrite Hn in Ht.
    rewrite <- (app_nil_r (trades d)) in Ht at 1.
    apply app_inv_head in Ht. exact Ht.
  - unfold matchOrder in Hm.
    pose proof (matchLoop_log _ _ _ _ _ _ _ Hm) as (new & Hn & Hf & Hr).
    exists new. split; [rewrite Hfr; exact Hn|]. split; [exact Hf|].
    intros o' ts ->. apply addOrder_ok_inv in E.
    destruct E as (d3 & o4 & _ & Hm' & _).
    unfold matchOrder in Hm'. rewrite Hm in Hm'. inversion Hm'; subst.
    symmetry. apply (Hr ts eq_refl).
Qed.

(** X11.  The trade log only grows ([addOrder], [executeTrade]).
    Whatever the outcome of a submission, the stored trades afterwards are
    the stored trades before, unchanged and in place, followed by new
    trades of the bond of the order; when the order is accepted the new
    trades are exactly the returned ones, and when validation rejects the
    order there is no new trade. *)
Theorem trade_log_only_grows (now : Z) (order : Order.t) (d : DB) :
  exists new,
    trades (fst (addOrder now order d)) = trades d ++ new /\
    Forall (fun t => Trade.bondId t = Order.bondId order) new /\
    (forall o' ts, snd (addOrder now order d) = Ok (o', ts) -> new = ts) /\
    (forall e, snd (validateOrder order d) = Err e -> new = []).
Proof.
  destruct (addOrder_log now order d) as (new & Hn & Hf & Hok).
  exists new. split; [exact Hn|]. split; [exact Hf|]. split; [exact Hok|].
  intros e He.
  assert (Hsame : trades (fst (addOrder now order d)) = trades d).
  { unfold addOrder.
    destruct (validateOrder order d) as [d1 [[]|e1]] eqn:Ev;
      cbn [snd] in He; [discriminate|].
    pose proof (validateOrder_db _ _ _ _ Ev) as ->.
    cbn [fst]. apply saveOrder_frame. }
  rewrite Hsame in Hn. rewrite <- (app_nil_r (trades d)) in Hn at 1.
  apply app_inv_head in Hn. symmetry. exact Hn.
Qed.

(** X12.  The last price after a submission ([addOrder] followed by
    [getOrderBook]).  When an accepted order has traded, the book of its
    bond shows the price of the last of its trades as the last price. *)
Theorem last_price_is_the_last_trade (now : Z) (order : Order.t) (d d' : DB)
    (o' : Order.t) (ts more : list Trade.t) (t : Trade.t) :
  addOrder now order d = (d', Ok (o', ts)) ->
  ts = more ++ [t] ->
  lastPrice (getOrderBook (Order.bondId order) d') = Trade.pricePerUnit t.
Proof.
  intros H Hts.
  destruct (addOrder_log now order d) as (new & Hn & Hf & Hr).
  rewrite H in Hn, Hr. cbn [fst snd] in Hn, Hr.
  rewrite (Hr o' ts eq_refl) in Hn, Hf. subst ts.
  unfold getOrderBook. cbn [lastPrice]. unfold lastTradeOf, findOne.
  rewrite Hn, app_assoc.
  rewrite (find_rev_last _ (trades d ++ more) t []); [reflexivity| |].
  - apply Nat.eqb_eq. rewrite Forall_forall in Hf. apply Hf.
    apply in_or_app. right. left. reflexivity.
  - intros x [].
Qed.

(** * Validation, rejection and failure *)

Lemma orZero_mul (L : Q) (q : Z) :
  exists r, JS.mul (orZero (VNum L)) (ofZ q) = Num r /\ (r == L * inject_Z q)%Q.
Proof.
  unfold orZero. destruct (Qeq_bool L 0) eqn:E; unfold JS.mul, ofZ.
  - apply Qeq_bool_iff in E. eexists. split; [reflexivity|].
    rewrite Qred_correct, E. lra.
  - eexists. split; [reflexivity|]. apply Qred_correct.
Qed.

(** X14.  What [validateOrder] decides.  It never changes the state and
    reads only the positions and the portfolios.  A SELL order passes
    exactly when the first position of the bond in a portfolio of the
    user holds at least the order quantity, and fails with
    InsufficientPosition otherwise.  A BUY order of a user without a
    portfolio fails with a TypeError.  With a portfolio whose cash is [n]
    hundredths, within the fifteen digits of its column, and a limit
    price that is a whole number [l] with [l] times the quantity within
    2^53, where the product of the doubles is exact, it passes exactly
    when limit price times quantity does not exceed the cash, and fails
    with InsufficientCash otherwise. *)
Theorem validation_contract (order : Order.t) (d : DB) :
  fst (validateOrder order d) = d /\
  (forall d2, positions d2 = positions d -> portfolios d2 = portfolios d ->
     snd (validateOrder order d2) = snd (validateOrder order d)) /\
  (Order.side order = SELL ->
     (snd (validateOrder order d) = Ok tt <->
      exists x, positionOfUser (Order.userId order) (Order.bondId order) d
                = Some x /\
                Order.qtyUnits order <= Position.qtyUnits x) /\
     (snd (validateOrder order d) <> Ok tt ->
      snd (validateOrder order d) = Err InsufficientPosition)) /\
  (Order.side order = BUY ->
     (portfolioOf (Order.userId order) d = None ->
      snd (validateOrder order d) = Err TypeError) /\
     (forall p c n l,
        portfolioOf (Order.userId order) d = Some p ->
        Portfolio.cashBalance p = Num c ->
        (c == inject_Z n / 100)%Q ->
        Z.abs n < 10 ^ 15 ->
        Order.priceLimit order = VNum (inject_Z l) ->
        Z.abs (l * Order.qtyUnits order) <= 2 ^ 53 ->
        (snd (validateOrder order d) = Ok tt <->
         100 * (l * Order.qtyUnits order) <= n) /\
        (snd (validateOrder order d) <> Ok tt ->
         snd (validateOrder order d) = Err InsufficientCash))).
Proof.
  split; [rewrite validateOrder_eq; reflexivity|].
  split.
  { intros d2 Hp Hf. rewrite !validateOrder_eq. cbn [snd].
    unfold portfolioOf, positionOfUser. rewrite Hp, Hf. reflexivity. }
  rewrite validateOrder_eq. cbn [snd]. split.
  - intros ->.
    destruct (positionOfUser _ _ d) as [x|].
    + destruct (Z.ltb_spec (Position.qtyUnits x) (Order.qtyUnits order)).
      * split; [|reflexivity].
        split; [discriminate|]. intros (y & Hy & Hle). inversion Hy; subst. lia.
      * split; [|congruence].
        split; [|reflexivity]. intros _. exists x. split; [reflexivity|lia].
    + split; [|reflexivity].
      split; [discriminate|]. intros (y & Hy & _). discriminate.
  - intros ->. split.
    + intros ->. reflexivity.
    + intros p c n l -> Hc Hn _ HL _. rewrite Hc, HL.
      destruct (orZero_mul (inject_Z l) (Order.qtyUnits order)) as (r & -> & Hr).
      assert (Hiff : (r <= c)%Q <-> 100 * (l * Order.qtyUnits order) <= n).
      { rewrite Zle_Qle, !inject_Z_mult.
        change (inject_Z 100) with 100%Q.
        rewrite Hr, Hn.
        set (ab := (inject_Z l * inject_Z (Order.qtyUnits order))%Q).
        set (m := inject_Z n).
        assert (H100 : (m / 100 == m * (1 # 100))%Q) by reflexivity.
        rewrite H100. split; intros H; lra. }
      unfold JS.lt.
      destruct (Qle_bool r c) eqn:E; cbn [negb].
      * apply Qle_bool_iff in E. split; [|congruence].
        split; [intros _; apply Hiff; exact E|reflexivity].
      * split; [|reflexivity]. split; [discriminate|].
        intros Hle. apply Hiff in Hle.
        assert (Qle_bool r c = true) by (apply Qle_bool_iff; exact Hle).
        congruence.
Qed.

Lemma matchLoop_no_trade (opps : list Order.t) :
  forall order ts d d' o',
    matchLoop order opps ts d = (d', o', Ok ts) -> d' = d /\ o' = order.
Proof.
  induction opps as [|R rest IH]; simpl; intros order ts d d' o' H.
  - inversion H; auto.
  - destruct (Order.qtyFilledUnits order >=? Order.qtyUnits order).
    { inversion H; auto. }
    destruct (Order.qtyFilledUnits R >=? Order.qtyUnits R);
      [exact (IH _ _ _ _ _ H)|].
    destruct (canMatch order R); [|exact (IH _ _ _ _ _ H)].
    destruct (executeTrade order R d) as [[d1 [o1 R1]] [t0|e]];
      [|discriminate].
    apply matchLoop_trades in H. destruct H as (new & Hts & _).
    exfalso. apply (f_equal (@length Trade.t)) in Hts.
    rewrite !length_app in Hts. simpl in Hts. lia.
Qed.

(** X15.  Resting orders reserve nothing ([validateOrder] after
    [addOrder]).  When an order was accepted without a trade, so that it
    rests OPEN or was a MARKET order without liquidity, positions and cash
    are as before and the same order passes validation again: the units
    or the cash that an open order would need are not set aside. *)
Theorem open_orders_reserve_nothing (now : Z) (order : Order.t) (d d' : DB)
    (o' : Order.t) :
  addOrder now order d = (d', Ok (o', [])) ->
  positions d' = positions d /\ portfolios d' = portfolios d /\
  validateOrder order d' = (d', Ok tt).
Proof.
  intros H. apply addOrder_ok_inv in H.
  destruct H as (d2 & o2 & Hv & Hm & Hs).
  unfold matchOrder in Hm. apply matchLoop_no_trade in Hm.
  destruct Hm as [-> ->].
  apply saveOrder_inv in Hs.
  destruct Hs as (_ & _ & _ & _ & _ & Hp & Hf & _).
  split; [exact Hp|]. split; [exact Hf|].
  rewrite validateOrder_eq in *. f_equal.
  inversion Hv as [Hv']. rewrite Hv'.
  unfold portfolioOf, positionOfUser in *. rewrite Hp, Hf. exact Hv'.
Qed.

(** X16.  A rejected order is recorded ([addOrder], catch branch).  When
    validation fails, [addOrder] fails with the same error after storing
    the order with status CANCELLED: a new order is appended to the orders
    with a fresh id, the creation date and its filled quantity; no other
    order, no trade, no position and no cash balance changes, and the book
    of every bond is as before. *)
Theorem rejected_order_is_recorded (now : Z) (order : Order.t) (d : DB)
    (e : error) :
  snd (validateOrder order d) = Err e ->
  Order.id order = None ->
  exists row,
    addOrder now order d = (set_orders (orders d ++ [row]) d, Err e) /\
    Order.id row = Some (nextId Order.id (orders d)) /\
    Order.status row = CANCELLED /\
    Order.userId row = Order.userId order /\
    Order.qtyUnits row = Order.qtyUnits order /\
    Order.qtyFilledUnits row = Order.qtyFilledUnits order /\
    (forall bond sd,
       findOpenOrders bond sd (fst (addOrder now order d))
       = findOpenOrders bond sd d).
Proof.
  intros Hv Hid.
  set (row := toRow (Order.set_id (Some (nextId Order.id (orders d)))
                       (stamp now (Order.set_status CANCELLED order)))).
  assert (Hrun : addOrder now order d
                 = (set_orders (orders d ++ [row]) d, Err e)).
  { unfold addOrder. rewrite validateOrder_eq in *. cbn [snd] in Hv.
    rewrite Hv. rewrite saveOrder_new by (destruct order; exact Hid).
    reflexivity. }
  assert (Hst : Order.status row = CANCELLED).
  { unfold row. destruct (toRow_fields
      (Order.set_id (Some (nextId Order.id (orders d)))
         (stamp now (Order.set_status CANCELLED order)))) as (_ & _ & -> & _).
    unfold stamp. destruct order as [? ? ? ? ? ? ? ? ? [c|]]; reflexivity. }
  exists row. split; [exact Hrun|].
  unfold row at 1 3 4 5.
  destruct (toRow_fields
      (Order.set_id (Some (nextId Order.id (orders d)))
         (stamp now (Order.set_status CANCELLED order))))
    as (-> & -> & _ & -> & ->).
  split; [reflexivity|]. split; [exact Hst|].
  split; [unfold stamp; destruct order as [? ? ? ? ? ? ? ? ? [c|]]; reflexivity|].
  split; [unfold stamp; destruct order as [? ? ? ? ? ? ? ? ? [c|]]; reflexivity|].
  split; [unfold stamp; destruct order as [? ? ? ? ? ? ? ? ? [c|]]; reflexivity|].
  intros bond sd. rewrite Hrun. cbn [fst].
  apply findOpenOrders_app_closed. rewrite Hst. discriminate.
Qed.

Lemma updatePositions_error (b s : Order.t) (p : jsval) (q : Z) (d d' : DB)
    (e : error) :
  updatePositions b s p q d = (d', Err e) ->
  e = TypeError /\ portfolios d' = portfolios d /\
  (portfolioOf (Order.userId b) d = None \/
   portfolioOf (Order.userId s) d = None).
Proof.
  rewrite updatePositions_eq.
  destruct (portfolioOf (Order.userId b) d) as [bp|]; cbv zeta.
  - destruct (portfolioOf (Order.userId s) d) as [sp|]; intros H;
      inversion H; subst; auto.
  - intros H; inversion H; subst; auto.
Qed.

Lemma updatePortfolios_error (b s : Order.t) (p : jsval) (q : Z) (d d' : DB)
    (e : error) :
  updatePortfolios b s p q d = (d', Err e) ->
  e = TypeError \/ e = QueryFailedError.
Proof.
  rewrite updatePortfolios_eq. cbv zeta.
  destruct (portfolioOf (Order.userId b) d) as [bp|].
  - destruct (findOne _ _) as [sp|]; [destruct (creditedCash _ _)|];
      intros H; inversion H; auto.
  - intros H; inversion H; auto.
Qed.

Lemma executeTrade_error (b s : Order.t) (d d' : DB) (oo : Order.t * Order.t)
    (e : error) :
  executeTrade b s d = (d', oo, Err e) ->
  (e = TypeError \/ e = QueryFailedError) /\
  (e = TypeError -> tradeAccepted (createTrade b s) d = true).
Proof.
  intros H.
  pose proof (executeTrade_steps _ _ _ _ _ _ H) as Hst.
  destruct Hst as [(_ & _ & Hr)|(Hacc & Hst)].
  { inversion Hr; subst. split; [auto|discriminate]. }
  split; [|intros _; exact Hacc].
  cbv zeta in Hst. destruct Hst as (d2 & r2 & Hup & Hrest).
  destruct r2 as [[]|e2].
  - destruct Hrest as (r3 & Hpf & Hr3). destruct r3 as [[]|e3]; [contradiction|].
    subst e3. exact (updatePortfolios_error _ _ _ _ _ _ _ Hpf).
  - destruct Hrest as [_ Hr]. inversion Hr; subst.
    apply updatePositions_error in Hup. left. apply Hup.
Qed.

Lemma matchLoop_error (opps : list Order.t) :
  forall order ts d d' o' e,
    matchLoop order opps ts d = (d', o', Err e) ->
    (e = TypeError \/ e = QueryFailedError) /\
    (e = TypeError -> exists new t, trades d' = trades d ++ new ++ [t]).
Proof.
  induction opps as [|R rest IH]; simpl; intros order ts d d' o' e H.
  - discriminate.
  - destruct (Order.qtyFilledUnits order >=? Order.qtyUnits order);
      [discriminate|].
    destruct (Order.qtyFilledUnits R >=? Order.qtyUnits R);
      [exact (IH _ _ _ _ _ _ H)|].
    destruct (canMatch order R); [|exact (IH _ _ _ _ _ _ H)].
    destruct (executeTrade order R d) as [[d1 [o1 R1]] [t0|e0]] eqn:E.
    + apply executeTrade_log in E. destruct E as (new0 & Ht & _ & Hok & _).
      rewrite (Hok t0 eq_refl) in Ht.
      apply IH in H. destruct H as (He & Hlog).
      split; [exact He|]. intros Hty.
      destruct (Hlog Hty) as (new & t' & Hn).
      exists (t0 :: new), t'.
      rewrite Hn, Ht, <- app_assoc. reflexivity.
    + inversion H; subst.
      pose proof (executeTrade_error _ _ _ _ _ _ E) as (He & Hacc).
      split; [exact He|]. intros Hty.
      apply executeTrade_log in E. destruct E as (new0 & Ht & _ & _ & Hnew & _).
      rewrite (Hnew (Hacc Hty)) in Ht.
      eexists [], _. exact Ht.
Qed.

(** X17.  A failure after validation ([addOrder], [executeTrade]).  When
    an order passes validation and [addOrder] fails all the same, the
    error is a QueryFailedError, a statement that the database rejected,
    or the TypeError of a settlement that found no portfolio.  Nothing is
    rolled back: with a TypeError the trade of that settlement is already
    stored and stays so.  For an order without a primary key the error is
    the QueryFailedError of its first trade, and trades, positions and
    portfolios are what they were. *)
Theorem failure_after_validation (now : Z) (order : Order.t)
    (d d' : DB) (e : error) :
  validateOrder order d = (d, Ok tt) ->
  addOrder now order d = (d', Err e) ->
  (e = TypeError \/ e = QueryFailedError) /\
  (e = TypeError -> exists new t, trades d' = trades d ++ new ++ [t]) /\
  (Order.id order = None ->
   e = QueryFailedError /\ trades d' = trades d /\
   positions d' = positions d /\ portfolios d' = portfolios d).
Proof.
  intros Hv H.
  assert (Hnew : Order.id order = None ->
            e = QueryFailedError /\ trades d' = trades d /\
            positions d' = positions d /\ portfolios d' = portfolios d).
  { intros Hid.
    pose proof (addOrder_new_frame now order d Hid) as Hfr.
    rewrite H in Hfr. cbn [fst] in Hfr. split; [|exact Hfr].
    unfold addOrder in H. rewrite Hv in H.
    destruct (matchOrder_new order d Hid) as [Hm|Hm]; rewrite Hm in H.
    - rewrite saveOrder_inserted in H by exact Hid. discriminate.
    - injection H as _ He. symmetry. exact He. }
  unfold addOrder in H. rewrite Hv in H.
  unfold matchOrder in H.
  destruct (matchLoop order _ [] d) as [[d2 o2] [ts|e2]] eqn:Em.
  - destruct (saveOrder_ok now (Order.set_status (statusAfterMatch o2) o2) d2)
      as (d3 & o3 & Hs).
    rewrite Hs in H. discriminate.
  - injection H as Hd' He'. subst e2.
    apply matchLoop_error in Em. destruct Em as (He & Hlog).
    split; [exact He|]. split; [|exact Hnew].
    intros Hty. destruct (Hlog Hty) as (new & t & Hn).
    exists new, t.
    destruct (saveOrder_frame now (Order.set_status CANCELLED o2) d2)
      as (Ht & _).
    change (fst (saveOrder now (Order.set_status CANCELLED o2) d2) = d') in Hd'.
    rewrite <- Hd', Ht. exact Hn.
Qed.

Lemma matchLoop_new_result (opps : list Order.t) :
  forall order ts d,
    Order.id order = None ->
    matchLoop order opps ts d =
    (d, order, if matchable order opps then Err QueryFailedError else Ok ts).
Proof.
  unfold matchable.
  induction opps as [|R rest IH]; simpl; intros order ts d Hid.
  - rewrite andb_false_r. reflexivity.
  - rewrite !Z.geb_leb.
    destruct (Z.leb_spec (Order.qtyUnits order) (Order.qtyFilledUnits order)) as [Ho|Ho].
    { replace (Order.qtyFilledUnits order <? Order.qtyUnits order) with false
        by (symmetry; apply Z.ltb_ge; lia). reflexivity. }
    specialize (IH order ts d Hid).
    replace (Order.qtyFilledUnits order <? Order.qtyUnits order) with true in *
      by (symmetry; apply Z.ltb_lt; lia).
    cbn [andb] in *.
    destruct (Z.leb_spec (Order.qtyUnits R) (Order.qtyFilledUnits R)) as [HR|HR].
    { replace (Order.qtyFilledUnits R <? Order.qtyUnits R) with false
        by (symmetry; apply Z.ltb_ge; lia). exact IH. }
    replace (Order.qtyFilledUnits R <? Order.qtyUnits R) with true
      by (symmetry; apply Z.ltb_lt; lia).
    cbn [andb orb].
    destruct (canMatch order R); [|exact IH].
    rewrite (executeTrade_new order R d Hid). reflexivity.
Qed.

(** X26.  A submitted order cannot trade ([addOrder], [matchOrder],
    [executeTrade]).  An order as it is submitted (no primary key,
    nothing filled, a quantity of at least 1) that passes validation is
    stored as one new row, and nothing else is written.  When an OPEN
    order of the bond on the opposite side is unfilled and accepted by
    [canMatch], the insert of the trade is rejected, because the trade is
    saved before the order and so names no buy order: [addOrder] fails
    with QueryFailedError and the order is stored CANCELLED.  Otherwise
    [addOrder] returns the order without a trade, OPEN if it is a LIMIT
    order and CANCELLED if it is a MARKET order. *)
Theorem submitted_order_cannot_trade (now : Z) (order : Order.t) (d : DB) :
  Order.id order = None ->
  Order.qtyFilledUnits order = 0 ->
  0 < Order.qtyUnits order ->
  validateOrder order d = (d, Ok tt) ->
  (matchable order (fetched order d) = true <->
   exists R, In R (orders d) /\ Order.status R = OPEN /\
             Order.bondId R = Order.bondId order /\
             Order.side R = oppositeOf (Order.side order) /\
             Order.qtyFilledUnits R < Order.qtyUnits R /\
             canMatch order R = true) /\
  (matchable order (fetched order d) = true ->
   addOrder now order d =
   (set_orders
      (orders d ++ [toRow (inserted now (Order.set_status CANCELLED order) d)]) d,
    Err QueryFailedError)) /\
  (matchable order (fetched order d) = false ->
   let status := match Order.orderType order with
                 | LIMIT => OPEN
                 | MARKET => CANCELLED
                 end in
   addOrder now order d =
   (set_orders
      (orders d ++ [toRow (inserted now (Order.set_status status order) d)]) d,
    Ok (inserted now (Order.set_status status order) d, []))).
Proof.
  intros Hid Hf Hq Hv.
  assert (Hst : statusAfterMatch order =
                match Order.orderType order with
                | LIMIT => OPEN
                | MARKET => CANCELLED
                end).
  { unfold statusAfterMatch. rewrite Hf.
    destruct (0 =? Order.qtyUnits order) eqn:E; [apply Z.eqb_eq in E; lia|].
    reflexivity. }
  assert (Hrun : addOrder now order d =
            if matchable order (fetched order d)
            then (set_orders
                    (orders d ++
                     [toRow (inserted now (Order.set_status CANCELLED order) d)]) d,
                  Err QueryFailedError)
            else (set_orders
                    (orders d ++
                     [toRow (inserted now
                               (Order.set_status (statusAfterMatch order) order) d)]) d,
                  Ok (inserted now
                        (Order.set_status (statusAfterMatch order) order) d, []))).
  { unfold addOrder. rewrite Hv. unfold matchOrder.
    rewrite (matchLoop_new_result _ order [] d Hid). unfold fetched.
    destruct (matchable order _);
      rewrite saveOrder_inserted by exact Hid; reflexivity. }
  split; [|split].
  - unfold matchable.
    replace (Order.qtyFilledUnits order <? Order.qtyUnits order) with true
      by (symmetry; apply Z.ltb_lt; lia).
    cbn [andb]. rewrite existsb_exists. split.
    + intros (R & HR & Hc). apply andb_true_iff in Hc. destruct Hc as [Hlt Hc].
      unfold fetched in HR. apply findOpenOrders_In in HR.
      destruct HR as (Hin & Hb & Hs & Ho).
      apply Z.ltb_lt in Hlt. exists R. auto 10.
    + intros (R & Hin & Ho & Hb & Hs & Hlt & Hc). exists R. split.
      * unfold fetched. apply findOpenOrders_In. auto.
      * apply andb_true_iff. split; [apply Z.ltb_lt; exact Hlt|exact Hc].
  - intros Hm. rewrite Hrun, Hm. reflexivity.
  - intros Hm. cbv zeta. rewrite Hrun, Hm, Hst. reflexivity.
Qed.

Lemma toRow_keeps (o : Order.t) :
  Order.bondId (toRow o) = Order.bondId o /\
  Order.side (toRow o) = Order.side o /\
  Order.orderType (toRow o) = Order.orderType o /\
  Order.createdAt (toRow o) = Order.createdAt o.
Proof. unfold toRow. destruct (Order.priceLimit o); auto. Qed.

Lemma saveOrder_keeps (now : Z) (o : Order.t) (d d' : DB) (o' : Order.t) :
  saveOrder now o d = (d', Ok o') ->
  Order.userId o' = Order.userId o /\
  Order.bondId o' = Order.bondId o /\
  Order.side o' = Order.side o.
Proof.
  unfold saveOrder. intros H. inversion H; subst. clear H.
  assert (Hst : forall x, Order.userId (stamp now x) = Order.userId x /\
                          Order.bondId (stamp now x) = Order.bondId x /\
                          Order.side (stamp now x) = Order.side x).
  { intros x. unfold stamp. destruct (Order.createdAt x); auto. }
  destruct (isStored o (orders d)).
  - destruct (Order.id o); auto.
  - destruct (Hst o) as (H1 & H2 & H3).
    destruct (Order.id (stamp now o)); cbn; auto.
Qed.

(** X18.  An accepted order is on the book exactly when it is OPEN
    ([addOrder] followed by [getOrderBookSide]).  After an order is
    accepted, the order stored under its id is among the orders of the
    book levels of its bond and side when its status is OPEN, and no level
    of any book holds an order with its id when its status is anything
    else. *)
Theorem accepted_order_is_on_the_book_iff_open (now : Z) (order : Order.t)
    (d d' : DB) (o' : Order.t) (ts : list Trade.t) :
  addOrder now order d = (d', Ok (o', ts)) ->
  (Order.status o' = OPEN ->
   In (toRow o') (bookOrders (Order.bondId order) (Order.side order) d')) /\
  (forall bond sd x,
     In x (bookOrders bond sd d') -> Order.id x = Order.id o' ->
     Order.status o' = OPEN /\ x = toRow o' /\
     bond = Order.bondId order /\ sd = Order.side order).
Proof.
  intros H.
  destruct (addOrder_matchLoop _ _ _ _ _ _ H) as (d2 & o2 & Hm & Hs).
  pose proof (matchLoop_order _ _ _ _ _ _ _ Hm) as Hfrom.
  destruct (filledFrom_fields _ _ Hfrom) as (_ & _ & Hb2 & Hs2 & _).
  destruct (saveOrder_keeps _ _ _ _ _ Hs) as (_ & Hb' & Hs').
  cbn in Hb', Hs'.
  apply saveOrder_inv in Hs.
  destruct Hs as (_ & _ & _ & _ & _ & _ & _ & _ & Hin & _ & Huniq).
  destruct (toRow_fields o') as (_ & _ & Hrst & _).
  destruct (toRow_keeps o') as (Hrb & Hrs & _).
  split.
  - intros Hopen. apply bookOrders_In, findOpenOrders_In.
    repeat split; [exact Hin|congruence|congruence|congruence].
  - intros bond sd x Hx Hid. apply bookOrders_In, findOpenOrders_In in Hx.
    destruct Hx as (Hxin & Hxb & Hxs & Hxst).
    pose proof (Huniq x Hxin Hid) as ->.
    repeat split; congruence.
Qed.

(** * OrdersService *)

Lemma find_unique {T : Type} (p : T -> bool) (rows : list T) (y : T) :
  In y rows -> p y = true ->
  (forall x, In x rows -> p x = true -> x = y) ->
  find p rows = Some y.
Proof.
  intros Hin Hp Hu. destruct (find p rows) as [x|] eqn:E.
  - apply find_some in E. destruct E as [Hx Hpx]. rewrite (Hu x Hx Hpx).
    reflexivity.
  - exfalso. pose proof (find_none _ _ E y Hin). congruence.
Qed.

(** X19.  Looking an order up ([getOrderById], after [addOrder], and
    [cancelOrder]).  [getOrderById] returns a stored order with the given
    id and user, or fails with "not found" when no stored order has both.
    After an order is accepted, its owner finds the stored order under the
    returned id, and every other user gets "not found".  [cancelOrder]
    returns true exactly when [getOrderById] finds an OPEN order. *)
Theorem order_lookup_is_by_id_and_owner (i u : nat) (d : DB) :
  (forall o, getOrderById i u d = inr o ->
     In o (orders d) /\ Order.id o = Some i /\ Order.userId o = u) /\
  (forall err, getOrderById i u d = inl err ->
     err = OrderNotFound i /\
     forall o, In o (orders d) -> Order.id o = Some i -> Order.userId o <> u) /\
  (forall now order d0 o' ts,
     addOrder now order d0 = (d, Ok (o', ts)) -> Order.id o' = Some i ->
     getOrderById i (Order.userId order) d = inr (toRow o') /\
     (u <> Order.userId order -> getOrderById i u d = inl (OrderNotFound i))) /\
  (forall now,
     snd (cancelOrder now i u d) = Ok true <->
     exists o, getOrderById i u d = inr o /\ Order.status o = OPEN).
Proof.
  unfold getOrderById.
  assert (Hhas : forall o : Order.t,
            hasId Order.id i o = true <-> Order.id o = Some i).
  { intros o. unfold hasId. destruct (Order.id o) as [j|].
    - rewrite Nat.eqb_eq. split; congruence.
    - split; discriminate. }
  split; [|split; [|split]].
  - intros o H. destruct (findOne _ _) as [x|] eqn:E; inversion H; subst.
    apply find_some in E. destruct E as [Hin Hp].
    apply andb_true_iff in Hp. destruct Hp as [H1 H2].
    apply Hhas in H1. apply Nat.eqb_eq in H2. auto.
  - intros err H. destruct (findOne _ _) as [x|] eqn:E; inversion H; subst.
    split; [reflexivity|]. intros o Hin Hid Hu.
    pose proof (find_none _ _ E o Hin) as Hn. cbn in Hn.
    apply Hhas in Hid. rewrite Hid in Hn. apply Nat.eqb_eq in Hu.
    rewrite Hu in Hn. discriminate.
  - intros now order d0 o' ts H Hid.
    destruct (addOrder_matchLoop _ _ _ _ _ _ H) as (d2 & o2 & Hm & Hs).
    pose proof (matchLoop_order _ _ _ _ _ _ _ Hm) as Hfrom.
    destruct (filledFrom_fields _ _ Hfrom) as (_ & Hu2 & _).
    destruct (saveOrder_keeps _ _ _ _ _ Hs) as (Hu' & _). cbn in Hu'.
    apply saveOrder_inv in Hs.
    destruct Hs as (_ & _ & _ & _ & _ & _ & _ & _ & Hin & _ & Huniq).
    destruct (toRow_fields o') as (Hrid & Hru & _).
    split.
    + unfold findOne. rewrite (find_unique _ _ (toRow o')); [reflexivity|exact Hin| |].
      * apply andb_true_iff. split; [apply Hhas; congruence|].
        apply Nat.eqb_eq. congruence.
      * intros x Hx Hp. apply andb_true_iff in Hp. destruct Hp as [H1 _].
        apply Hhas in H1. apply Huniq; [exact Hx|congruence].
    + intros Hne. unfold findOne.
      destruct (find _ (orders d)) as [x|] eqn:E; [|reflexivity].
      exfalso. apply find_some in E. destruct E as [Hx Hp].
      apply andb_true_iff in Hp. destruct Hp as [H1 H2].
      apply Hhas in H1. apply Nat.eqb_eq in H2.
      assert (x = toRow o') by (apply Huniq; [exact Hx|congruence]).
      subst x. apply Hne. congruence.
  - intros now. rewrite cancelOrder_eq. unfold ownedOrder.
    destruct (findOne _ (orders d)) as [o|].
    + destruct (Status_eqb (Order.status o) OPEN) eqn:E; cbn [snd].
      * apply Status_eqb_eq in E. split; [|reflexivity].
        intros _. exists o. auto.
      * split; [discriminate|]. intros (o1 & Ho1 & Hst). inversion Ho1; subst.
        apply Status_eqb_eq in Hst. congruence.
    + cbn [snd]. split; [discriminate|]. intros (o1 & Ho1 & _). discriminate.
Qed.

Lemma newest_leb_total (a b : Order.t) :
  newest_leb a b = false -> newest_leb b a = true.
Proof.
  unfold newest_leb.
  rewrite (created_cmp_antisym (Order.createdAt a) (Order.createdAt b)).
  destruct (created_cmp _ _); simpl; congruence.
Qed.

Lemma newest_leb_trans (a b c : Order.t) :
  newest_leb a b = true -> newest_leb b c = true -> newest_leb a c = true.
Proof.
  unfold newest_leb. intros H1 H2.
  pose proof (created_cmp_le_trans (Order.createdAt c) (Order.createdAt b)
                (Order.createdAt a)) as H.
  rewrite (created_cmp_antisym (Order.createdAt a) (Order.createdAt b)) in H.
  rewrite (created_cmp_antisym (Order.createdAt b) (Order.createdAt c)) in H.
  rewrite (created_cmp_antisym (Order.createdAt a) (Order.createdAt c)) in H.
  destruct (created_cmp (Order.createdAt a) (Order.createdAt b));
    try discriminate;
    destruct (created_cmp (Order.createdAt b) (Order.createdAt c));
    try discriminate;
    destruct (created_cmp (Order.createdAt a) (Order.createdAt c));
    try reflexivity; exfalso; simpl in H; apply H; congruence.
Qed.

(** X20.  The orders of a user, newest first ([getUserOrders]).  The
    result holds exactly the stored orders of the user, each once, and
    never an order of another user; of two returned orders with creation
    dates the earlier one in the list is not older. *)
Theorem user_orders_are_listed_newest_first (u : nat) (d : DB) :
  Permutation (getUserOrders u d)
    (filter (fun o => Nat.eqb (Order.userId o) u) (orders d)) /\
  (forall o, In o (getUserOrders u d) <->
             In o (orders d) /\ Order.userId o = u) /\
  (forall l1 a l2 b l3 s t,
     getUserOrders u d = l1 ++ a :: l2 ++ b :: l3 ->
     Order.createdAt a = Some s -> Order.createdAt b = Some t -> t <= s).
Proof.
  unfold getUserOrders. split; [apply sortBy_Permutation|]. split.
  - intros o. rewrite In_sortBy, filter_In, Nat.eqb_eq. reflexivity.
  - intros l1 a l2 b l3 s t Hl Ha Hb.
    assert (Hs : StronglySorted (fun a b => newest_leb a b = true)
                   (sortBy newest_leb
                      (filter (fun o => Nat.eqb (Order.userId o) u) (orders d)))).
    { apply (sortBy_sorted _ (fun _ => True)).
      - intros x y _ _. apply newest_leb_total.
      - intros x y z _ _ _. apply newest_leb_trans.
      - apply Forall_forall. intros; exact I. }
    rewrite Hl in Hs. apply sorted_before in Hs.
    unfold newest_leb in Hs. rewrite Ha, Hb in Hs. cbn in Hs.
    destruct (Z.compare_spec s t); try discriminate; lia.
Qed.

(** * PortfolioService *)

Lemma getPortfolio_eq (bonds : list Bond.t) (u : nat) (d : DB) :
  getPortfolio bonds u d =
  match portfolioOf u d with
  | None =>
      (set_portfolios
         (portfolios d ++
          [Portfolio.mk (nextId portfolioKey (portfolios d)) u (Num 0)]) d,
       Ok emptyView)
  | Some p =>
      match mapResult (positionView bonds)
              (filter (fun x : Position.t =>
                         Nat.eqb (Position.portfolioId x) (Portfolio.id p))
                      (positions d)) with
      | Ok pvs =>
          (d, Ok (PortfolioView.mk (Portfolio.cashBalance p) pvs
                    (fold_left
                       (fun sum pos =>
                          (fst sum, snd sum ++ [PositionView.marketValue pos]))
                       pvs (Portfolio.cashBalance p, []))))
      | Err e => (d, Err e)
      end
  end.
Proof.
  unfold getPortfolio, bind. rewrite findPortfolio_eq.
  destruct (portfolioOf u d) as [p|]; [|reflexivity].
  unfold gets. destruct (mapResult _ _); reflexivity.
Qed.

Lemma filter_none {T : Type} (f : T -> bool) (l : list T) :
  (forall x, In x l -> f x = false) -> filter f l = [].
Proof.
  induction l as [|y l IH]; simpl; intros H; [reflexivity|].
  rewrite (H y (or_introl eq_refl)). apply IH. intros x Hx. apply H. auto.
Qed.

Lemma nextId_not_in (rows : list Portfolio.t) :
  ~ In (nextId portfolioKey rows) (map Portfolio.id rows).
Proof.
  intros H. apply in_map_iff in H. destruct H as (x & Hx & Hin).
  pose proof (nextId_bound portfolioKey rows x (Portfolio.id x) Hin eq_refl).
  lia.
Qed.

Lemma positionView_value (bonds : list Bond.t) (x : Position.t)
    (pv : PositionView.t) :
  positionView bonds x = Ok pv ->
  PositionView.bondId pv = Position.bondId x /\
  PositionView.qty pv = Position.qtyUnits x /\
  PositionView.avgPrice pv = Position.avgPricePerUnit x /\
  exists px m,
    PositionView.currentPrice pv = Num px /\
    PositionView.marketValue pv = Num m /\
    (m == inject_Z (Position.qtyUnits x) * px)%Q.
Proof.
  unfold positionView. destruct (findOne _ bonds) as [b|]; [|discriminate].
  intros H. injection H as <-.
  cbn [PositionView.bondId PositionView.qty PositionView.avgPrice
       PositionView.currentPrice PositionView.marketValue].
  repeat split.
  assert (Hz : exists px, orZero (Bond.lastTradedPrice b) = Num px).
  { unfold orZero. destruct (Bond.lastTradedPrice b) as [q| |]; eauto.
    destruct (Qeq_bool q 0); eauto. }
  destruct Hz as (px & ->). unfold JS.mul, ofZ.
  exists px, (Qred (inject_Z (Position.qtyUnits x) * px)).
  split; [reflexivity|]. split; [reflexivity|]. apply Qred_correct.
Qed.

Lemma mapResult_views (bonds : list Bond.t) (xs : list Position.t) :
  forall pvs,
    mapResult (positionView bonds) xs = Ok pvs ->
    Forall2 (fun x pv => positionView bonds x = Ok pv) xs pvs.
Proof.
  induction xs as [|x xs IH]; simpl; intros pvs H.
  - inversion H. constructor.
  - destruct (positionView bonds x) as [pv|] eqn:E; [|discriminate].
    destruct (mapResult (positionView bonds) xs) as [ys|]; [|discriminate].
    inversion H; subst. constructor; [exact E|]. apply IH. reflexivity.
Qed.

Lemma total_fold (pvs : list PositionView.t) :
  forall (c : jsnum) (l : list jsnum),
    fold_left
      (fun sum pos => (fst sum, snd sum ++ [PositionView.marketValue pos]))
      pvs (c, l)
    = (c, l ++ map PositionView.marketValue pvs).
Proof.
  induction pvs as [|pv pvs IH]; intros c l; simpl.
  - rewrite app_nil_r. reflexivity.
  - rewrite IH, <- app_assoc. reflexivity.
Qed.

(** X21.  [getPortfolio] creates a missing portfolio, once.  For a user
    without a portfolio it stores one new portfolio of the user with cash
    0 under an unused id, changes nothing else and returns the empty view.
    A second call returns the empty view again and changes nothing (when
    every position belongs to a stored portfolio).  From then on a BUY
    order of the user that needs a positive amount fails with
    InsufficientCash, where before it failed with a TypeError.  For a user
    with a portfolio [getPortfolio] changes nothing. *)
Theorem portfolio_is_created_once (bonds : list Bond.t) (u : nat) (d : DB) :
  (portfolioOf u d <> None -> fst (getPortfolio bonds u d) = d) /\
  (portfolioOf u d = None ->
   exists p,
     getPortfolio bonds u d
     = (set_portfolios (portfolios d ++ [p]) d, Ok emptyView) /\
     Portfolio.userId p = u /\ Portfolio.cashBalance p = Num 0 /\
     ~ In (Portfolio.id p) (map Portfolio.id (portfolios d)) /\
     ((forall x, In x (positions d) ->
         In (Position.portfolioId x) (map Portfolio.id (portfolios d))) ->
      getPortfolio bonds u (fst (getPortfolio bonds u d))
      = (fst (getPortfolio bonds u d), Ok emptyView)) /\
     (forall order L,
        Order.userId order = u -> Order.side order = BUY ->
        Order.priceLimit order = VNum L ->
        (0 < L * inject_Z (Order.qtyUnits order))%Q ->
        snd (validateOrder order d) = Err TypeError /\
        snd (validateOrder order (fst (getPortfolio bonds u d)))
        = Err InsufficientCash)).
Proof.
  split.
  - intros H. rewrite getPortfolio_eq.
    destruct (portfolioOf u d) as [p|]; [|congruence].
    destruct (mapResult _ _); reflexivity.
  - intros Hnone.
    set (p := Portfolio.mk (nextId portfolioKey (portfolios d)) u (Num 0)).
    assert (Hrun : getPortfolio bonds u d
                   = (set_portfolios (portfolios d ++ [p]) d, Ok emptyView)).
    { rewrite getPortfolio_eq, Hnone. reflexivity. }
    assert (Hfind : portfolioOf u (set_portfolios (portfolios d ++ [p]) d)
                    = Some p).
    { unfold portfolioOf, findOne in *. cbn [portfolios set_portfolios].
      rewrite find_app_last, Hnone. cbn. rewrite Nat.eqb_refl. reflexivity. }
    exists p. split; [exact Hrun|]. split; [reflexivity|].
    split; [reflexivity|]. split; [apply nextId_not_in|].
    rewrite Hrun. cbn [fst]. split.
    + intros Hfk. rewrite getPortfolio_eq, Hfind.
      cbn [positions set_portfolios].
      assert (Hnil : filter (fun x : Position.t =>
                               Nat.eqb (Position.portfolioId x) (Portfolio.id p))
                            (positions d) = []).
      { apply filter_none.
        intros x Hx. apply Nat.eqb_neq. intros E.
        apply (nextId_not_in (portfolios d)).
        change (nextId portfolioKey (portfolios d)) with (Portfolio.id p).
        rewrite <- E. apply Hfk, Hx. }
      rewrite Hnil. reflexivity.
    + intros order L Hu Hside HL Hpos. rewrite !validateOrder_eq. cbn [snd].
      rewrite Hside, Hu, Hnone, Hfind. split; [reflexivity|].
      rewrite HL.
      destruct (orZero_mul L (Order.qtyUnits order)) as (r & -> & Hr).
      cbn [Portfolio.cashBalance p]. unfold JS.lt.
      destruct (Qle_bool r 0) eqn:E; [|reflexivity].
      apply Qle_bool_iff in E. lra.
Qed.

(** X22.  The view that [getPortfolio] returns.  For a user with a
    portfolio whose positions all have their bond, the view shows the
    cash of the portfolio and one entry per position of the portfolio, in
    their order, with the bond, quantity and average price of the
    position; the market value of an entry is its quantity times the last
    traded price of the bond, 0 when there is none.  The total value is
    not a sum: the [reduce] starts from the cash as the decimal column
    gives it, a text, so what is returned is the cash followed by the
    digits of the market values, entry by entry.  If a position has no
    bond the call fails with a TypeError.  The state is unchanged. *)
Theorem portfolio_view_appends_the_values (bonds : list Bond.t) (u : nat)
    (d : DB) (p : Portfolio.t) :
  portfolioOf u d = Some p ->
  (forall v, getPortfolio bonds u d = (d, Ok v) ->
     PortfolioView.cash v = Portfolio.cashBalance p /\
     Forall2 (fun x pv =>
                PositionView.bondId pv = Position.bondId x /\
                PositionView.qty pv = Position.qtyUnits x /\
                PositionView.avgPrice pv = Position.avgPricePerUnit x /\
                exists px m,
                  PositionView.currentPrice pv = Num px /\
                  PositionView.marketValue pv = Num m /\
                  (m == inject_Z (Position.qtyUnits x) * px)%Q)
             (filter (fun x => Nat.eqb (Position.portfolioId x) (Portfolio.id p))
                     (positions d))
             (PortfolioView.positions v) /\
     PortfolioView.totalValue v
     = (Portfolio.cashBalance p,
        map PositionView.marketValue (PortfolioView.positions v))) /\
  (snd (getPortfolio bonds u d) = Err TypeError <->
   exists x, In x (positions d) /\
             Position.portfolioId x = Portfolio.id p /\
             forall b, In b bonds -> Bond.id b <> Position.bondId x) /\
  (forall v, snd (getPortfolio bonds u d) = Ok v ->
             getPortfolio bonds u d = (d, Ok v)).
Proof.
  intros Hp. rewrite getPortfolio_eq, Hp.
  set (xs := filter (fun x : Position.t =>
                       Nat.eqb (Position.portfolioId x) (Portfolio.id p))
                    (positions d)).
  split; [|split].
  - intros v H.
    destruct (mapResult (positionView bonds) xs) as [pvs|e] eqn:E;
      [|discriminate].
    inversion H; subst v; clear H. cbn.
    pose proof (mapResult_views _ _ _ E) as Hviews.
    split; [reflexivity|]. split.
    + eapply Forall2_impl; [|exact Hviews].
      intros x pv Hx. exact (positionView_value _ _ _ Hx).
    + apply total_fold.
  - assert (Herr : forall l,
              (exists e, mapResult (positionView bonds) l = Err e) <->
              exists x, In x l /\
                        forall b, In b bonds -> Bond.id b <> Position.bondId x).
    { induction l as [|x l IH]; simpl.
      - split; [intros (e & He); discriminate|intros (x & [] & _)].
      - unfold positionView at 1. unfold findOne.
        destruct (find _ bonds) as [b|] eqn:Eb.
        + apply find_some in Eb. destruct Eb as [Hb Hbe].
          apply Nat.eqb_eq in Hbe.
          destruct (mapResult (positionView bonds) l) as [ys|e0].
          * split; [intros (e & He); discriminate|].
            intros (y & [->|Hy] & Hno).
            -- exfalso. exact (Hno b Hb Hbe).
            -- destruct (proj2 IH) as (e & He); [eauto|discriminate].
          * split; [|eauto]. intros _.
            destruct (proj1 IH) as (y & Hy & Hno); eauto.
        + split; [|eauto]. intros _. exists x. split; [auto|].
          intros b Hb Hbe. pose proof (find_none _ _ Eb b Hb) as Hn.
          cbn in Hn. apply Nat.eqb_neq in Hn. contradiction. }
    assert (Htype : forall l e, mapResult (positionView bonds) l = Err e ->
                                e = TypeError).
    { induction l as [|x l IH]; simpl; intros e; [discriminate|].
      unfold positionView at 1.
      destruct (findOne _ bonds); [|congruence].
      destruct (mapResult (positionView bonds) l) as [ys|e0];
        [discriminate|]. intros H. inversion H; subst. apply IH. reflexivity. }
    split.
    + intros H. destruct (mapResult (positionView bonds) xs) as [pvs|e] eqn:E;
        [discriminate|].
      destruct (proj1 (Herr xs)) as (x & Hx & Hno); [eauto|].
      unfold xs in Hx. apply filter_In in Hx. destruct Hx as [Hin Hpid].
      apply Nat.eqb_eq in Hpid. exists x. auto.
    + intros (x & Hin & Hpid & Hno).
      destruct (proj2 (Herr xs)) as (e & He).
      { exists x. split; [|exact Hno]. unfold xs. apply filter_In.
        split; [exact Hin|]. apply Nat.eqb_eq, Hpid. }
      rewrite He. cbn [snd]. rewrite (Htype _ _ He). reflexivity.
  - intros v H. destruct (mapResult (positionView bonds) xs) as [pvs|e];
      cbn [snd] in H; [|discriminate]. inversion H; subst. reflexivity.
Qed.

(** * The positions table keeps its keys *)

Lemma hasId_position (i : nat) (y : Position.t) :
  hasId Position.id i y = true <-> Position.id y = Some i.
Proof.
  unfold hasId. destruct (Position.id y) as [j|].
  - rewrite Nat.eqb_eq. split; congruence.
  - split; discriminate.
Qed.

Lemma map_update_same {K : Type} (f : Position.t -> K) (i : nat)
    (r x : Position.t) (rows : list Position.t) :
  NoDup (map Position.id rows) -> In x rows -> Position.id x = Some i ->
  f r = f x ->
  map f (update Position.id i r rows) = map f rows.
Proof.
  intros Hnd Hin Hid Hf. unfold update. rewrite map_map.
  apply map_ext_in. intros y Hy.
  destruct (hasId Position.id i y) eqn:E; [|reflexivity].
  apply hasId_position in E.
  assert (y = x).
  { apply (NoDup_key_eq Position.id rows); auto. congruence. }
  subst y. exact Hf.
Qed.

Lemma filter_update_same (p : Position.t -> bool) (i : nat)
    (r x : Position.t) (rows : list Position.t) :
  NoDup (map Position.id rows) -> In x rows -> Position.id x = Some i ->
  p r = false -> p x = false ->
  filter p (update Position.id i r rows) = filter p rows.
Proof.
  intros Hnd Hin Hid Hr Hx. unfold update.
  assert (H : forall l, (forall y, In y l -> In y rows) ->
            filter p (map (fun y => if hasId Position.id i y then r else y) l)
            = filter p l).
  { induction l as [|y l IH]; simpl; intros Hl; [reflexivity|].
    rewrite IH by (intros z Hz; apply Hl; auto).
    destruct (hasId Position.id i y) eqn:E; [|reflexivity].
    apply hasId_position in E.
    assert (y = x).
    { apply (NoDup_key_eq Position.id rows); auto. congruence. }
    subst y. rewrite Hr, Hx. reflexivity. }
  apply H. auto.
Qed.

Lemma NoDup_map_filter {K : Type} (f : Position.t -> K)
    (p : Position.t -> bool) (rows : list Position.t) :
  NoDup (map f rows) -> NoDup (map f (filter p rows)).
Proof.
  induction rows as [|y rows IH]; simpl; intros H; [constructor|].
  inversion H as [|? ? Hy Hnd]; subst.
  destruct (p y); simpl; [|exact (IH Hnd)].
  constructor; [|exact (IH Hnd)].
  intros Hin. apply Hy. apply in_map_iff in Hin.
  destruct Hin as (z & Hz & Hzin). apply filter_In in Hzin.
  apply in_map_iff. exists z. tauto.
Qed.

Lemma filter_remove_same (p : Position.t -> bool) (i : nat) (x : Position.t)
    (rows : list Position.t) :
  NoDup (map Position.id rows) -> In x rows -> Position.id x = Some i ->
  p x = false ->
  filter p (filter (fun y => negb (hasId Position.id i y)) rows) = filter p rows.
Proof.
  intros Hnd Hin Hid Hx.
  assert (H : forall l, (forall y, In y l -> In y rows) ->
            filter p (filter (fun y => negb (hasId Position.id i y)) l)
            = filter p l).
  { induction l as [|y l IH]; simpl; intros Hl; [reflexivity|].
    destruct (hasId Position.id i y) eqn:E; simpl.
    - apply hasId_position in E.
      assert (y = x).
      { apply (NoDup_key_eq Position.id rows); auto. congruence. }
      subst y. rewrite Hx. apply IH. intros z Hz. apply Hl. auto.
    - rewrite IH by (intros z Hz; apply Hl; auto). reflexivity. }
  apply H. auto.
Qed.

Lemma find_none_key (pid bond : nat) (rows : list Position.t) :
  find (positionWhere pid bond) rows = None ->
  ~ In (pid, bond) (map positionKey rows).
Proof.
  intros Hf Hin. apply in_map_iff in Hin. destruct Hin as (y & Hy & Hyin).
  pose proof (find_none _ _ Hf y Hyin) as Hn.
  unfold positionKey in Hy. inversion Hy; subst.
  unfold positionWhere in Hn. rewrite !Nat.eqb_refl in Hn. discriminate.
Qed.

Lemma keysOk_positionKeys (d : DB) : positionKeys d <-> keysOk (positions d).
Proof. unfold positionKeys, keysOk, positionKey. reflexivity. Qed.

(** Saving a row found by its key (or a new row for a key that is not
    there) keeps the keys and the rows of every other bond. *)
Lemma save_found_keeps (pid bond bond' : nat) (r : Position.t)
    (rows : list Position.t) :
  keysOk rows ->
  positionWhere pid bond r = true ->
  Position.id r = match find (positionWhere pid bond) rows with
                  | Some x => Position.id x
                  | None => None
                  end ->
  bond' <> bond ->
  keysOk (snd (save Position.id Position.set_id r rows)) /\
  filter (fun x => Nat.eqb (Position.bondId x) bond')
         (snd (save Position.id Position.set_id r rows))
  = filter (fun x => Nat.eqb (Position.bondId x) bond') rows.
Proof.
  intros (Hsome & Hnd & Hkey) Hr Hid Hb.
  apply positionWhere_true in Hr. destruct Hr as [Hrp Hrb].
  assert (Hrf : Nat.eqb (Position.bondId r) bond' = false)
    by (apply Nat.eqb_neq; congruence).
  destruct (find (positionWhere pid bond) rows) as [x|] eqn:Ef.
  - apply find_some in Ef. destruct Ef as [Hin Hx].
    apply positionWhere_true in Hx. destruct Hx as [Hxp Hxb].
    destruct (Position.id x) as [i|] eqn:Ei; [|exfalso; exact (Hsome x Hin Ei)].
    rewrite (save_stored Position.id Position.set_id r x i rows Hid Hin Ei).
    split.
    + split; [|split].
      * intros y Hy. unfold update in Hy. apply in_map_iff in Hy.
        destruct Hy as (z & Hz & Hzin).
        destruct (hasId Position.id i z); subst y; [congruence|auto].
      * rewrite (map_update_same Position.id i r x rows Hnd Hin Ei); [exact Hnd|].
        congruence.
      * rewrite (map_update_same positionKey i r x rows Hnd Hin Ei); [exact Hkey|].
        unfold positionKey. congruence.
    + apply (filter_update_same _ i r x rows Hnd Hin Ei Hrf).
      apply Nat.eqb_neq. congruence.
  - rewrite (save_new Position.id Position.set_id r rows Hid).
    set (r' := Position.set_id (Some (nextId Position.id rows)) r).
    split.
    + split; [|split].
      * intros y Hy. apply in_app_or in Hy. destruct Hy as [Hy|[<-|[]]]; auto.
        discriminate.
      * apply position_ids_new, Hnd.
      * rewrite map_app. cbn [map].
        apply NoDup_app_remove_l with (l := []). simpl.
        apply (Permutation_NoDup (l := positionKey r' :: map positionKey rows)).
        -- apply Permutation_cons_append.
        -- constructor; [|exact Hkey].
           replace (positionKey r') with (pid, bond)
             by (unfold positionKey, r'; cbn; congruence).
           apply find_none_key, Ef.
    + rewrite filter_app. cbn [filter].
      replace (Position.bondId r') with (Position.bondId r) by reflexivity.
      rewrite Hrf, app_nil_r. reflexivity.
Qed.

Lemma soldPositions_keeps (pid bond bond' : nat) (q : Z)
    (rows : list Position.t) :
  keysOk rows -> bond' <> bond ->
  keysOk (soldPositions (find (positionWhere pid bond) rows) q rows) /\
  filter (fun x => Nat.eqb (Position.bondId x) bond')
         (soldPositions (find (positionWhere pid bond) rows) q rows)
  = filter (fun x => Nat.eqb (Position.bondId x) bond') rows.
Proof.
  intros Hk Hb. unfold soldPositions.
  destruct (find (positionWhere pid bond) rows) as [x|] eqn:Ef; [|auto].
  pose proof Hk as (Hsome & Hnd & Hkey).
  pose proof (find_some _ _ Ef) as [Hin Hx].
  destruct (Position.id x) as [i|] eqn:Ei; [|exfalso; exact (Hsome x Hin Ei)].
  destruct (Position.qtyUnits x - q <=? 0).
  - unfold remove. cbn [Position.id Position.set_qtyUnits]. rewrite Ei.
    split.
    + split; [|split].
      * intros y Hy. apply filter_In in Hy. apply Hsome, Hy.
      * apply NoDup_map_filter, Hnd.
      * apply NoDup_map_filter, Hkey.
    + apply (filter_remove_same _ i x rows Hnd Hin Ei).
      apply positionWhere_true in Hx. apply Nat.eqb_neq.
      destruct Hx. congruence.
  - apply (save_found_keeps pid bond bond'); [exact Hk| | |exact Hb].
    + exact Hx.
    + rewrite Ef. reflexivity.
Qed.

Lemma updatePositions_keys (b s : Order.t) (p : jsval) (q : Z) (d d' : DB)
    (r : result unit) (bond' : nat) :
  updatePositions b s p q d = (d', r) ->
  keysOk (positions d) ->
  bond' <> Order.bondId b -> bond' <> Order.bondId s ->
  keysOk (positions d') /\ positionsOfBond bond' d' = positionsOfBond bond' d.
Proof.
  rewrite updatePositions_eq. intros H Hk Hb Hs.
  destruct (portfolioOf (Order.userId b) d) as [bp|];
    [|inversion H; subst; auto].
  cbv zeta in H.
  set (found := positionOf (Portfolio.id bp) (Order.bondId b) d) in *.
  set (rb := boughtPosition (Portfolio.id bp) (Order.bondId b) found p q) in *.
  assert (Hfound : found = find (positionWhere (Portfolio.id bp) (Order.bondId b))
                                (positions d)) by reflexivity.
  destruct (boughtPosition_fields (Portfolio.id bp) (Order.bondId b) found p q)
    as (Hw & Hid).
  { intros x Hx. rewrite Hfound in Hx. apply find_some in Hx. apply Hx. }
  fold rb in Hw, Hid. rewrite Hfound in Hid.
  destruct (save_found_keeps (Portfolio.id bp) (Order.bondId b) bond' rb
              (positions d) Hk Hw Hid Hb) as (Hk1 & Hf1).
  set (rows1 := snd (save Position.id Position.set_id rb (positions d))) in *.
  destruct (portfolioOf (Order.userId s) d) as [sp|].
  - inversion H; subst d' r; clear H.
    cbn [positions set_positions]. unfold positionsOfBond.
    cbn [positions set_positions].
    change (positionOf (Portfolio.id sp) (Order.bondId s) (set_positions rows1 d))
      with (find (positionWhere (Portfolio.id sp) (Order.bondId s)) rows1).
    destruct (soldPositions_keeps (Portfolio.id sp) (Order.bondId s) bond' q
                rows1 Hk1 Hs) as (Hk2 & Hf2).
    split; [exact Hk2|]. rewrite Hf2. exact Hf1.
  - inversion H; subst d' r; clear H.
    cbn [positions set_positions]. unfold positionsOfBond.
    cbn [positions set_positions]. split; [exact Hk1|exact Hf1].
Qed.

Lemma executeTrade_keys (b s : Order.t) (d d' : DB) (oo : Order.t * Order.t)
    (r : result Trade.t) (bond' : nat) :
  executeTrade b s d = (d', oo, r) ->
  keysOk (positions d) ->
  bond' <> Order.bondId b -> bond' <> Order.bondId s ->
  keysOk (positions d') /\ positionsOfBond bond' d' = positionsOfBond bond' d.
Proof.
  intros H Hk Hb Hs.
  pose proof (executeTrade_steps _ _ _ _ _ _ H) as Hst.
  destruct Hst as [(_ & -> & _)|(_ & Hst)]; [auto|]. cbv zeta in Hst.
  destruct Hst as (d2 & r2 & Hup & Hrest).
  apply (updatePositions_keys _ _ _ _ _ _ _ bond') in Hup;
    [|exact Hk|exact Hb|exact Hs].
  destruct Hup as (Hk2 & Hf2). unfold positionsOfBond in *.
  cbn [positions set_trades] in Hf2.
  destruct r2 as [[]|e2].
  - destruct Hrest as (r3 & Hpf & _).
    apply updatePortfolios_frame in Hpf. destruct Hpf as (_ & _ & Hp).
    rewrite Hp. auto.
  - destruct Hrest as [-> _]. auto.
Qed.

Lemma matchLoop_keys (bond' : nat) (opps : list Order.t) :
  forall order ts d d' o' r,
    matchLoop order opps ts d = (d', o', r) ->
    keysOk (positions d) ->
    bond' <> Order.bondId order ->
    (forall R, In R opps -> Order.bondId R = Order.bondId order) ->
    keysOk (positions d') /\ positionsOfBond bond' d' = positionsOfBond bond' d.
Proof.
  induction opps as [|R rest IH]; simpl; intros order ts d d' o' r H Hk Hb Hopp.
  - inversion H; subst; auto.
  - assert (Hopp' : forall R', In R' rest -> Order.bondId R' = Order.bondId order)
      by (intros R' HR'; apply Hopp; auto).
    destruct (Order.qtyFilledUnits order >=? Order.qtyUnits order).
    { inversion H; subst; auto. }
    destruct (Order.qtyFilledUnits R >=? Order.qtyUnits R);
      [exact (IH _ _ _ _ _ _ H Hk Hb Hopp')|].
    destruct (canMatch order R); [|exact (IH _ _ _ _ _ _ H Hk Hb Hopp')].
    destruct (executeTrade order R d) as [[d1 [o1 R1]] [t0|e]] eqn:E.
    + pose proof (executeTrade_objects _ _ _ _ _ _ _ E) as Ho1.
      apply (executeTrade_keys _ _ _ _ _ _ bond') in E;
        [|exact Hk|exact Hb|rewrite (Hopp R (or_introl eq_refl)); exact Hb].
      destruct E as (Hk1 & Hf1).
      apply IH in H; [|exact Hk1|rewrite Ho1; exact Hb|].
      * destruct H as (Hk2 & Hf2). split; [exact Hk2|congruence].
      * intros R' HR'. rewrite Ho1. exact (Hopp' R' HR').
    + inversion H; subst.
      apply (executeTrade_keys _ _ _ _ _ _ bond') in E;
        [exact E|exact Hk|exact Hb|].
      rewrite (Hopp R (or_introl eq_refl)); exact Hb.
Qed.

Lemma addOrder_keys (bond' : nat) (now : Z) (order : Order.t) (d : DB) :
  keysOk (positions d) -> bond' <> Order.bondId order ->
  keysOk (positions (fst (addOrder now order d))) /\
  positionsOfBond bond' (fst (addOrder now order d)) = positionsOfBond bond' d.
Proof.
  intros Hk Hb.
  destruct (addOrder now order d) as [d' r] eqn:E. cbn [fst].
  destruct (addOrder_shape _ _ _ _ _ E)
    as (d2 & o2 & r2 & o3 & Hd2 & Hd' & _ & _).
  destruct (saveOrder_frame now o3 d2) as (_ & Hp & _).
  rewrite <- Hd' in Hp. unfold positionsOfBond. rewrite Hp.
  destruct Hd2 as [->|[_ Hm]]; [auto|].
  unfold matchOrder in Hm.
  apply (matchLoop_keys bond') in Hm; [exact Hm|exact Hk|exact Hb|].
  intros R HR. apply findOpenOrders_In in HR. apply HR.
Qed.

(** X23.  The positions table keeps its keys ([updatePositions] under
    [addOrder]).  From a state where every position has an id, ids are
    unique and no two positions have the same portfolio and bond, every
    submission, accepted or not, leads to such a state again: the code
    keeps the unique constraint of the table by itself. *)
Theorem position_keys_are_kept (now : Z) (order : Order.t) (d : DB) :
  positionKeys d -> positionKeys (fst (addOrder now order d)).
Proof.
  intros Hk. apply keysOk_positionKeys. apply keysOk_positionKeys in Hk.
  apply (addOrder_keys (S (Order.bondId order)) now order d Hk). lia.
Qed.

Lemma find_skip_prefix {T : Type} (p : T -> bool) (k m : list T) :
  (forall x, In x k -> p x = false) -> find p (k ++ m) = find p m.
Proof.
  induction k as [|y k IH]; simpl; intros Hk; [reflexivity|].
  rewrite (Hk y (or_introl eq_refl)). apply IH. intros x Hx. apply Hk. auto.
Qed.

Lemma filter_update_miss {T : Type} (getId : T -> option nat) (f : T -> bool)
    (i : nat) (r : T) (rows : list T) :
  f r = false ->
  (forall x, In x rows -> hasId getId i x = true -> f x = false) ->
  filter f (update getId i r rows) = filter f rows.
Proof.
  intros Hr. unfold update. induction rows as [|y rows IH]; intros H; simpl.
  - reflexivity.
  - rewrite IH by (intros x Hx; apply H; right; exact Hx).
    destruct (hasId getId i y) eqn:E.
    + rewrite Hr, (H y (or_introl eq_refl) E). reflexivity.
    + reflexivity.
Qed.

(** The save of an order does not show in the book of another bond,
    when the order is new or stored under its own bond. *)
Lemma saveOrder_other_bond (now : Z) (o : Order.t) (d : DB) (bond' : nat) :
  bond' <> Order.bondId o ->
  (forall x, In x (orders d) -> Order.id x = Order.id o ->
             Order.bondId x = Order.bondId o) ->
  forall sd,
    findOpenOrders bond' sd (fst (saveOrder now o d)) = findOpenOrders bond' sd d.
Proof.
  intros Hb Hrows sd. unfold saveOrder. cbv zeta. cbn [fst].
  set (o1 := if isStored o (orders d) then o else stamp now o).
  set (o2 := match Order.id o1 with
             | Some _ => o1
             | None => Order.set_id (Some (nextId Order.id (orders d))) o1
             end).
  assert (Hb1 : Order.bondId o1 = Order.bondId o /\ Order.id o1 = Order.id o).
  { unfold o1, stamp. destruct (isStored o (orders d)); [auto|].
    destruct (Order.createdAt o); auto. }
  destruct Hb1 as [Hb1 Hi1].
  assert (Hb2 : Order.bondId (toRow o2) = Order.bondId o).
  { destruct (toRow_keeps o2) as (-> & _). unfold o2.
    destruct (Order.id o1); [exact Hb1|]. cbn. exact Hb1. }
  assert (Hf : Nat.eqb (Order.bondId (toRow o2)) bond'
               && Side_eqb (Order.side (toRow o2)) sd
               && Status_eqb (Order.status (toRow o2)) OPEN = false).
  { rewrite Hb2. replace (Nat.eqb (Order.bondId o) bond') with false
      by (symmetry; apply Nat.eqb_neq; congruence). reflexivity. }
  unfold findOpenOrders. cbn [orders set_orders]. f_equal.
  unfold save. destruct (toRow_fields o2) as (-> & _).
  destruct (Order.id o2) as [i|] eqn:Ei.
  - destruct (existsb (hasId Order.id i) (orders d)) eqn:Ex; cbn [snd].
    + apply filter_update_miss; [exact Hf|].
      intros x Hx Hxi. unfold hasId in Hxi.
      destruct (Order.id x) as [j|] eqn:Ej; [|discriminate].
      apply Nat.eqb_eq in Hxi. subst j.
      assert (Hio : Order.id o = Some i).
      { rewrite <- Hi1. unfold o2 in Ei.
        destruct (Order.id o1) as [k|] eqn:Ek; [congruence|].
        exfalso. cbn in Ei. injection Ei as <-.
        pose proof (nextId_bound Order.id (orders d) x _ Hx Ej). lia. }
      rewrite (Hrows x Hx) by congruence.
      replace (Nat.eqb (Order.bondId o) bond') with false
        by (symmetry; apply Nat.eqb_neq; congruence). reflexivity.
    + rewrite filter_app. cbn [filter]. rewrite Hf, app_nil_r. reflexivity.
  - cbn [snd]. rewrite filter_app. cbn [filter].
    assert (Hf' : forall r', Order.bondId r' = Order.bondId o ->
              Nat.eqb (Order.bondId r') bond'
              && Side_eqb (Order.side r') sd
              && Status_eqb (Order.status r') OPEN = false).
    { intros r' ->. replace (Nat.eqb (Order.bondId o) bond') with false
        by (symmetry; apply Nat.eqb_neq; congruence). reflexivity. }
    rewrite Hf' by (destruct (toRow o2); exact Hb2).
    rewrite app_nil_r. reflexivity.
Qed.

(** X24.  A submission touches its own bond only ([addOrder]).  For an
    order that is new, or whose stored row is of the same bond, and any
    other bond, whatever the outcome: the order book of the other bond
    (levels of both sides and last price) and the positions of the other
    bond are exactly as before.  Precondition: the key constraints of the
    positions table. *)
Theorem other_bonds_are_untouched (now : Z) (order : Order.t) (d : DB)
    (bond' : nat) :
  positionKeys d ->
  (forall x, In x (orders d) -> Order.id x = Order.id order ->
             Order.bondId x = Order.bondId order) ->
  bond' <> Order.bondId order ->
  getOrderBook bond' (fst (addOrder now order d)) = getOrderBook bond' d /\
  positionsOfBond bond' (fst (addOrder now order d)) = positionsOfBond bond' d.
Proof.
  intros Hk Hrows Hb. apply keysOk_positionKeys in Hk.
  split; [|exact (proj2 (addOrder_keys bond' now order d Hk Hb))].
  destruct (addOrder_log now order d) as (new & Hn & Hf & _).
  destruct (addOrder now order d) as [d' r] eqn:E. cbn [fst] in *.
  destruct (addOrder_shape _ _ _ _ _ E)
    as (d2 & o2 & r2 & o3 & Hd2 & Hd' & Hfrom & Ho3).
  assert (Ho2 : orders d2 = orders d).
  { destruct Hd2 as [->|[_ Hm]]; [reflexivity|].
    unfold matchOrder in Hm. exact (matchLoop_frame _ _ _ _ _ _ _ Hm). }
  destruct (filledFrom_fields _ _ Hfrom) as (Hid2 & _ & Hb2 & _).
  assert (Hid3 : Order.id o3 = Order.id order /\
                 Order.bondId o3 = Order.bondId order).
  { destruct Ho3 as [->| ->]; cbn; split; congruence. }
  destruct Hid3 as [Hid3 Hb3].
  assert (Hopen : forall sd, findOpenOrders bond' sd d' = findOpenOrders bond' sd d).
  { intros sd. rewrite Hd'.
    rewrite (saveOrder_other_bond now o3 d2 bond').
    - unfold findOpenOrders. rewrite Ho2. reflexivity.
    - congruence.
    - intros x Hx Hxi. rewrite Ho2 in Hx. rewrite Hb3.
      apply (Hrows x Hx). congruence. }
  unfold getOrderBook, getOrderBookSide. rewrite !Hopen.
  f_equal. unfold lastTradeOf, findOne. rewrite Hn, rev_app_distr.
  rewrite find_skip_prefix; [reflexivity|].
  intros x Hx. apply in_rev in Hx. rewrite Forall_forall in Hf.
  rewrite (Hf x Hx). apply Nat.eqb_neq. congruence.
Qed.

(** * The orders table keeps its keys *)

Lemma order_ids_update (i : nat) (r : Order.t) (rows : list Order.t) :
  Order.id r = Some i ->
  map Order.id (update Order.id i r rows) = map Order.id rows.
Proof.
  intros Hr. unfold update. rewrite map_map. apply map_ext. intros y.
  destruct (hasId Order.id i y) eqn:E; [|reflexivity].
  unfold hasId in E. destruct (Order.id y) as [j|]; [|discriminate].
  apply Nat.eqb_eq in E. congruence.
Qed.

Lemma existsb_hasId_false (i : nat) (rows : list Order.t) :
  existsb (hasId Order.id i) rows = false ->
  ~ In (Some i) (map Order.id rows).
Proof.
  intros H Hin. apply in_map_iff in Hin. destruct Hin as (x & Hx & Hin).
  rewrite (existsb_hasId Order.id rows x i Hin Hx) in H. discriminate.
Qed.

Lemma save_order_keys (r : Order.t) (i : nat) (rows : list Order.t) :
  Order.id r = Some i ->
  (forall x, In x rows -> Order.id x <> None) ->
  NoDup (map Order.id rows) ->
  (forall x, In x (snd (save Order.id Order.set_id r rows)) ->
             Order.id x <> None) /\
  NoDup (map Order.id (snd (save Order.id Order.set_id r rows))).
Proof.
  intros Hr Hsome Hnd. unfold save. rewrite Hr.
  destruct (existsb (hasId Order.id i) rows) eqn:E; cbn [snd].
  - split.
    + intros x Hx. unfold update in Hx. apply in_map_iff in Hx.
      destruct Hx as (y & Hy & Hyin).
      destruct (hasId Order.id i y); subst x; [congruence|auto].
    + rewrite order_ids_update by exact Hr. exact Hnd.
  - split.
    + intros x Hx. apply in_app_or in Hx.
      destruct Hx as [Hx|[<-|[]]]; [auto|congruence].
    + rewrite map_app. cbn [map]. rewrite Hr.
      apply NoDup_app_remove_l with (l := []). simpl.
      apply (Permutation_NoDup (l := Some i :: map Order.id rows)).
      * apply Permutation_cons_append.
      * constructor; [apply existsb_hasId_false, E|exact Hnd].
Qed.

Lemma saveOrder_keys (now : Z) (o : Order.t) (d : DB) :
  orderKeys d -> orderKeys (fst (saveOrder now o d)).
Proof.
  intros [Hsome Hnd]. unfold saveOrder, orderKeys. cbn [fst orders set_orders].
  set (o1 := if isStored o (orders d) then o else stamp now o).
  destruct (Order.id o1) as [i|] eqn:Ei.
  - apply (save_order_keys _ i); [|exact Hsome|exact Hnd].
    destruct (toRow_fields o1) as (-> & _). exact Ei.
  - apply (save_order_keys _ (nextId Order.id (orders d)));
      [|exact Hsome|exact Hnd].
    destruct (toRow_fields
                (Order.set_id (Some (nextId Order.id (orders d))) o1))
      as (-> & _). reflexivity.
Qed.

(** X25.  The orders table keeps its keys ([addOrder], [cancelOrder]).
    From a state where every stored order has an id and the ids are
    unique, every submission, accepted or not, and every cancellation
    leads to such a state again; a new order gets an id that no stored
    order has. *)
Theorem order_keys_are_kept (now : Z) (d : DB) :
  orderKeys d ->
  (forall order, orderKeys (fst (addOrder now order d))) /\
  (forall i u, orderKeys (fst (cancelOrder now i u d))) /\
  (forall order d' o' ts,
     Order.id order = None -> addOrder now order d = (d', Ok (o', ts)) ->
     exists i, Order.id o' = Some i /\
               forall x, In x (orders d) -> Order.id x <> Some i).
Proof.
  intros Hk. split; [|split].
  - intros order. destruct (addOrder now order d) as [d' r] eqn:E. cbn [fst].
    destruct (addOrder_shape _ _ _ _ _ E)
      as (d2 & o2 & r2 & o3 & Hd2 & -> & _ & _).
    apply saveOrder_keys. unfold orderKeys.
    assert (Ho2 : orders d2 = orders d).
    { destruct Hd2 as [->|[_ Hm]]; [reflexivity|].
      unfold matchOrder in Hm. exact (matchLoop_frame _ _ _ _ _ _ _ Hm). }
    rewrite Ho2. exact Hk.
  - intros i u. rewrite cancelOrder_eq.
    destruct (ownedOrder i u d) as [o|] eqn:Eo; [|exact Hk].
    destruct (Status_eqb (Order.status o) OPEN); [|exact Hk].
    cbn [fst]. unfold orderKeys. cbn [orders set_orders].
    destruct Hk as [Hsome Hnd].
    unfold ownedOrder in Eo. apply find_some in Eo. destruct Eo as [Hin Hp].
    apply andb_true_iff in Hp. destruct Hp as [Hid _].
    assert (Hrow : Order.id (toRow (Order.set_status CANCELLED o)) = Some i).
    { destruct (toRow_fields (Order.set_status CANCELLED o)) as (-> & _).
      cbn. unfold hasId in Hid. destruct (Order.id o) as [j|]; [|discriminate].
      apply Nat.eqb_eq in Hid. congruence. }
    split.
    + intros x Hx. unfold update in Hx. apply in_map_iff in Hx.
      destruct Hx as (y & Hy & Hyin).
      destruct (hasId Order.id i y); subst x; [congruence|auto].
    + rewrite order_ids_update by exact Hrow. exact Hnd.
  - intros order d' o' ts Hid H.
    destruct (addOrder_matchLoop _ _ _ _ _ _ H) as (d2 & o2 & Hm & Hs).
    pose proof (matchLoop_order _ _ _ _ _ _ _ Hm) as Hfrom.
    pose proof (matchLoop_frame _ _ _ _ _ _ _ Hm) as Ho2.
    destruct (filledFrom_fields _ _ Hfrom) as (Hid2 & _).
    rewrite saveOrder_new in Hs by (cbn; congruence).
    injection Hs as _ <-.
    exists (nextId Order.id (orders d2)). split; [reflexivity|].
    intros x Hx Hxi. rewrite Ho2 in *.
    pose proof (nextId_bound Order.id (orders d) x _ Hx Hxi). lia.
Qed.

(** * The properties on the example states *)

Section Witnesses.
Import Scenario Examples.

Lemma run_cross : addOrder 3 B1row crossed = (afterCross, Ok (B1partial, [trade1])).
Proof. vm_compute. reflexivity. Qed.

Lemma run_S1 : addOrder 1 S1 db0 = (afterS1, Ok (S1row, [])).
Proof. vm_compute. reflexivity. Qed.

Lemma keys_twoBonds : positionKeys twoBonds.
Proof.
  unfold positionKeys. cbn. split; [|split].
  - intros x [<-|[<-|[<-|[<-|[]]]]]; discriminate.
  - repeat constructor; cbn; intuition discriminate.
  - repeat constructor; cbn; intuition discriminate.
Qed.

Lemma fill_accounting_witness :
  Order.qtyFilledUnits B1partial = 0 + tradedQty [trade1] /\
  Order.qtyFilledUnits B1partial <= 150 /\
  Order.qtyFilledUnits S1row = 0 + tradedQty [].
Proof.
  destruct (fill_accounting 3 B1row crossed afterCross B1partial [trade1] run_cross)
    as (_ & _ & Hsum & Hle).
  split; [exact Hsum|]. split; [apply Hle; vm_compute; discriminate|].
  exact (proj1 (proj2 (proj2 (fill_accounting 1 S1 db0 afterS1 S1row [] run_S1)))).
Defined.

Lemma fill_takes_what_the_book_offers_witness :
  Order.qtyFilledUnits B1partial
  = Z.min 150 (0 + available B1row (fetched B1row crossed)).
Proof.
  apply (fill_takes_what_the_book_offers 3 B1row crossed afterCross B1partial
           [trade1] run_cross).
  vm_compute. discriminate.
Defined.

Lemma status_of_an_accepted_order_witness :
  (Order.status B1partial = PARTIAL <->
   [trade1] <> [] /\ tradedQty [trade1] < 150) /\
  (Order.status S1row = OPEN <-> @nil Trade.t = [] /\ Order.orderType S1 = LIMIT).
Proof.
  split.
  - destruct (status_of_an_accepted_order 3 B1row crossed afterCross B1partial
                [trade1] run_cross) as (_ & H & _).
    + reflexivity.
    + reflexivity.
    + exact H.
  - destruct (status_of_an_accepted_order 1 S1 db0 afterS1 S1row [] run_S1)
      as (_ & _ & H & _).
    + reflexivity.
    + reflexivity.
    + exact H.
Defined.

Lemma trades_follow_the_book_witness :
  (exists Rs, subseq Rs (fetched B1row crossed) /\
              Forall2 (tradeBetween B1row) [trade1] Rs) /\
  isStored B1row (orders crossed) = true.
Proof.
  destruct (trades_follow_the_book 3 B1row crossed afterCross B1partial [trade1]
              run_cross) as (H1 & H2 & _).
  split; [exact H1|]. apply H2. discriminate.
Defined.

Lemma best_order_is_matched_first_witness :
  exists t more,
    [trade1] = t :: more /\ tradeBetween B1row t S1row /\
    Trade.qtyUnits t = Z.min (remaining B1row) (remaining S1row).
Proof.
  apply (best_order_is_matched_first 3 B1row crossed afterCross B1partial
           [trade1] S1row [] run_cross).
  - vm_compute. reflexivity.
  - vm_compute. reflexivity.
  - vm_compute. reflexivity.
  - vm_compute. reflexivity.
Defined.

Lemma limit_price_is_respected_witness :
  exists pn, toNumber (Trade.pricePerUnit trade1) = Num pn /\ (pn <= 99)%Q.
Proof.
  destruct (limit_price_is_respected 3 B1row crossed afterCross B1partial
              [trade1] run_cross eq_refl) as [H _].
  exact (H 99%Q trade1 eq_refl (or_introl eq_refl)).
Defined.

Lemma book_levels_are_best_price_first_witness :
  exists x y,
    toNumber (price (mkLevel (VNum 97) 50
       [Order.mk (Some 2%nat) 3 1 SELL LIMIT (VNum 97) 50 0 OPEN (Some 2)]))
    = Num x /\
    toNumber (price (mkLevel (VNum 98) 100 [S1row])) = Num y /\
    (x <= y)%Q.
Proof.
  apply (book_levels_are_best_price_first 1 SELL twoAsks [] _ [] _ []).
  - intros o Ho. vm_compute in Ho.
    destruct Ho as [<-|[<-|[]]]; discriminate.
  - vm_compute. reflexivity.
Defined.

Lemma last_price_is_the_last_trade_witness :
  lastPrice (getOrderBook 1 afterCross) = VNum 98.
Proof.
  exact (last_price_is_the_last_trade 3 B1row crossed afterCross B1partial
           [trade1] [] trade1 run_cross eq_refl).
Defined.

Lemma open_orders_reserve_nothing_witness :
  validateOrder S1 afterS1 = (afterS1, Ok tt).
Proof.
  exact (proj2 (proj2 (open_orders_reserve_nothing 1 S1 db0 afterS1 S1row
                         run_S1))).
Defined.

Lemma rejected_order_is_recorded_witness :
  exists row,
    addOrder 2 shortSell db0 = (set_orders (orders db0 ++ [row]) db0,
                                Err InsufficientPosition) /\
    Order.status row = CANCELLED.
Proof.
  destruct (rejected_order_is_recorded 2 shortSell db0 InsufficientPosition)
    as (row & Hrun & _ & Hst & _).
  - vm_compute. reflexivity.
  - reflexivity.
  - exists row. split; [exact Hrun|exact Hst].
Defined.

Lemma failure_after_validation_witness :
  trades afterB100 = trades afterS1 /\
  portfolios afterB100 = portfolios afterS1 /\
  exists new t,
    trades (fst (addOrder 2 orphanBid dbOrphan)) = trades dbOrphan ++ new ++ [t].
Proof.
  split; [|split].
  - destruct (failure_after_validation 2 B100 afterS1 afterB100 QueryFailedError)
      as (_ & _ & H).
    + vm_compute. reflexivity.
    + vm_compute. reflexivity.
    + exact (proj1 (proj2 (H eq_refl))).
  - destruct (failure_after_validation 2 B100 afterS1 afterB100 QueryFailedError)
      as (_ & _ & H).
    + vm_compute. reflexivity.
    + vm_compute. reflexivity.
    + exact (proj2 (proj2 (proj2 (H eq_refl)))).
  - destruct (failure_after_validation 2 orphanBid dbOrphan
                (fst (addOrder 2 orphanBid dbOrphan)) TypeError) as (_ & H & _).
    + vm_compute. reflexivity.
    + vm_compute. reflexivity.
    + exact (H eq_refl).
Defined.

Lemma submitted_order_cannot_trade_witness :
  addOrder 2 B1 afterS1
  = (set_orders
       (orders afterS1 ++
        [toRow (inserted 2 (Order.set_status CANCELLED B1) afterS1)]) afterS1,
     Err QueryFailedError) /\
  addOrder 1 S1 db0
  = (set_orders
       (orders db0 ++ [toRow (inserted 1 (Order.set_status OPEN S1) db0)]) db0,
     Ok (inserted 1 (Order.set_status OPEN S1) db0, [])).
Proof.
  split.
  - exact (proj1 (proj2 (submitted_order_cannot_trade 2 B1 afterS1
                           eq_refl eq_refl eq_refl eq_refl)) eq_refl).
  - exact (proj2 (proj2 (submitted_order_cannot_trade 1 S1 db0
                           eq_refl eq_refl eq_refl eq_refl)) eq_refl).
Defined.

Lemma accepted_order_is_on_the_book_iff_open_witness :
  In (toRow S1row) (bookOrders 1 SELL afterS1).
Proof.
  destruct (accepted_order_is_on_the_book_iff_open 1 S1 db0 afterS1 S1row []
              run_S1) as [H _].
  apply H. reflexivity.
Defined.

Lemma portfolio_view_appends_the_values_witness :
  exists v,
    getPortfolio bonds1 1 db0 = (db0, Ok v) /\
    PortfolioView.totalValue v = (Num 0, [Num 10100]).
Proof.
  destruct (portfolio_view_appends_the_values bonds1 1 db0
              (Portfolio.mk 1 1 (Num 0)) eq_refl) as (H & _ & Hst).
  destruct (snd (getPortfolio bonds1 1 db0)) as [v|e] eqn:E;
    [|vm_compute in E; discriminate].
  pose proof (Hst v eq_refl) as Hrun.
  destruct (H v Hrun) as (_ & _ & Ht).
  exists v. split; [exact Hrun|]. rewrite Ht.
  vm_compute in E. injection E as <-. reflexivity.
Defined.

Lemma position_keys_are_kept_witness :
  positionKeys (fst (addOrder 5 B1row twoBonds)) /\
  positionOf 1 1 (fst (addOrder 5 B1row twoBonds)) = None /\
  option_map Position.qtyUnits (positionOf 2 1 (fst (addOrder 5 B1row twoBonds)))
  = Some 100.
Proof.
  split; [exact (position_keys_are_kept 5 B1row twoBonds keys_twoBonds)|].
  split; vm_compute; reflexivity.
Defined.

Lemma other_bonds_are_untouched_witness :
  trades (fst (addOrder 5 B1row twoBonds)) <> trades twoBonds /\
  getOrderBook 2 (fst (addOrder 5 B1row twoBonds)) = getOrderBook 2 twoBonds /\
  lastPrice (getOrderBook 2 twoBonds) = VNum 51 /\
  positionsOfBond 2 (fst (addOrder 5 B1row twoBonds)) = positionsOfBond 2 twoBonds /\
  length (positionsOfBond 2 twoBonds) = 2%nat.
Proof.
  destruct (other_bonds_are_untouched 5 B1row twoBonds 2 keys_twoBonds)
    as (H1 & H2).
  - intros x Hx Hid. vm_compute in Hx.
    destruct Hx as [<-|[<-|[<-|[<-|[]]]]]; try reflexivity; discriminate.
  - discriminate.
  - split; [vm_compute; discriminate|].
    split; [exact H1|]. split; [reflexivity|]. split; [exact H2|reflexivity].
Defined.

Lemma order_keys_are_kept_witness :
  orderKeys (fst (addOrder 2 B1 afterS1)) /\
  orderKeys (fst (cancelOrder 3 1 1 afterS1)).
Proof.
  destruct (order_keys_are_kept 3 afterS1) as (H1 & H2 & _).
  - unfold orderKeys. vm_compute. split.
    + intros x [<-|[]]. discriminate.
    + repeat constructor. intros [].
  - split; [|exact (H2 1%nat 1%nat)].
    destruct (order_keys_are_kept 2 afterS1) as (K & _).
    + unfold orderKeys. vm_compute. split.
      * intros x [<-|[]]. discriminate.
      * repeat constructor. intros [].
    + exact (K B1).
Defined.

End Witnesses.
